(* ===== verification/_CoqProject ===== *)
-Q . S2P
Prelude.v
Vector.v
Geometry.v
Events.v
Brick.v
Paddle.v
Ball.v
Scene.v
Rally.v
Engine.v
Invariants.v
Speed.v
GameOver.v
Session.v
