(* ===== verification/Prelude.v ===== *)
(** * A verification development of the ppb brick-breaker tutorial

    ** The program

    The repository is a tutorial that builds a Breakout game on the ppb
    engine in six steps, each step a complete program:
    src/2.1-setting-up-program-flow/breakout.py and
    src/2.2-the-title-screen/breakout.py (three scenes and their
    transitions), src/3.1-a-ball/breakout.py (a moving ball),
    src/3.2-the-walls/brickbreaker.py (walls and reflection),
    src/3.3-the-paddle/paddle.py (a paddle under keyboard or mouse control,
    with an angled bounce) and src/3.4-the-blocks/bricks.py (the full game:
    a deadly bottom wall, a straight-up paddle bounce and a grid of bricks
    that take three hits).  The parts and how they interact:
    - the engine (ppb) queues events, hands each to the running scene and
      its sprites, and applies the scene requests they signal;
    - the scenes ([TitleScreen], [Game], [EndScreen]) own the sprites and
      send [StartScene], [ReplaceScene] and [StopScene] on a release;
    - on each [Update] the ball moves, reads the walls, the paddle and the
      bricks of its scene, reflects off those it overlaps ([Ball.collides])
      and signals [ReplaceScene(EndScreen)] (deadly wall) and a targeted
      [BrickStruck] (brick); the paddle moves under its control scheme;
    - a brick counts its hits down on [BrickStruck] and leaves the scene
      at zero; before drawing it picks its colour from its hits.

    ** The files

    - [Prelude] (this file): Python's exceptions and an error monad
      ([result], [x <- c ;; k] in [py_scope]), Python's float comparison,
      [range], [itertools.product], list indexing and float division, and
      the shared tactics ([qbool], [qdiv_const], [qminmax], [qcompute]).
    - [Vector]: ppb's [Vector] (modelled from the spec, section 4.1, and
      ppb's behaviour: [normalize] of the zero vector raises
      [ZeroDivisionError], [reflect] about a normal whose length is not 1
      raises [ValueError] ([Vreflect_checked]); the program reflects only
      about unit normals, where [Vreflect] is the same) and
      [ppb.directions].
    - [Geometry]: the [Sized] interface (a sprite's centre and extent, the
      shape mixin of ppb) and [collides], i.e. [Ball.collides].
    - [Events]: the scene classes, the signals and the inbound events.
    - [Brick]: [Brick] of 3.4 and its damage state machine.
    - [Paddle]: [Paddle] of 3.3 and 3.4: control scheme and handlers.
    - [Ball]: [Wall] and [Ball] and the four versions of [Ball.on_update].
    - [Scene]: the scene classes of every step: [TitleScreen.__init__],
      [Game.__init__] of 3.1, 3.2, 3.3 and 3.4 (each its own definition),
      the release handlers of each class, and the brick grid.
    - [Rally]: the ball over several frames ([ball_ticks]: one
      [Ball.on_update] per frame among fixed sprites).
    - [Engine]: ppb's engine, modelled from the spec (sections 5 and 6)
      and ppb's documented scene semantics: a stack of scenes, a FIFO
      queue of events, dispatch to the running scene then to its sprites
      in insertion order.
    - [Invariants]: well-formed scenes ([scene_wf]: distinct identities,
      bricks with 1 to 3 hits, paddles on their row, one paddle in a
      [Game] of 3.3 and 3.4) and the states the engine reaches from
      [ppb.run] under any input ([engine_reachable]), which contains every
      state a script of frames leads to; the Section
      [SceneInvariant] lifts any property of scenes that [Scene_new], the
      sprites' handlers and [on_brick_struck] keep to every reachable
      state, and [scene_wf] is its first instance.
    - [Speed]: a second instance: in 3.2 every ball keeps the speed it is
      launched with.
    - [GameOver]: one frame of the 3.4 engine in which the ball touches
      the deadly wall, from the ball's signal to the end screen.
    - [Session]: the host's main loop ([session]: one frame per element
      of a finite script of inputs and time steps, while a scene is left
      on the stack), and that every state it leads to is well formed.

    ** Modelling choices

    Floats are modelled by exact rationals ([Q]); [math.hypot] by [Qsqrt],
    which is exact on squares of rationals (so the length of an
    axis-aligned vector is exact, as [hypot(x, 0)] is on floats) and
    rounds down within [2^-64] otherwise; rounding of the other float
    operations is not modelled.  A sprite is a record of its fields;
    [scene.get(kind=...)] is the list of the scene's sprites of that kind;
    objects are named by identities given in insertion order, so a
    targeted [BrickStruck] reaches one brick.  Each handler returns the
    new sprite (or [None] when it leaves the scene) with the signals it
    sent, in order, or the exception it raised.  The engine's [run] takes
    a fuel bound; [run_terminates] shows some fuel always suffices.
    Several frames of one sprite ([paddle_updates], [ball_ticks]) repeat
    its [on_update] with a fixed time step, the other sprites standing
    still; the liveness theorems bound the number of frames by
    Archimedes' property of [Q] ([steps_cover]), not by a fixed fuel.
    Concrete simulations are kept to one or two frames: exact rationals
    grow with each [normalize], and a third frame already costs tens of
    seconds.

    ** What the theorems show

    - Collision: [collides] refines the centre-distance overlap for
      positive sizes, is symmetric, and never holds for separated boxes.
    - Ball: the functional behaviour of [Ball.on_update] of 3.4 (position,
      signals, error cases), the deadly wall asking for the end screen, the
      targeted strikes, the equivalence of the 3.4 and 3.2 wall loops, the
      independence of the wall order, and the 3.3 paddle bounce, whose
      normal leans toward the side of the paddle's centre the ball meets.
      The theorems over arbitrary walls assume normals of length 1, as
      ppb's [reflect] demands and every wall of the program has.
    - Bricks: a new brick leaves the scene after exactly three strikes;
      [0 < hits <= 3] is invariant; the grid of 70 bricks lets the ball
      overlap at most one brick at a time; as built, the ball, the paddle
      and the bricks of the 3.4 game overlap nothing (only the walls meet,
      at the corners).
    - Paddle: an invariant (the mouse target is on the paddle's row) holds
      in every reachable state, so [on_update] never raises and the paddle
      never leaves its row; the mouse scheme never overshoots; the
      keyboard scheme moves by [speed * time_delta] in the held direction.
    - Engine and scenes: in every variant each release of a frame on the
      title screen starts a fresh game, and each release of a frame on the
      end screen pops one scene; the game ignores releases from 3.3 on; a
      struck brick with one hit left is removed.
    - Invariants of the whole program: every frame keeps the scenes well
      formed, and every
      state a script of host frames leads to from [ppb.run] is well formed; in
      every state reachable in 3.4 each [Game] has exactly one paddle, so
      the ball's [next(event.scene.get(kind=Paddle))] never raises
      [StopIteration]; in every state reachable in 3.2 every ball moves
      at its launch speed (the walls' normals have length 1 and a
      reflection keeps the length of the velocity); in every state
      reachable in 3.4 a frame whose [Update] has the ball touch the
      deadly wall ends with the end screen in place of the game and an
      empty queue, whatever bricks the ball also struck (spec section 8).
    - Control and ordering: the keyboard and mouse schemes override each
      other and are never combined (spec section 4.5); in 3.4 publishing
      can fail only with the [ZeroDivisionError] of a ball centred on a
      brick.
    - Liveness: under the mouse the paddle reaches the pointer in finitely
      many frames; in the 3.4 game a ball falling straight down below the
      bricks ends the game when it moves less than 2 per frame, and
      tunnels through the deadly wall when it moves 3.
    - 3.3 and rendering: the paddle bounce of 3.3 sends a ball moving into
      the paddle normal away from it; [on_pre_render] succeeds exactly
      for [-2 <= hits <= 3] (Python's negative indices) and raises
      [IndexError] otherwise.
    - Findings, proved as theorems: the bounce about the centre-to-centre
      direction turns a ball that leaves a brick back into it; a wall
      reflects a ball still overlapping it back through it; a ball whose
      centre meets a brick's centre raises [ZeroDivisionError]; after the
      end screen the title screen resumes (the session does not stop),
      while two releases in one frame on the end screen pop the title as
      well and stop the engine; two releases in one frame on the title
      start two games.

    ** Not modelled

    Rendering, images, fonts, window and camera (the [print] calls of 3.1
    and 3.2 included), the clock that times the frames (a [session]
    takes its time steps from its script), and the rounding of float
    arithmetic.  Rendering is kept only as the brick's choice of colour.
    The speed invariant is stated for 3.2 only: in 3.3 and 3.4 the
    paddle and brick normals come from [normalize], whose square root
    [Qsqrt] rounds down, so their length is only at least 1 and the
    model's speed may grow where the float program's stays put up to
    rounding.

    The source lines the map leaves out are of three kinds: imports,
    [FONT], [background_color] and the arguments of [ppb.run] (rendering
    and window); the [print] calls; and classes that a later step
    repeats verbatim.  The last kind: the scene classes of 2.2, 3.1, 3.2
    and 3.3 (their [on_key_released] and [on_button_released] send the
    signals of [Scene_on_release], which is mapped to the 3.4 and 3.2
    copies), [Ball.collides] of 3.2 and 3.3 (the text of [collides]),
    [Wall] of 3.3 (the text of [Wall_new_v32]), the [Ball] attributes of
    3.3 (those of [Ball_new]) and the [Paddle] handlers of 3.3 (the text
    of [Paddle_on_update], [Paddle_on_key_pressed],
    [Paddle_on_key_released] and [Paddle_on_mouse_motion]).  Each is
    modelled once, by the definition of the later copy, and the engine
    runs that definition for every step that has the class.
*)

From Stdlib Require Import QArith Qminmax Qabs Lqa ZArith Lia List Morphisms Setoid Permutation.
Import ListNotations.

Declare Scope py_scope.
Delimit Scope py_scope with py.
Open Scope Q_scope.

(** ** Python exceptions the modelled code can raise *)

Inductive PyError : Type :=
| ZeroDivisionError   (** float division by [0.0] *)
| StopIteration       (** [next] on an exhausted generator *)
| TypeError           (** an operation applied to [None] *)
| IndexError          (** a list index out of range *)
| ValueError.         (** [Vector.reflect] about a normal whose length is not 1 *)

(** ** The error monad: a computation either returns or raises *)

Inductive result (A : Type) : Type :=
| Ok (a : A)
| Err (e : PyError).
Arguments Ok {A} a.
Arguments Err {A} e.

Definition bind {A B : Type} (r : result A) (k : A -> result B) : result B :=
  match r with
  | Ok a => k a
  | Err e => Err e
  end.

Notation "x <- c1 ;; c2" := (bind c1 (fun x => c2))
  (at level 61, c1 at next level, right associativity) : py_scope.
Notation "' p <- c1 ;; c2" := (bind c1 (fun x => match x with p => c2 end))
  (at level 61, p pattern, c1 at next level, right associativity) : py_scope.

Open Scope py_scope.

Definition is_ok {A : Type} (r : result A) : bool :=
  match r with Ok _ => true | Err _ => false end.

Lemma bind_Ok {A B : Type} (a : A) (k : A -> result B) : bind (Ok a) k = k a.
Proof. reflexivity. Qed.

Lemma bind_Err {A B : Type} (e : PyError) (k : A -> result B) : bind (Err e) k = Err e.
Proof. reflexivity. Qed.

Lemma bind_eq_Ok {A B : Type} (r : result A) (k : A -> result B) (b : B) :
  bind r k = Ok b -> exists a, r = Ok a /\ k a = Ok b.
Proof. destruct r; simpl; [eauto | discriminate]. Qed.

(** Split an [Ok] result of a chain of binds into its steps, opening the
    pairs the chain matches on. *)
Ltac inv_bind H :=
  repeat (let a := fresh "a" in let Ha := fresh "Hbind" in
          apply bind_eq_Ok in H as [a [Ha H]];
          lazymatch type of a with
          | prod _ _ => destruct a as [? ?]; cbn beta iota in H
          | _ => idtac
          end).

(** ** Python's float comparisons on the rationals that model floats *)

(** [x < y] on floats. *)
Definition Qltb (x y : Q) : bool := negb (Qle_bool y x).

Lemma Qltb_iff (x y : Q) : Qltb x y = true <-> x < y.
Proof.
  unfold Qltb. rewrite Bool.negb_true_iff. split.
  - intros H. apply Qnot_le_lt. intros H'. apply Qle_bool_iff in H'. congruence.
  - intros H. destruct (Qle_bool y x) eqn:E; [|reflexivity].
    apply Qle_bool_iff in E. exfalso. apply (Qlt_not_le _ _ H E).
Qed.

Lemma Qltb_false_iff (x y : Q) : Qltb x y = false <-> y <= x.
Proof.
  unfold Qltb. rewrite Bool.negb_false_iff. apply Qle_bool_iff.
Qed.

#[export] Instance Qltb_proper : Proper (Qeq ==> Qeq ==> eq) Qltb.
Proof. intros a b Hab c d Hcd. unfold Qltb. rewrite Hab, Hcd. reflexivity. Qed.

(** [x == y] and [x != y] on floats. *)
Lemma Qeq_bool_false_iff (x y : Q) : Qeq_bool x y = false <-> ~ x == y.
Proof.
  split; [apply Qeq_bool_neq|].
  intros H. destruct (Qeq_bool x y) eqn:E; [|reflexivity].
  apply Qeq_bool_iff in E. contradiction.
Qed.

Lemma Qabs_zero_iff (x : Q) : Qabs x == 0 <-> x == 0.
Proof. apply Qabs_case; intros; split; intros; lra. Qed.

(** ** Python built-ins used by the program *)

(** Float division [a / b]: [ZeroDivisionError] when [b] is zero. *)
Definition py_div (a b : Q) : result Q :=
  if Qeq_bool b 0 then Err ZeroDivisionError else Ok (a / b).

(** [range(start, stop, step)] for a positive step. *)
Definition py_range (start stop step : Z) : list Z :=
  map (fun i => (start + step * Z.of_nat i)%Z)
      (seq 0 (Z.to_nat ((stop - start + step - 1) / step))).

(** [itertools.product(xs, ys)]: the first factor varies slowest. *)
Definition product {A B : Type} (xs : list A) (ys : list B) : list (A * B) :=
  flat_map (fun a => map (fun b => (a, b)) ys) xs.

(** [l[i]] with Python's negative indices. *)
Definition py_index {A : Type} (l : list A) (i : Z) : result A :=
  let n := Z.of_nat (length l) in
  if (0 <=? i)%Z && (i <? n)%Z then
    match nth_error l (Z.to_nat i) with Some a => Ok a | None => Err IndexError end
  else if ((- n) <=? i)%Z && (i <? 0)%Z then
    match nth_error l (Z.to_nat (n + i)) with Some a => Ok a | None => Err IndexError end
  else Err IndexError.

Lemma length_product {A B : Type} (xs : list A) (ys : list B) :
  length (product xs ys) = (length xs * length ys)%nat.
Proof.
  induction xs as [|a xs IH]; [reflexivity|].
  simpl. rewrite length_app, length_map, IH. reflexivity.
Qed.

Lemma in_product {A B : Type} (xs : list A) (ys : list B) a b :
  In (a, b) (product xs ys) <-> In a xs /\ In b ys.
Proof.
  unfold product. rewrite in_flat_map. split.
  - intros [a' [Ha Hb]]. apply in_map_iff in Hb as [b' [E Hb]]. inversion E; subst; auto.
  - intros [Ha Hb]. exists a. split; [exact Ha|]. apply in_map_iff. eauto.
Qed.

Lemma Permutation_filter_length {A : Type} (f : A -> bool) (l l' : list A) :
  Permutation l l' -> length (filter f l) = length (filter f l').
Proof.
  induction 1 as [| x l l' _ IH | x y l | l l' l'' _ IH1 _ IH2]; cbn [filter].
  - reflexivity.
  - destruct (f x); cbn [length]; congruence.
  - destruct (f x), (f y); reflexivity.
  - congruence.
Qed.

(** A predicate that holds of at most one element of a duplicate-free list
    selects at most one element. *)
Lemma filter_at_most_one {A : Type} (f : A -> bool) (l : list A) :
  NoDup l -> (forall x y, In x l -> In y l -> f x = true -> f y = true -> x = y) ->
  (length (filter f l) <= 1)%nat.
Proof.
  induction l as [|a l IH]; intros Hnd Huniq; cbn [filter]; [simpl; lia|].
  inversion Hnd as [|? ? Hnotin Hnd']; subst.
  destruct (f a) eqn:Fa.
  - assert (E : filter f l = []).
    { destruct (filter f l) as [|y ys] eqn:F; [reflexivity|].
      assert (Hy : In y (filter f l)) by (rewrite F; left; reflexivity).
      apply filter_In in Hy as [Hin Fy].
      assert (a = y) by (apply Huniq; auto using in_eq, in_cons).
      subst. contradiction. }
    rewrite E. cbn. lia.
  - apply IH; [exact Hnd'|]. intros x y Hx Hy. apply Huniq; right; assumption.
Qed.

Lemma in_py_range (z start stop step : Z) :
  In z (py_range start stop step) -> exists k : nat, z = (start + step * Z.of_nat k)%Z.
Proof. unfold py_range. rewrite in_map_iff. intros [k [E _]]. eauto. Qed.

(** [1] for an even number of flips, [-1] for an odd one. *)
Definition parity_sign (k : nat) : Q := if Nat.even k then 1 else -1.

Lemma parity_sign_S (k : nat) : parity_sign (S k) == - parity_sign k.
Proof.
  unfold parity_sign. rewrite Nat.even_succ, <- Nat.negb_even.
  destruct (Nat.even k); reflexivity.
Qed.

(** ** Counting steps of a fixed length *)

(** [n] steps of length [step], as a rational. *)
Lemma inject_Z_of_nat_S (n : nat) : inject_Z (Z.of_nat (S n)) == inject_Z (Z.of_nat n) + 1.
Proof. rewrite Nat2Z.inj_succ, <- Z.add_1_r, inject_Z_plus. reflexivity. Qed.

(** Archimedes: finitely many steps of a positive length cover any distance. *)
Lemma steps_cover (d step : Q) : 0 < step -> exists n : nat, d <= inject_Z (Z.of_nat n) * step.
Proof.
  intros Hs. destruct (Qarchimedean (d / step)) as [p Hp]. exists (Pos.to_nat p).
  rewrite positive_nat_Z. unfold inject_Z. apply Qlt_le_weak.
  setoid_replace d with (d / step * step) by (field; intros E; rewrite E in Hs; discriminate).
  apply Qmult_lt_r; assumption.
Qed.

(** ** Automation shared by the components *)

Create HintDb breakout.

(** Turn the boolean comparisons of the code into propositions. *)
Ltac qbool :=
  repeat match goal with
  | H : Qltb _ _ = true |- _ => apply Qltb_iff in H
  | H : Qltb _ _ = false |- _ => apply Qltb_false_iff in H
  | H : Qeq_bool _ _ = true |- _ => apply Qeq_bool_iff in H
  | H : Qeq_bool _ _ = false |- _ => apply Qeq_bool_false_iff in H
  | H : (_ && _)%bool = true |- _ => apply andb_prop in H as [? ?]
  | |- Qltb _ _ = true => apply Qltb_iff
  | |- Qltb _ _ = false => apply Qltb_false_iff
  end.

(** [lra] does not read [x / c] for a numeral [c]: rewrite it [x * (1 # c)]. *)
Ltac qdiv_const :=
  repeat match goal with
  | |- context [?x / (Zpos ?p # 1)] => change (x / (Zpos p # 1)) with (x * (1 # p))
  | H : context [?x / (Zpos ?p # 1)] |- _ => change (x / (Zpos p # 1)) with (x * (1 # p)) in H
  end.

(** Split every [Qmax]/[Qmin] of the goal into its two cases. *)
Ltac qminmax :=
  repeat match goal with
  | |- context [Qmax ?a ?b] =>
      let H := fresh "Hmax" in
      destruct (Q.max_spec a b) as [[? H] | [? H]]; rewrite H; clear H
  | |- context [Qmin ?a ?b] =>
      let H := fresh "Hmin" in
      destruct (Q.min_spec a b) as [[? H] | [? H]]; rewrite H; clear H
  end.

(** Close a closed comparison of rationals by evaluation. *)
Ltac qcompute :=
  match goal with
  | |- _ <= _ => apply Qle_bool_iff; vm_compute; reflexivity
  | |- _ < _ => apply Qltb_iff; vm_compute; reflexivity
  | |- _ == _ => apply Qeq_bool_iff; vm_compute; reflexivity
  end.

#[export] Hint Resolve Qle_refl Qeq_refl : breakout.
