(* ===== verification/Vector.v ===== *)
(** * ppb's [Vector]: two-dimensional vectors over the float model

    [ppb_vector.Vector] is the library type every position and velocity of
    the program has.  Floats are modelled by exact rationals; [hypot] is
    modelled by [Qsqrt], a square root that is exact on the squares of
    rationals (so the length of an axis-aligned vector is exact, as
    [math.hypot] is on floats) and rounds down at [2^-64] otherwise.
    The operations are those the program calls: [+], [-], scaling by a
    scalar, the dot product, [length], [normalize], [reflect], truth
    testing, and the constants of [ppb.directions]. *)

From Stdlib Require Import QArith Qminmax Qabs Lqa ZArith Lia List Morphisms Setoid Psatz.
From S2P Require Import Prelude.
Import ListNotations.
Open Scope Q_scope.
Open Scope py_scope.

(** ** The square root behind [math.hypot] *)

Definition sqrt_bits : Z := 64.

Definition Qsqrt (q : Q) : Q :=
  let r := Qred q in
  Z.sqrt (Qnum r * Zpos (Qden r) * 4 ^ sqrt_bits) # (Qden r * Z.to_pos (2 ^ sqrt_bits)).

Lemma Qred_coprime (a : Z) (b : positive) : Z.gcd a (Zpos b) = 1%Z -> Qred (a # b) = a # b.
Proof.
  intros G. unfold Qred.
  pose proof (Z.ggcd_correct_divisors a (Zpos b)) as Hd.
  pose proof (Z.ggcd_gcd a (Zpos b)) as Hg.
  destruct (Z.ggcd a (Zpos b)) as [g [a' b']]; simpl in *.
  rewrite G in Hg. subst g. destruct Hd as [Ha Hb].
  rewrite Z.mul_1_l in Ha, Hb. rewrite <- Ha, <- Hb. reflexivity.
Qed.

Lemma gcd_square_1 (n m : Z) : Z.gcd n m = 1%Z -> Z.gcd (n * n) (m * m) = 1%Z.
Proof.
  intros H. change (Z.coprime (n * n) (m * m)).
  apply Z.coprime_mul_l; apply Z.coprime_mul_r; exact H.
Qed.

Lemma sqrt_scale_pos : (0 < 2 ^ sqrt_bits)%Z.
Proof. apply Z.pow_pos_nonneg; unfold sqrt_bits; lia. Qed.

Lemma sqrt_scale_square : (4 ^ sqrt_bits = 2 ^ sqrt_bits * 2 ^ sqrt_bits)%Z.
Proof. rewrite <- Z.pow_mul_l. reflexivity. Qed.

(** [Qsqrt] depends on the value of its argument, not on its
    representation. *)
Lemma Qsqrt_compat (p q : Q) : p == q -> Qsqrt p = Qsqrt q.
Proof. intros H. unfold Qsqrt. rewrite (Qred_complete p q H). reflexivity. Qed.

#[export] Instance Qsqrt_proper : Proper (Qeq ==> Qeq) Qsqrt.
Proof. intros p q H. rewrite (Qsqrt_compat p q H). reflexivity. Qed.

(** The square root of a square is exact. *)
Lemma Qsqrt_square (x : Q) : Qsqrt (x * x) == Qabs x.
Proof.
  unfold Qsqrt.
  pose proof (gcd_Qred x) as G. pose proof (Qred_correct x) as Ex.
  destruct (Qred x) as [n d] eqn:Er. simpl in G.
  assert (E : Qred (x * x) = (n * n) # (d * d)).
  { rewrite <- (Qred_coprime (n * n) (d * d)).
    - apply Qred_complete. rewrite <- Ex. reflexivity.
    - rewrite Pos2Z.inj_mul. apply gcd_square_1. exact G. }
  rewrite E. cbn [Qnum Qden].
  pose proof sqrt_scale_pos as Hk. set (k := (2 ^ sqrt_bits)%Z) in *.
  replace (n * n * Z.pos (d * d) * 4 ^ sqrt_bits)%Z with
    ((Z.abs n * Z.pos d * k) * (Z.abs n * Z.pos d * k))%Z.
  2:{ rewrite sqrt_scale_square. fold k. rewrite Pos2Z.inj_mul. destruct n; simpl; lia. }
  rewrite Z.sqrt_square by (apply Z.mul_nonneg_nonneg; lia).
  rewrite <- Ex. unfold Qeq, Qabs; cbn [Qnum Qden].
  rewrite !Pos2Z.inj_mul, Z2Pos.id by lia. destruct n; simpl; nia.
Qed.

Lemma Qsqrt_nonneg (q : Q) : 0 <= Qsqrt q.
Proof. unfold Qsqrt, Qle; cbn [Qnum Qden]. rewrite Z.mul_1_r. apply Z.sqrt_nonneg. Qed.

Lemma Qsqrt_pos (q : Q) : 0 < q -> 0 < Qsqrt q.
Proof.
  intros H. rewrite <- (Qred_correct q) in H. unfold Qsqrt.
  destruct (Qred q) as [a b]. unfold Qlt in *; cbn [Qnum Qden] in *. rewrite Z.mul_1_r in *.
  apply Z.sqrt_pos. apply Z.mul_pos_pos; [lia|]. apply Z.pow_pos_nonneg; unfold sqrt_bits; lia.
Qed.

Lemma Qsqrt_0 : Qsqrt 0 == 0.
Proof. reflexivity. Qed.

(** The rounded root never exceeds the exact one. *)
Lemma Qsqrt_sq_le (q : Q) : 0 <= q -> Qsqrt q * Qsqrt q <= q.
Proof.
  intros H. rewrite <- (Qred_correct q) in H.
  apply Qle_trans with (Qred q); [| rewrite Qred_correct; apply Qle_refl]. unfold Qsqrt.
  destruct (Qred q) as [a b]. unfold Qle, Qmult in *; cbn [Qnum Qden] in *. rewrite Z.mul_1_r in *.
  pose proof sqrt_scale_pos as Hk. rewrite sqrt_scale_square.
  set (k := (2 ^ sqrt_bits)%Z) in *.
  pose proof (Z.sqrt_spec (a * Z.pos b * (k * k))) as [S1 _]; [nia|].
  rewrite !Pos2Z.inj_mul, Z2Pos.id by lia. nia.
Qed.

(** ** The vector type and its operations *)

Record Vector : Type := mkVector { vx : Q; vy : Q }.

(** Two vectors are equal when their coordinates are equal as numbers. *)
Definition veq (u v : Vector) : Prop := vx u == vx v /\ vy u == vy v.
Infix "==v" := veq (at level 70, no associativity) : py_scope.

#[export] Instance veq_Equivalence : Equivalence veq.
Proof.
  split.
  - intros u; split; reflexivity.
  - intros u v [H1 H2]; split; symmetry; assumption.
  - intros u v w [H1 H2] [H3 H4]; split; etransitivity; eauto.
Qed.

#[export] Instance vx_proper : Proper (veq ==> Qeq) vx.
Proof. intros u v [H _]. exact H. Qed.
#[export] Instance vy_proper : Proper (veq ==> Qeq) vy.
Proof. intros u v [_ H]. exact H. Qed.

(** [Vector.__add__] *)
Definition Vadd (u v : Vector) : Vector := mkVector (vx u + vx v) (vy u + vy v).
(** [Vector.__sub__] *)
Definition Vsub (u v : Vector) : Vector := mkVector (vx u - vx v) (vy u - vy v).
(** [Vector.__mul__] with a scalar (and [__rmul__]) *)
Definition Vscale (v : Vector) (k : Q) : Vector := mkVector (vx v * k) (vy v * k).
(** [Vector.__mul__] with a vector: the dot product *)
Definition Vdot (u v : Vector) : Q := vx u * vx v + vy u * vy v.
(** [Vector.__truediv__]: each coordinate divided by a float *)
Definition Vdiv (v : Vector) (k : Q) : result Vector :=
  if Qeq_bool k 0 then Err ZeroDivisionError else Ok (mkVector (vx v / k) (vy v / k)).
(** [Vector.length] is [hypot(x, y)] *)
Definition Vlength (v : Vector) : Q := Qsqrt (vx v * vx v + vy v * vy v).
(** [Vector.__bool__]: a vector is true unless both coordinates are zero *)
Definition Vtruthy (v : Vector) : bool := negb (Qeq_bool (vx v) 0 && Qeq_bool (vy v) 0).
(** [Vector.normalize] is [scale_to(1)], i.e. [(1 * self) / self.length] *)
Definition Vnormalize (v : Vector) : result Vector := Vdiv (Vscale v 1) (Vlength v).
(** The formula of [Vector.reflect(n)]: [self - (2 * (self * n)) * n].
    ppb_vector first checks [isclose(n.length, 1)] and raises [ValueError]
    otherwise ([Vreflect_checked] below); the program reflects only about
    unit normals (the walls' axis directions, [directions.Up] and
    normalized vectors), so the ball's updates use the formula, and the
    theorems over arbitrary walls assume normals of length 1, where the
    two agree ([Vreflect_checked_unit]). *)
Definition Vreflect (v n : Vector) : Vector := Vsub v (Vscale n (2 * Vdot v n)).

Infix "+v" := Vadd (at level 50, left associativity) : py_scope.
Infix "-v" := Vsub (at level 50, left associativity) : py_scope.
Infix "*v" := Vscale (at level 40, left associativity) : py_scope.

(** [math.isclose(a, b)] with its defaults [rel_tol=1e-09], [abs_tol=0]. *)
Definition py_isclose (a b : Q) : bool :=
  Qle_bool (Qabs (a - b)) ((1 # 1000000000) * Qmax (Qabs a) (Qabs b)).

(** [Vector.reflect(n)] of ppb_vector, with its check on the normal. *)
Definition Vreflect_checked (v n : Vector) : result Vector :=
  if py_isclose (Vlength n) 1 then Ok (Vreflect v n) else Err ValueError.

Definition Vzero : Vector := mkVector 0 0.

(** [ppb.directions]: the axis directions are normalized unit vectors and
    the diagonals are normalized sums of two of them. *)
Module directions.
Definition Up : Vector := mkVector 0 1.
Definition Down : Vector := mkVector 0 (-1).
Definition Left : Vector := mkVector (-1) 0.
Definition Right : Vector := mkVector 1 0.
Definition unwrap (r : result Vector) : Vector :=
  match r with Ok v => v | Err _ => Vzero end.
Definition UpAndLeft : Vector := unwrap (Vnormalize (Up +v Left)).
Definition UpAndRight : Vector := unwrap (Vnormalize (Up +v Right)).
Definition DownAndLeft : Vector := unwrap (Vnormalize (Down +v Left)).
Definition DownAndRight : Vector := unwrap (Vnormalize (Down +v Right)).
End directions.

(** ** Morphisms: every operation respects [veq] *)

#[export] Instance mkVector_proper : Proper (Qeq ==> Qeq ==> veq) mkVector.
Proof. intros a b H1 c d H2; split; assumption. Qed.
#[export] Instance Vadd_proper : Proper (veq ==> veq ==> veq) Vadd.
Proof. intros a b [H1 H2] c d [H3 H4]; split; simpl; rewrite ?H1, ?H2, ?H3, ?H4; reflexivity. Qed.
#[export] Instance Vsub_proper : Proper (veq ==> veq ==> veq) Vsub.
Proof. intros a b [H1 H2] c d [H3 H4]; split; simpl; rewrite ?H1, ?H2, ?H3, ?H4; reflexivity. Qed.
#[export] Instance Vscale_proper : Proper (veq ==> Qeq ==> veq) Vscale.
Proof. intros a b [H1 H2] c d H3; split; simpl; rewrite ?H1, ?H2, ?H3; reflexivity. Qed.
#[export] Instance Vdot_proper : Proper (veq ==> veq ==> Qeq) Vdot.
Proof. intros a b [H1 H2] c d [H3 H4]; unfold Vdot; rewrite H1, H2, H3, H4; reflexivity. Qed.
#[export] Instance Vlength_proper : Proper (veq ==> Qeq) Vlength.
Proof. intros a b [H1 H2]; unfold Vlength; rewrite H1, H2; reflexivity. Qed.
#[export] Instance Vreflect_proper : Proper (veq ==> veq ==> veq) Vreflect.
Proof. intros a b H1 c d H2; unfold Vreflect; rewrite H1, H2; reflexivity. Qed.
#[export] Instance Vtruthy_proper : Proper (veq ==> eq) Vtruthy.
Proof. intros a b [H1 H2]; unfold Vtruthy; rewrite H1, H2; reflexivity. Qed.

(** ** Reflection *)

(** Reflection negates the component along the normal, scaled by [n.n]. *)
Lemma Vreflect_dot (v n : Vector) :
  Vdot (Vreflect v n) n == Vdot v n * (1 - 2 * Vdot n n).
Proof. unfold Vreflect, Vdot, Vsub, Vscale; simpl. ring. Qed.

(** Reflecting twice about the same unit normal gives the vector back. *)
Lemma Vreflect_involutive (v n : Vector) :
  Vdot n n == 1 -> Vreflect (Vreflect v n) n ==v v.
Proof.
  unfold Vreflect, Vdot, Vsub, Vscale, veq; simpl. intros H.
  set (d := vx v * vx n + vy v * vy n). split.
  - transitivity (vx v + 4 * d * vx n * (vx n * vx n + vy n * vy n - 1));
      [unfold d; ring | rewrite H; ring].
  - transitivity (vy v + 4 * d * vy n * (vx n * vx n + vy n * vy n - 1));
      [unfold d; ring | rewrite H; ring].
Qed.

(** Reflection about a unit normal preserves the speed. *)
Lemma Vreflect_norm (v n : Vector) :
  Vdot n n == 1 -> Vdot (Vreflect v n) (Vreflect v n) == Vdot v v.
Proof.
  unfold Vreflect, Vdot, Vsub, Vscale; simpl. intros H.
  set (d := vx v * vx n + vy v * vy n).
  transitivity (vx v * vx v + vy v * vy v + 4 * d * d * (vx n * vx n + vy n * vy n - 1));
    [unfold d; ring | rewrite H; ring].
Qed.

(** Reflection about an axis direction flips one coordinate. *)
Lemma Vreflect_vertical (v n : Vector) :
  vx n == 0 -> vy n * vy n == 1 -> Vreflect v n ==v mkVector (vx v) (- vy v).
Proof.
  intros H0 H1. unfold Vreflect, Vdot, Vsub, Vscale, veq; simpl. rewrite H0. split.
  - ring.
  - setoid_replace (vy v - vy n * (2 * (vx v * 0 + vy v * vy n)))
      with (vy v - 2 * vy v * (vy n * vy n)) by ring. rewrite H1. ring.
Qed.

Lemma Vreflect_horizontal (v n : Vector) :
  vy n == 0 -> vx n * vx n == 1 -> Vreflect v n ==v mkVector (- vx v) (vy v).
Proof.
  intros H0 H1. unfold Vreflect, Vdot, Vsub, Vscale, veq; simpl. rewrite H0. split.
  - setoid_replace (vx v - vx n * (2 * (vx v * vx n + vy v * 0)))
      with (vx v - 2 * vx v * (vx n * vx n)) by ring. rewrite H1. ring.
  - ring.
Qed.

(** ** Length, truth and normalization *)

Lemma Vdot_self_nonneg (v : Vector) : 0 <= Vdot v v.
Proof. unfold Vdot. nra. Qed.

Lemma Vlength_nonneg (v : Vector) : 0 <= Vlength v.
Proof. apply Qsqrt_nonneg. Qed.

(** The length of an axis-aligned vector is exact. *)
Lemma Vlength_horizontal (v : Vector) : vy v == 0 -> Vlength v == Qabs (vx v).
Proof.
  intros H. unfold Vlength. rewrite H.
  setoid_replace (vx v * vx v + 0 * 0) with (vx v * vx v) by ring.
  apply Qsqrt_square.
Qed.

Lemma Vtruthy_false_iff (v : Vector) : Vtruthy v = false <-> vx v == 0 /\ vy v == 0.
Proof.
  unfold Vtruthy. rewrite Bool.negb_false_iff, Bool.andb_true_iff, !Qeq_bool_iff. tauto.
Qed.

(** A vector has length zero exactly when it is false. *)
Lemma Vlength_zero_iff (v : Vector) : Vlength v == 0 <-> Vtruthy v = false.
Proof.
  rewrite Vtruthy_false_iff. unfold Vlength. split.
  - intros H. destruct (Qeq_dec (vx v * vx v + vy v * vy v) 0) as [E|E].
    + split; nra.
    + assert (0 < Qsqrt (vx v * vx v + vy v * vy v)) by (apply Qsqrt_pos; nra). lra.
  - intros [H1 H2]. rewrite H1, H2. reflexivity.
Qed.

Lemma Vscale_1 (v : Vector) : Vscale v 1 ==v v.
Proof. split; simpl; ring. Qed.

(** [normalize] raises [ZeroDivisionError] exactly on the zero vector. *)
Lemma Vnormalize_Err (v : Vector) (e : PyError) :
  Vnormalize v = Err e -> Vtruthy v = false /\ e = ZeroDivisionError.
Proof.
  unfold Vnormalize, Vdiv. destruct (Qeq_bool (Vlength v) 0) eqn:E;
    intros H; inversion H; subst. split; [|reflexivity].
  apply Vlength_zero_iff. apply Qeq_bool_iff in E. exact E.
Qed.

Lemma Vnormalize_Ok (v : Vector) :
  Vtruthy v = true ->
  Vnormalize v = Ok (mkVector (vx v * 1 / Vlength v) (vy v * 1 / Vlength v)).
Proof.
  intros H. unfold Vnormalize, Vdiv.
  destruct (Qeq_bool (Vlength v) 0) eqn:E; [|reflexivity].
  apply Qeq_bool_iff, Vlength_zero_iff in E. congruence.
Qed.

(** The horizontal coordinate of a normalized vector. *)
Lemma Vnormalize_vx (v n : Vector) :
  Vnormalize v = Ok n -> 0 < Vlength v /\ vx n == vx v / Vlength v.
Proof.
  unfold Vnormalize, Vdiv. destruct (Qeq_bool (Vlength v) 0) eqn:E; intros H; [discriminate H|].
  injection H as <-. apply Qeq_bool_false_iff in E. split.
  - pose proof (Vlength_nonneg v). apply Qle_lteq in H as [H|H]; [exact H|]. symmetry in H. contradiction.
  - cbn. rewrite Qmult_1_r. reflexivity.
Qed.

(** A normalized vector is at least a unit vector: the rounded length
    never exceeds the exact one. *)
Lemma Vnormalize_dot_ge (v n : Vector) : Vnormalize v = Ok n -> 1 <= Vdot n n.
Proof.
  intros Hn. destruct (Vtruthy v) eqn:T.
  2:{ destruct (Vnormalize v) eqn:E; [|discriminate].
      unfold Vnormalize, Vdiv in E. destruct (Qeq_bool _ 0) eqn:Z; [inversion E|].
      apply Qeq_bool_false_iff in Z. exfalso. apply Z.
      apply Vlength_zero_iff. exact T. }
  rewrite Vnormalize_Ok in Hn by exact T. inversion Hn; subst; clear Hn.
  unfold Vdot; simpl. set (L := Vlength v).
  assert (HL : 0 < L).
  { destruct (Qlt_le_dec 0 L) as [|Hle]; [assumption|].
    pose proof (Vlength_nonneg v) as H0. fold L in H0.
    assert (E : L == 0) by lra. unfold L in E.
    apply Vlength_zero_iff in E. congruence. }
  assert (Hsq : L * L <= vx v * vx v + vy v * vy v) by (apply Qsqrt_sq_le; nra).
  setoid_replace (vx v * 1 / L * (vx v * 1 / L) + vy v * 1 / L * (vy v * 1 / L))
    with ((vx v * vx v + vy v * vy v) / (L * L)) by (field; lra).
  apply Qle_shift_div_l; [nra| lra].
Qed.

(** About a normal of length 1 the formula is ppb_vector's reflection. *)
Lemma Vreflect_checked_unit (v n : Vector) :
  Vdot n n == 1 -> Vreflect_checked v n = Ok (Vreflect v n).
Proof.
  intros H. unfold Vreflect_checked, Vlength.
  change (vx n * vx n + vy n * vy n) with (Vdot n n). rewrite (Qsqrt_compat _ _ H). reflexivity.
Qed.

(** The axis directions are unit vectors. *)
Lemma directions_unit :
  Vdot directions.Up directions.Up == 1 /\ Vdot directions.Down directions.Down == 1 /\
  Vdot directions.Left directions.Left == 1 /\ Vdot directions.Right directions.Right == 1.
Proof. repeat split; reflexivity. Qed.

(** The normalized form of a non-zero horizontal vector is [(+-1, 0)]. *)
Lemma Vnormalize_horizontal (v : Vector) :
  vy v == 0 -> ~ vx v == 0 ->
  exists n, Vnormalize v = Ok n /\ n ==v mkVector (vx v / Qabs (vx v)) 0.
Proof.
  intros Hy Hx.
  assert (T : Vtruthy v = true).
  { destruct (Vtruthy v) eqn:E; [reflexivity|]. apply Vtruthy_false_iff in E. tauto. }
  eexists; split; [apply Vnormalize_Ok, T|].
  split; simpl; rewrite (Vlength_horizontal v Hy).
  - rewrite Qmult_1_r. reflexivity.
  - rewrite Hy. unfold Qdiv. ring.
Qed.

(** The sign [x / |x|] of a non-zero rational. *)
Lemma Qsign_cases (x : Q) :
  ~ x == 0 -> (0 < x /\ x / Qabs x == 1) \/ (x < 0 /\ x / Qabs x == -1).
Proof.
  intros Hx. destruct (Qlt_le_dec 0 x) as [H|H].
  - left. split; [exact H|]. rewrite Qabs_pos by lra. field. exact Hx.
  - right. assert (x < 0) by (apply Qle_lteq in H as [H|H]; [exact H | contradiction]).
    split; [assumption|]. rewrite Qabs_neg by lra. field. exact Hx.
Qed.
