(* ===== verification/Geometry.v ===== *)
(** * Extents of sprites and the axis-aligned collision test

    ppb gives every sprite a [position] (its centre) and a [width] and a
    [height]; its [top], [bottom], [left] and [right] sides are derived
    from them.  The class [Sized] is that interface: each entity of the
    program (ball, wall, paddle, brick) is an instance of it, and
    [collides] (the method [Ball.collides] of every variant from
    3.2-the-walls on) is stated once against the interface.

    [overlaps] is the abstract specification of an axis-aligned overlap
    (the centres are closer than the half-extents on both axes);
    [collides_spec] shows that the code's union-span formulation refines
    it for sprites of positive size. *)

From Stdlib Require Import QArith Qminmax Qabs Lqa ZArith Lia List Morphisms Setoid.
From S2P Require Import Prelude Vector.
Open Scope Q_scope.
Open Scope py_scope.

Class Sized (A : Type) : Type := {
  position : A -> Vector;
  width : A -> Q;
  height : A -> Q
}.

Section Sides.
Context {A : Type} `{Sized A}.

Definition sprite_top (a : A) : Q := vy (position a) + height a / 2.
Definition sprite_bottom (a : A) : Q := vy (position a) - height a / 2.
Definition sprite_left (a : A) : Q := vx (position a) - width a / 2.
Definition sprite_right (a : A) : Q := vx (position a) + width a / 2.

(** Sprites of the program have positive extents. *)
Definition wf_extent (a : A) : Prop := 0 < width a /\ 0 < height a.
End Sides.

(** [Ball.collides(self, other)]. *)
Definition collides {A B : Type} `{Sized A} `{Sized B} (self : A) (other : B) : bool :=
  let combined_width := width self + width other in
  let combined_height := height self + height other in
  let max_vertical := Qmax (sprite_top self) (sprite_top other)
                      - Qmin (sprite_bottom self) (sprite_bottom other) in
  let max_horizontal := Qmax (sprite_right self) (sprite_right other)
                        - Qmin (sprite_left self) (sprite_left other) in
  Qltb max_vertical combined_height && Qltb max_horizontal combined_width.

(** The abstract specification: the centres are closer than the sum of the
    half-extents along both axes. *)
Definition overlaps {A B : Type} `{Sized A} `{Sized B} (a : A) (b : B) : Prop :=
  2 * Qabs (vx (position a) - vx (position b)) < width a + width b /\
  2 * Qabs (vy (position a) - vy (position b)) < height a + height b.

(** A plain rectangle: ppb's [RectangleSprite] reduced to its extent. *)
Record Rect : Type := mkRect { rect_position : Vector; rect_width : Q; rect_height : Q }.

#[export] Instance Rect_Sized : Sized Rect :=
  { position := rect_position; width := rect_width; height := rect_height }.

(** ** One axis at a time *)

(** The span of the union of two intervals, given by centre and size. *)
Definition span (c1 s1 c2 s2 : Q) : Q :=
  Qmax (c1 + s1 / 2) (c2 + s2 / 2) - Qmin (c1 - s1 / 2) (c2 - s2 / 2).

Lemma span_ge_distance (c1 s1 c2 s2 : Q) :
  Qabs (c1 - c2) + (s1 + s2) / 2 <= span c1 s1 c2 s2.
Proof.
  unfold span. qdiv_const. apply Qabs_case; intros; qminmax; lra.
Qed.

(** For positive sizes the union is shorter than the sum of the sizes
    exactly when the intervals overlap. *)
Lemma span_lt_iff (c1 s1 c2 s2 : Q) :
  0 < s1 -> 0 < s2 -> (span c1 s1 c2 s2 < s1 + s2 <-> 2 * Qabs (c1 - c2) < s1 + s2).
Proof.
  intros H1 H2. unfold span. qdiv_const. apply Qabs_case; intros; qminmax; split; intros; lra.
Qed.

Lemma span_comm (c1 s1 c2 s2 : Q) : span c1 s1 c2 s2 == span c2 s2 c1 s1.
Proof. unfold span. rewrite Q.max_comm, Q.min_comm. reflexivity. Qed.

Lemma collides_span {A B : Type} `{Sized A} `{Sized B} (a : A) (b : B) :
  collides a b =
  Qltb (span (vy (position a)) (height a) (vy (position b)) (height b)) (height a + height b) &&
  Qltb (span (vx (position a)) (width a) (vx (position b)) (width b)) (width a + width b).
Proof. reflexivity. Qed.

#[export] Hint Resolve span_ge_distance : breakout.

(** ** The collision test *)

(** C3: [Ball.collides] is symmetric: swapping the two sprites never
    changes the answer. *)
Theorem collides_symmetric {A B : Type} `{Sized A} `{Sized B} (a : A) (b : B) :
  collides a b = collides b a.
Proof.
  rewrite !collides_span.
  rewrite (span_comm (vy (position a))), (span_comm (vx (position a))).
  rewrite (Qplus_comm (height a)), (Qplus_comm (width a)). reflexivity.
Qed.

(** C2: for sprites of positive size, [Ball.collides] holds exactly when
    the two boxes overlap: the centres are closer than the sum of the
    half-widths horizontally and the sum of the half-heights vertically. *)
Theorem collides_spec {A B : Type} `{Sized A} `{Sized B} (a : A) (b : B) :
  wf_extent a -> wf_extent b -> (collides a b = true <-> overlaps a b).
Proof.
  intros [Wa Ha] [Wb Hb]. rewrite collides_span, Bool.andb_true_iff, !Qltb_iff.
  unfold overlaps. rewrite !span_lt_iff by assumption. tauto.
Qed.

Lemma collides_spec_witness :
  wf_extent (mkRect (mkVector 0 0) 1 1) /\ wf_extent (mkRect (mkVector 0 (1#2)) 26 1) /\
  (collides (mkRect (mkVector 0 0) 1 1) (mkRect (mkVector 0 (1#2)) 26 1) = true <->
   overlaps (mkRect (mkVector 0 0) 1 1) (mkRect (mkVector 0 (1#2)) 26 1)).
Proof.
  split; [split; qcompute|]. split; [split; qcompute|].
  apply collides_spec; split; qcompute.
Defined.

(** Sprites at least their half-widths apart horizontally, or their
    half-heights apart vertically, do not collide. *)
Lemma collides_apart_x {A B : Type} `{Sized A} `{Sized B} (a : A) (b : B) :
  width a + width b <= 2 * Qabs (vx (position a) - vx (position b)) -> collides a b = false.
Proof.
  intros Hx. rewrite collides_span. apply Bool.andb_false_iff; right. apply Qltb_false_iff.
  pose proof (span_ge_distance (vx (position a)) (width a) (vx (position b)) (width b)).
  qdiv_const. lra.
Qed.

Lemma collides_apart_y {A B : Type} `{Sized A} `{Sized B} (a : A) (b : B) :
  height a + height b <= 2 * Qabs (vy (position a) - vy (position b)) -> collides a b = false.
Proof.
  intros Hy. rewrite collides_span. apply Bool.andb_false_iff; left. apply Qltb_false_iff.
  pose proof (span_ge_distance (vy (position a)) (height a) (vy (position b)) (height b)).
  qdiv_const. lra.
Qed.

(** Sprites closer than their half-extents on both axes collide. *)
Lemma collides_overlap {A B : Type} `{Sized A} `{Sized B} (a : A) (b : B) :
  0 < width a -> 0 < width b -> 0 < height a -> 0 < height b ->
  2 * Qabs (vx (position a) - vx (position b)) < width a + width b ->
  2 * Qabs (vy (position a) - vy (position b)) < height a + height b ->
  collides a b = true.
Proof.
  intros Wa Wb Ha Hb Hx Hy. rewrite collides_span, Bool.andb_true_iff, !Qltb_iff.
  rewrite !span_lt_iff by assumption. split; assumption.
Qed.

(** C4: two sprites separated along either axis by at least the sum of
    their half-extents never collide, whatever their sizes. *)
Theorem collides_separated {A B : Type} `{Sized A} `{Sized B} (a : A) (b : B) :
  width a + width b <= 2 * Qabs (vx (position a) - vx (position b)) \/
  height a + height b <= 2 * Qabs (vy (position a) - vy (position b)) ->
  collides a b = false.
Proof. intros [Hx | Hy]; [apply collides_apart_x, Hx | apply collides_apart_y, Hy]. Qed.

Lemma collides_separated_witness :
  (1 + 1 <= 2 * Qabs (vx (mkVector 0 0) - vx (mkVector 1 0)) \/
   1 + 1 <= 2 * Qabs (vy (mkVector 0 0) - vy (mkVector 1 0))) /\
  collides (mkRect (mkVector 0 0) 1 1) (mkRect (mkVector 1 0) 1 1) = false.
Proof.
  split; [left; qcompute|].
  apply collides_separated. left. qcompute.
Defined.
