(* ===== verification/Events.v ===== *)
(** * The ppb events the program handles and the signals it sends

    Scenes and sprites receive ppb's events through [on_<event>] methods
    and answer by calling [signal(...)].  [Signal] lists what the program
    sends: the three scene requests of ppb ([StartScene], [ReplaceScene],
    [StopScene], each naming a scene class) and the program's own
    [BrickStruck] event, which is targeted at one brick, named here by its
    object identity in the scene.  [Event] lists the inbound events:
    [Update] with its time delta, the key and mouse events, and
    [PreRender]. *)

From Stdlib Require Import QArith List.
From S2P Require Import Prelude Vector.

(** The scene classes of the program. *)
Inductive SceneKind : Type := TitleScreen | Game | EndScreen.

(** Object identities of the sprites of a scene. *)
Definition ObjId : Type := nat.

Inductive Signal : Type :=
| StartScene (k : SceneKind)
| ReplaceScene (k : SceneKind)
| StopScene
| BrickStruck (target : ObjId).

(** [ppb.keycodes]: the two keys the paddle reads, and every other key. *)
Module keycodes.
Inductive Key : Type := Left | Right | Other (code : nat).
End keycodes.

Inductive Event : Type :=
| Update (time_delta : Q)
| KeyPressed (key : keycodes.Key)
| KeyReleased (key : keycodes.Key)
| ButtonReleased
| MouseMotion (pos : Vector)
| PreRender
| Raised (s : Signal).

Definition SceneKind_eq_dec (a b : SceneKind) : {a = b} + {a <> b}.
Proof. decide equality. Defined.

Definition Signal_eq_dec (a b : Signal) : {a = b} + {a <> b}.
Proof. decide equality; first [apply SceneKind_eq_dec | apply PeanoNat.Nat.eq_dec]. Defined.
