(* ===== verification/Brick.v ===== *)
(** * Bricks and their damage state machine (3.4-the-blocks)

    [class Brick(ppb.RectangleSprite)] of src/3.4-the-blocks/bricks.py: a
    2 x 1 rectangle with a hit counter [hits] (class attribute 3) and an
    [image] chosen from [colors] by [hits - 1].  [on_brick_struck]
    decrements the counter and removes the brick from its scene when the
    counter reaches zero; [on_pre_render] recomputes the image.

    A brick in a scene is [Some b]; a brick removed from its scene is
    [None].  The invariant [brick_inv] ([0 < hits <= 3]) holds of every
    brick in a scene; the theorems show that a fresh brick is removed
    after exactly three strikes and that rendering never indexes
    [colors] out of its intended range while the brick is alive. *)

From Stdlib Require Import QArith ZArith Lia List.
From S2P Require Import Prelude Vector Geometry Events.
Import ListNotations.
Open Scope py_scope.

Definition Color : Type := (Z * Z * Z)%type.

(** [Brick.colors]: the images by [hits - 1]. *)
Definition Brick_colors : list Color := [(200, 20, 20); (50, 150, 70); (10, 10, 100)]%Z.

(** [Brick.hits], the class attribute every new brick starts with. *)
Definition Brick_max_hits : Z := 3.

Record Brick : Type := mkBrick {
  brick_position : Vector;
  hits : Z;
  image : Color
}.

(** [Brick.width = 2]; the height is [RectangleSprite]'s default 1. *)
#[export] Instance Brick_Sized : Sized Brick :=
  { position := brick_position; width := fun _ => 2%Q; height := fun _ => 1%Q }.

(** [Brick(position=p)]: the class attributes [hits = 3] and
    [image = colors[hits - 1]]. *)
Definition Brick_new (p : Vector) : Brick :=
  mkBrick p Brick_max_hits (10, 10, 100)%Z.

(** [Brick.on_brick_struck]: [self.hits -= 1], then
    [event.scene.remove(self)] when [self.hits <= 0].  The result is the
    brick as it stays in the scene, or [None] once it is removed. *)
Definition Brick_on_brick_struck (self : Brick) : option Brick :=
  let self' := mkBrick (brick_position self) (hits self - 1) (image self) in
  if (hits self' <=? 0)%Z then None else Some self'.

(** [Brick.on_pre_render]: [self.image = self.colors[self.hits - 1]]. *)
Definition Brick_on_pre_render (self : Brick) : result Brick :=
  img <- py_index Brick_colors (hits self - 1) ;;
  Ok (mkBrick (brick_position self) (hits self) img).

(** A brick that is still in its scene. *)
Definition brick_inv (b : Brick) : Prop := (0 < hits b <= Brick_max_hits)%Z.

(** [BrickStruck] delivered [n] times to a brick; once the brick has left
    the scene no handler runs. *)
Fixpoint strike_n (n : nat) (ob : option Brick) : option Brick :=
  match n with
  | O => ob
  | S n' =>
      match ob with
      | Some b => strike_n n' (Brick_on_brick_struck b)
      | None => None
      end
  end.

(** The transitions of the damage state machine. *)
Inductive brick_step : option Brick -> option Brick -> Prop :=
| brick_step_struck (b : Brick) : brick_step (Some b) (Brick_on_brick_struck b)
| brick_step_render (b b' : Brick) : Brick_on_pre_render b = Ok b' -> brick_step (Some b) (Some b').

Inductive brick_reachable : option Brick -> Prop :=
| brick_reach_new (p : Vector) : brick_reachable (Some (Brick_new p))
| brick_reach_step (o o' : option Brick) : brick_reachable o -> brick_step o o' -> brick_reachable o'.

(** ** Properties of the damage state machine *)

Lemma Brick_on_brick_struck_spec (b : Brick) :
  Brick_on_brick_struck b =
  if (hits b <=? 1)%Z then None
  else Some (mkBrick (brick_position b) (hits b - 1) (image b)).
Proof.
  unfold Brick_on_brick_struck; simpl.
  destruct (Z.leb_spec (hits b - 1) 0), (Z.leb_spec (hits b) 1); try reflexivity; lia.
Qed.

(** C7: a strike removes a live brick exactly when it has one hit left;
    otherwise the brick stays where it is, one hit poorer, and still
    satisfies the invariant. *)
Theorem Brick_on_brick_struck_inv (b : Brick) :
  brick_inv b ->
  match Brick_on_brick_struck b with
  | Some b' => brick_inv b' /\ hits b' = (hits b - 1)%Z /\ brick_position b' = brick_position b
  | None => hits b = 1%Z
  end.
Proof.
  unfold brick_inv, Brick_max_hits. intros Hb. rewrite Brick_on_brick_struck_spec.
  destruct (Z.leb_spec (hits b) 1); simpl; repeat split; lia.
Qed.

Lemma Brick_on_brick_struck_inv_witness :
  brick_inv (Brick_new Vzero) /\
  Brick_on_brick_struck (Brick_new Vzero) = Some (mkBrick Vzero 2 (10, 10, 100)%Z).
Proof.
  split.
  - pose proof (Brick_on_brick_struck_inv (Brick_new Vzero)) as H.
    unfold brick_inv, Brick_new, Brick_max_hits; simpl; lia.
  - reflexivity.
Defined.

Lemma strike_n_None (n : nat) : strike_n n None = None.
Proof. destruct n; reflexivity. Qed.

Lemma strike_n_live (n : nat) (p : Vector) (h : Z) (img : Color) :
  (0 < h)%Z ->
  strike_n n (Some (mkBrick p h img)) =
  if (Z.of_nat n <? h)%Z then Some (mkBrick p (h - Z.of_nat n) img) else None.
Proof.
  revert h. induction n as [|n IH]; intros h Hh.
  - simpl. destruct (Z.ltb_spec 0 h); [rewrite Z.sub_0_r; reflexivity | lia].
  - cbn [strike_n]. rewrite Brick_on_brick_struck_spec. cbn [hits brick_position image].
    destruct (Z.leb_spec h 1).
    + rewrite strike_n_None. destruct (Z.ltb_spec (Z.of_nat (S n)) h); [lia | reflexivity].
    + rewrite IH by lia.
      destruct (Z.ltb_spec (Z.of_nat n) (h - 1)), (Z.ltb_spec (Z.of_nat (S n)) h);
        try lia; try reflexivity.
      do 2 f_equal. lia.
Qed.

(** C6: a new brick is removed by exactly [Brick.hits = 3] strikes: after
    [n < 3] strikes it is still in the scene with [3 - n] hits left, and
    after three it is gone; strikes after removal change nothing. *)
Theorem strike_n_new (p : Vector) (n : nat) :
  strike_n n (Some (Brick_new p)) =
  if (n <? 3)%nat then Some (mkBrick p (3 - Z.of_nat n) (10, 10, 100)%Z) else None.
Proof.
  unfold Brick_new. rewrite strike_n_live by (unfold Brick_max_hits; lia).
  unfold Brick_max_hits.
  destruct (Z.ltb_spec (Z.of_nat n) 3), (Nat.ltb_spec n 3); try reflexivity; lia.
Qed.

(** Rendering a live brick picks [colors[hits - 1]] inside the list. *)
Lemma Brick_on_pre_render_live (b : Brick) :
  brick_inv b ->
  exists c, nth_error Brick_colors (Z.to_nat (hits b - 1)) = Some c /\
            Brick_on_pre_render b = Ok (mkBrick (brick_position b) (hits b) c).
Proof.
  unfold brick_inv, Brick_max_hits, Brick_on_pre_render, py_index. intros Hb.
  assert (Hr : (hits b = 1 \/ hits b = 2 \/ hits b = 3)%Z) by lia.
  destruct Hr as [E | [E | E]]; rewrite E; simpl; eexists; split; reflexivity.
Qed.

(** C8: every brick reachable from [Brick(position=p)] by strikes and
    renders keeps [0 < hits <= 3] while it is in the scene, so its image is
    always one of the three colours. *)
Theorem brick_reachable_inv (ob : option Brick) :
  brick_reachable ob ->
  match ob with Some b => brick_inv b /\ is_ok (Brick_on_pre_render b) = true | None => True end.
Proof.
  induction 1 as [p | o o' _ IH Hstep].
  - split; [unfold brick_inv, Brick_new, Brick_max_hits; simpl; lia | reflexivity].
  - destruct Hstep as [b | b b' Hr]; destruct IH as [Hinv _].
    + rewrite Brick_on_brick_struck_spec. destruct (hits b <=? 1)%Z eqn:E; [exact I|].
      apply Z.leb_gt in E.
      assert (Hi : brick_inv (mkBrick (brick_position b) (hits b - 1) (image b)))
        by (unfold brick_inv in *; cbn [hits]; lia).
      split; [exact Hi|]. destruct (Brick_on_pre_render_live _ Hi) as [c [_ ->]]. reflexivity.
    + destruct (Brick_on_pre_render_live b Hinv) as [c [_ Hc]].
      rewrite Hc in Hr. inversion Hr; subst.
      split; [exact Hinv|].
      destruct (Brick_on_pre_render_live _ Hinv) as [c' [_ Hc']].
      unfold Brick_on_pre_render in *. simpl in *. 
      destruct (py_index Brick_colors (hits b - 1)); [reflexivity | discriminate].
Qed.

Lemma brick_reachable_inv_witness :
  brick_reachable (Brick_on_brick_struck (Brick_new Vzero)) /\
  match Brick_on_brick_struck (Brick_new Vzero) with
  | Some b => brick_inv b /\ is_ok (Brick_on_pre_render b) = true | None => True end.
Proof.
  assert (R : brick_reachable (Brick_on_brick_struck (Brick_new Vzero))).
  { eapply brick_reach_step; [apply brick_reach_new | constructor]. }
  split; [exact R | apply brick_reachable_inv; exact R].
Defined.

Lemma py_index_colors (i : Z) :
  ((-3 <= i < 3)%Z /\ exists c, py_index Brick_colors i = Ok c) \/
  (~ (-3 <= i < 3)%Z /\ py_index Brick_colors i = Err IndexError).
Proof.
  destruct (Z_lt_le_dec i (-3)) as [Hlo|Hlo]; [|destruct (Z_lt_le_dec i 3) as [Hhi|Hhi]];
    [right | left | right]; (split; [lia|]).
  2:{ assert (E : (i = -3 \/ i = -2 \/ i = -1 \/ i = 0 \/ i = 1 \/ i = 2)%Z) by lia.
      destruct E as [-> | [-> | [-> | [-> | [-> | ->]]]]]; eexists; reflexivity. }
  all: unfold py_index, Brick_colors; cbn -[Z.leb Z.ltb];
    destruct (Z.leb_spec 0 i), (Z.ltb_spec i 3), (Z.leb_spec (-3) i), (Z.ltb_spec i 0);
    cbn [andb]; reflexivity || lia.
Qed.

(** C31: [Brick.on_pre_render] reads [self.colors[self.hits - 1]] with
    Python's indexing of a list of three colours: it succeeds exactly when
    [-2 <= hits <= 3] (hits of 0, -1 and -2 wrap around to the end of the
    list, so a brick with no hits left would show the full-strength
    colour), and otherwise raises [IndexError]. *)
Theorem Brick_on_pre_render_index (b : Brick) :
  (is_ok (Brick_on_pre_render b) = true <-> (-2 <= hits b <= 3)%Z) /\
  (forall e, Brick_on_pre_render b = Err e -> e = IndexError).
Proof.
  unfold Brick_on_pre_render.
  destruct (py_index_colors (hits b - 1)) as [[Hr [c ->]] | [Hr ->]]; cbn [bind is_ok].
  - split; [split; [intros _; lia | reflexivity] | discriminate].
  - split; [split; [discriminate | lia] | intros e E; inversion E; reflexivity].
Qed.
