(* ===== verification/Paddle.v ===== *)
(** * The paddle and its two control schemes (3.3-the-paddle, 3.4-the-blocks)

    [class Paddle(ppb.RectangleSprite)] of src/3.4-the-blocks/bricks.py
    (identical code in src/3.3-the-paddle/paddle.py, with [height = 0.5]
    and [speed = 7] instead of [1] and [10]).  Its state is the position,
    the class attributes [width], [height] and [speed], the control scheme
    ([None], ["keyboard"] or ["mouse"]), the two direction flags and the
    mouse target [mouse_vector] ([None] until the first mouse motion).
    The handlers are [on_update], [on_key_pressed], [on_key_released] and
    [on_mouse_motion].

    [paddle_inv] says the mouse scheme is only ever active with a target
    at the paddle's own height; every handler preserves it, and under it
    [on_update] never raises, keeps the paddle on its row, and moves it
    toward the target without overshooting. *)

From Stdlib Require Import QArith Qminmax Qabs Lqa ZArith Lia List Morphisms Setoid.
From S2P Require Import Prelude Vector Geometry Events.
Import ListNotations.
Open Scope Q_scope.
Open Scope py_scope.

(** [Paddle.MOUSE_CONTROLS] and [Paddle.KEYBOARD_CONTROLS]. *)
Inductive ControlScheme : Type := MOUSE_CONTROLS | KEYBOARD_CONTROLS.

Definition scheme_eqb (a b : option ControlScheme) : bool :=
  match a, b with
  | Some MOUSE_CONTROLS, Some MOUSE_CONTROLS => true
  | Some KEYBOARD_CONTROLS, Some KEYBOARD_CONTROLS => true
  | None, None => true
  | _, _ => false
  end.

Record Paddle : Type := mkPaddle {
  paddle_position : Vector;
  paddle_width : Q;
  paddle_height : Q;
  speed : Q;
  control_scheme : option ControlScheme;
  control_left : bool;
  control_right : bool;
  mouse_vector : option Vector
}.

(** [Paddle(position=p)] in 3.4-the-blocks: [width = 3], [height = 1],
    [speed = 10], no control scheme, no flags, no mouse target. *)
Definition Paddle_new (p : Vector) : Paddle :=
  mkPaddle p 3 1 10 None false false None.

(** [Paddle(position=p)] in 3.3-the-paddle: [height = 0.5], [speed = 7]. *)
Definition Paddle_new_v33 (p : Vector) : Paddle :=
  mkPaddle p 3 (1 # 2) 7 None false false None.

Definition with_position (self : Paddle) (p : Vector) : Paddle :=
  mkPaddle p (paddle_width self) (paddle_height self) (speed self) (control_scheme self)
           (control_left self) (control_right self) (mouse_vector self).

(** The keyboard branch of [Paddle.on_update]. *)
Definition keyboard_movement (self : Paddle) : Vector :=
  let movement_vector := mkVector 0 0 in
  let movement_vector :=
    if control_right self then movement_vector +v directions.Right else movement_vector in
  if control_left self then movement_vector +v directions.Left else movement_vector.

Definition keyboard_update (self : Paddle) (time_delta : Q) : result Paddle :=
  let movement_vector := keyboard_movement self in
  if Vtruthy movement_vector then
    n <- Vnormalize movement_vector ;;
    Ok (with_position self (paddle_position self +v n *v speed self *v time_delta))
  else Ok self.

(** The mouse branch of [Paddle.on_update]; [self.mouse_vector - ...]
    raises [TypeError] while the target is still [None]. *)
Definition mouse_update (self : Paddle) (time_delta : Q) : result Paddle :=
  match mouse_vector self with
  | None => Err TypeError
  | Some mv =>
      let to_position := mv -v paddle_position self in
      if Vtruthy to_position then
        n <- Vnormalize to_position ;;
        let movement_delta := n *v speed self *v time_delta in
        let movement_delta :=
          if Qltb (Vlength to_position) (Vlength movement_delta) then to_position
          else movement_delta in
        Ok (with_position self (paddle_position self +v movement_delta))
      else Ok self
  end.

(** [Paddle.on_update]: the two [if]s on the control scheme in turn. *)
Definition Paddle_on_update (self : Paddle) (time_delta : Q) : result Paddle :=
  self <- (if scheme_eqb (control_scheme self) (Some KEYBOARD_CONTROLS)
           then keyboard_update self time_delta else Ok self) ;;
  if scheme_eqb (control_scheme self) (Some MOUSE_CONTROLS)
  then mouse_update self time_delta else Ok self.

(** [Paddle.on_key_pressed]: a direction key sets its flag and selects
    the keyboard. *)
Definition Paddle_on_key_pressed (self : Paddle) (key : keycodes.Key) : Paddle :=
  match key with
  | keycodes.Left =>
      mkPaddle (paddle_position self) (paddle_width self) (paddle_height self) (speed self)
               (Some KEYBOARD_CONTROLS) true (control_right self) (mouse_vector self)
  | keycodes.Right =>
      mkPaddle (paddle_position self) (paddle_width self) (paddle_height self) (speed self)
               (Some KEYBOARD_CONTROLS) (control_left self) true (mouse_vector self)
  | keycodes.Other _ => self
  end.

(** [Paddle.on_key_released]: a direction key clears its flag only. *)
Definition Paddle_on_key_released (self : Paddle) (key : keycodes.Key) : Paddle :=
  match key with
  | keycodes.Left =>
      mkPaddle (paddle_position self) (paddle_width self) (paddle_height self) (speed self)
               (control_scheme self) false (control_right self) (mouse_vector self)
  | keycodes.Right =>
      mkPaddle (paddle_position self) (paddle_width self) (paddle_height self) (speed self)
               (control_scheme self) (control_left self) false (mouse_vector self)
  | keycodes.Other _ => self
  end.

(** [Paddle.on_mouse_motion]: the target is the pointer's [x] at the
    paddle's own [y], and the mouse takes over. *)
Definition Paddle_on_mouse_motion (self : Paddle) (pos : Vector) : Paddle :=
  mkPaddle (paddle_position self) (paddle_width self) (paddle_height self) (speed self)
           (Some MOUSE_CONTROLS) (control_left self) (control_right self)
           (Some (mkVector (vx pos) (vy (paddle_position self)))).

(** The paddle's [on_update] on the [Update] event of [n] consecutive
    frames with the same time step, the player doing nothing else. *)
Fixpoint paddle_updates (n : nat) (p : Paddle) (time_delta : Q) : result Paddle :=
  match n with
  | O => Ok p
  | S n' => p' <- Paddle_on_update p time_delta ;; paddle_updates n' p' time_delta
  end.

(** The paddle's well-formedness: a non-negative speed, and the mouse scheme
    only with a target on the paddle's row. *)
Definition paddle_inv (p : Paddle) : Prop :=
  0 <= speed p /\
  (control_scheme p = Some MOUSE_CONTROLS ->
   exists m, mouse_vector p = Some m /\ vy m == vy (paddle_position p)).

(** The abstract specification of one mouse-controlled tick on the
    paddle's row: reach the target if it is within [step], otherwise move
    [step] toward it. *)
Definition mouse_spec_x (px mx step : Q) : Q :=
  if Qle_bool (Qabs (mx - px)) step then mx
  else px + (mx - px) / Qabs (mx - px) * step.

(** The direction the flags select: [+1] right, [-1] left, [0] for both
    or neither. *)
Definition kdir (p : Paddle) : Q :=
  (if control_right p then 1 else 0) + (if control_left p then -1 else 0).

(** The events a paddle receives. *)
Inductive paddle_step : Paddle -> Paddle -> Prop :=
| paddle_step_update (p p' : Paddle) (time_delta : Q) :
    0 <= time_delta -> Paddle_on_update p time_delta = Ok p' -> paddle_step p p'
| paddle_step_key_pressed (p : Paddle) (k : keycodes.Key) :
    paddle_step p (Paddle_on_key_pressed p k)
| paddle_step_key_released (p : Paddle) (k : keycodes.Key) :
    paddle_step p (Paddle_on_key_released p k)
| paddle_step_mouse_motion (p : Paddle) (pos : Vector) :
    paddle_step p (Paddle_on_mouse_motion p pos).

Inductive paddle_reachable (p0 : Paddle) : Paddle -> Prop :=
| paddle_reach_init : paddle_reachable p0 p0
| paddle_reach_step (p p' : Paddle) : paddle_reachable p0 p -> paddle_step p p' -> paddle_reachable p0 p'.

Lemma scheme_eqb_eq (a b : option ControlScheme) : scheme_eqb a b = true <-> a = b.
Proof. destruct a as [[]|], b as [[]|]; simpl; split; congruence. Qed.

#[export] Instance Paddle_Sized : Sized Paddle :=
  { position := paddle_position; width := paddle_width; height := paddle_height }.

(** ** The mouse scheme refines "step toward the target, snap when in reach" *)

Section MouseStep.
Variables (p : Paddle) (time_delta : Q) (m : Vector).
Hypothesis Hm : mouse_vector p = Some m.
Hypothesis Hrow : vy m == vy (paddle_position p).
Hypothesis Hspeed : 0 <= speed p.
Hypothesis Hdt : 0 <= time_delta.

Let dx := vx m - vx (paddle_position p).
Let to_position := m -v paddle_position p.

Lemma to_position_row : vy to_position == 0.
Proof. unfold to_position; simpl. rewrite Hrow. ring. Qed.

Lemma mouse_update_still :
  dx == 0 -> mouse_update p time_delta = Ok p.
Proof.
  intros H0. unfold mouse_update. rewrite Hm. fold to_position.
  replace (Vtruthy to_position) with false; [reflexivity|].
  symmetry. apply Vtruthy_false_iff. split; [exact H0 | apply to_position_row].
Qed.

Lemma mouse_update_moves :
  ~ dx == 0 ->
  exists p', mouse_update p time_delta = Ok p' /\
    p' = with_position p (paddle_position p') /\
    vx (paddle_position p') == mouse_spec_x (vx (paddle_position p)) (vx m) (speed p * time_delta) /\
    vy (paddle_position p') == vy (paddle_position p).
Proof.
  intros Hx. unfold mouse_update. rewrite Hm. fold to_position.
  destruct (Vnormalize_horizontal to_position to_position_row Hx) as [n [Hn Hnv]].
  change (vx to_position) with dx in Hnv.
  assert (T : Vtruthy to_position = true).
  { destruct (Vtruthy to_position) eqn:E; [reflexivity|].
    apply Vtruthy_false_iff in E. destruct E; contradiction. }
  rewrite T, Hn. cbn [bind].
  assert (Hs : Qabs (dx / Qabs dx) == 1).
  { destruct (Qsign_cases _ Hx) as [[_ E] | [_ E]]; rewrite E; reflexivity. }
  assert (Lmd : Vlength (n *v speed p *v time_delta) == speed p * time_delta).
  { rewrite Hnv, Vlength_horizontal by (cbn [vx vy Vscale]; ring). cbn [vx vy Vscale].
    rewrite !Qabs_Qmult, Hs, (Qabs_pos (speed p)), (Qabs_pos time_delta) by assumption. ring. }
  assert (Lto : Vlength to_position == Qabs dx) by (apply Vlength_horizontal, to_position_row).
  destruct (Qltb (Vlength to_position) (Vlength (n *v speed p *v time_delta))) eqn:C;
    rewrite Lmd, Lto in C; unfold mouse_spec_x; fold dx; eexists; (split; [reflexivity|]);
    (split; [reflexivity|]); cbn [paddle_position with_position Vadd Vsub Vscale vx vy]; qbool.
  - rewrite (proj2 (Qle_bool_iff _ _)) by lra. unfold to_position; cbn [Vsub vx vy].
    split; [|rewrite Hrow]; ring.
  - destruct Hnv as [Hnx Hny]. rewrite Hnx, Hny. cbn [vx vy].
    destruct (Qle_bool (Qabs dx) (speed p * time_delta)) eqn:D; qbool.
    + apply Qle_bool_iff in D.
      assert (E : Qabs dx == speed p * time_delta) by lra.
      assert (Ha : ~ Qabs dx == 0) by (rewrite Qabs_zero_iff; exact Hx).
      split; [|ring].
      transitivity (vx (paddle_position p) + dx / Qabs dx * Qabs dx); [rewrite E; ring|].
      unfold dx in *. field. exact Ha.
    + split; ring.
Qed.
End MouseStep.

(** The distance left to the target after one abstract step. *)
Lemma mouse_spec_distance (px mx step : Q) :
  0 <= step -> Qabs (mx - mouse_spec_x px mx step) == Qmax 0 (Qabs (mx - px) - step).
Proof.
  intros Hs. unfold mouse_spec_x.
  destruct (Qle_bool (Qabs (mx - px)) step) eqn:D.
  - apply Qle_bool_iff in D. rewrite Q.max_l by lra.
    setoid_replace (mx - mx) with 0 by ring. reflexivity.
  - assert (Hlt : step < Qabs (mx - px)).
    { apply Qnot_le_lt. intros H. apply Qle_bool_iff in H. congruence. }
    rewrite Q.max_r by lra.
    assert (Hx : ~ mx - px == 0) by (intros E; rewrite E in Hlt; simpl in Hlt; lra).
    destruct (Qsign_cases _ Hx) as [[P S] | [P S]]; rewrite S.
    + rewrite (Qabs_pos (mx - px)) in Hlt |- * by lra. rewrite Qabs_pos by lra. ring.
    + rewrite (Qabs_neg (mx - px)) in Hlt |- * by lra. rewrite Qabs_neg by lra. ring.
Qed.

(** ** The keyboard scheme *)

Lemma keyboard_update_spec (p : Paddle) (time_delta : Q) :
  exists q, keyboard_update p time_delta = Ok (with_position p q) /\
            q ==v paddle_position p +v mkVector (kdir p * speed p * time_delta) 0.
Proof.
  destruct p as [pos w h s cs l r mv]. unfold keyboard_update, keyboard_movement, kdir.
  cbn [control_left control_right paddle_position speed].
  destruct l, r; cbv iota beta;
    repeat match goal with
    | |- context [Vtruthy ?v] => let b := eval vm_compute in (Vtruthy v) in change (Vtruthy v) with b
    | |- context [Vnormalize ?v] => let r := eval vm_compute in (Vnormalize v) in change (Vnormalize v) with r
    end; cbv iota beta; cbn [bind]; eexists; (split; [reflexivity|]);
    split; cbn [vx vy Vadd Vscale paddle_position]; ring.
Qed.

(** ** Invariant and safety of the paddle's handlers *)

Lemma with_position_fields (p : Paddle) (q : Vector) :
  control_scheme (with_position p q) = control_scheme p /\
  mouse_vector (with_position p q) = mouse_vector p /\ speed (with_position p q) = speed p.
Proof. repeat split. Qed.

(** One [Update] of the paddle returns, and only moves the paddle along
    its row. *)
Lemma Paddle_on_update_row (p : Paddle) (time_delta : Q) :
  paddle_inv p -> 0 <= time_delta ->
  exists p', Paddle_on_update p time_delta = Ok p' /\
    p' = with_position p (paddle_position p') /\
    vy (paddle_position p') == vy (paddle_position p).
Proof.
  intros [Hs Hinv] Hdt. unfold Paddle_on_update.
  destruct (control_scheme p) as [[]|] eqn:Cs; cbn [scheme_eqb bind]; rewrite ?Cs; cbn [scheme_eqb].
  - destruct (Hinv eq_refl) as [m [Hm Hrow]].
    destruct (Qeq_dec (vx m - vx (paddle_position p)) 0) as [E|E].
    + exists p. rewrite (mouse_update_still p time_delta m Hm Hrow E).
      split; [reflexivity|]. split; [destruct p; reflexivity | reflexivity].
    + destruct (mouse_update_moves p time_delta m Hm Hrow Hs Hdt E) as [p' [H1 [H2 [_ H4]]]].
      exists p'. auto.
  - destruct (keyboard_update_spec p time_delta) as [q [Hk Hq]]. rewrite Hk. cbn [bind].
    cbn [with_position control_scheme]. rewrite Cs. cbn [scheme_eqb].
    exists (with_position p q). repeat split. cbn [with_position paddle_position].
    rewrite Hq. cbn [Vadd vy]. ring.
  - exists p. split; [reflexivity|]. split; [destruct p; reflexivity | reflexivity].
Qed.

(** Every handler preserves the invariant and the paddle's row. *)
Lemma paddle_step_inv (p p' : Paddle) :
  paddle_inv p -> paddle_step p p' ->
  paddle_inv p' /\ vy (paddle_position p') == vy (paddle_position p).
Proof.
  intros Hp Hstep. destruct Hstep as [p p' dt Hdt Hu | p k | p k | p pos].
  - destruct (Paddle_on_update_row p dt Hp Hdt) as [p'' [Hu' [Hw Hy]]].
    rewrite Hu in Hu'. inversion Hu'; subst p''. split; [|exact Hy].
    destruct Hp as [Hs Hinv]. rewrite Hw. split; [exact Hs|]. simpl. intros Hc.
    destruct (Hinv Hc) as [m [Hm Hrow]]. exists m. split; [exact Hm|].
    rewrite Hrow. rewrite Hw in Hy. symmetry. exact Hy.
  - destruct Hp as [Hs Hinv]. destruct k; simpl; (split; [split; [exact Hs|] | reflexivity]);
      try discriminate; exact Hinv.
  - destruct Hp as [Hs Hinv]. destruct k; simpl; (split; [split; [exact Hs|] | reflexivity]);
      exact Hinv.
  - destruct Hp as [Hs _]. simpl. split; [split; [exact Hs|] | reflexivity].
    intros _. eexists; split; reflexivity.
Qed.

(** ** Properties of the paddle *)

(** C10: from [Paddle(position=q)], whatever keys, releases, mouse motions
    and updates (with non-negative time deltas) the paddle receives, it
    keeps its invariant, never leaves its row, and its [on_update] never
    raises (no [TypeError] from a missing mouse target, no
    [ZeroDivisionError] from normalizing a zero movement). *)
Theorem paddle_reachable_safe (q : Vector) (p : Paddle) :
  paddle_reachable (Paddle_new q) p ->
  paddle_inv p /\ vy (paddle_position p) == vy q /\
  (forall time_delta, 0 <= time_delta -> is_ok (Paddle_on_update p time_delta) = true).
Proof.
  intros R.
  assert (H : paddle_inv p /\ vy (paddle_position p) == vy q).
  { induction R as [|p p' R IH Hstep].
    - split; [split; [unfold Paddle_new; simpl; qcompute | discriminate] | reflexivity].
    - destruct IH as [Hinv Hy]. destruct (paddle_step_inv p p' Hinv Hstep) as [Hinv' Hy'].
      split; [exact Hinv'|]. rewrite Hy'. exact Hy. }
  destruct H as [Hinv Hy]. split; [exact Hinv|]. split; [exact Hy|].
  intros dt Hdt. destruct (Paddle_on_update_row p dt Hinv Hdt) as [p' [-> _]]. reflexivity.
Qed.

Lemma paddle_reachable_safe_witness :
  paddle_reachable (Paddle_new (mkVector 0 (-14)))
    (Paddle_on_mouse_motion (Paddle_new (mkVector 0 (-14))) (mkVector 5 3)) /\
  paddle_inv (Paddle_on_mouse_motion (Paddle_new (mkVector 0 (-14))) (mkVector 5 3)).
Proof.
  assert (R : paddle_reachable (Paddle_new (mkVector 0 (-14)))
                (Paddle_on_mouse_motion (Paddle_new (mkVector 0 (-14))) (mkVector 5 3))).
  { eapply paddle_reach_step; [apply paddle_reach_init | apply paddle_step_mouse_motion]. }
  split; [exact R|]. apply (paddle_reachable_safe (mkVector 0 (-14))). exact R.
Defined.

(** One update under the mouse scheme: the paddle keeps everything but its
    position, stays on its row, and its distance to the pointer shrinks by
    [speed * time_delta] down to zero. *)
Lemma mouse_step (p : Paddle) (time_delta : Q) (m : Vector) :
  paddle_inv p -> control_scheme p = Some MOUSE_CONTROLS -> mouse_vector p = Some m ->
  0 <= time_delta ->
  exists p', Paddle_on_update p time_delta = Ok p' /\
    p' = with_position p (paddle_position p') /\
    Qabs (vx m - vx (paddle_position p')) ==
    Qmax 0 (Qabs (vx m - vx (paddle_position p)) - speed p * time_delta) /\
    vy (paddle_position p') == vy (paddle_position p).
Proof.
  intros [Hs Hinv] Cs Hm Hdt. destruct (Hinv Cs) as [m' [Hm' Hrow]].
  rewrite Hm in Hm'. inversion Hm'; subst m'.
  assert (Hstep : 0 <= speed p * time_delta) by (apply Qmult_le_0_compat; assumption).
  unfold Paddle_on_update. rewrite Cs. cbn [scheme_eqb bind]. rewrite Cs. cbn [scheme_eqb].
  destruct (Qeq_dec (vx m - vx (paddle_position p)) 0) as [E|E].
  - exists p. rewrite (mouse_update_still p time_delta m Hm Hrow E). split; [reflexivity|].
    split; [destruct p; reflexivity|]. split; [|reflexivity].
    rewrite E. simpl. rewrite Q.max_l by lra. reflexivity.
  - destruct (mouse_update_moves p time_delta m Hm Hrow Hs Hdt E) as [p' [H1 [H2 [H3 H4]]]].
    exists p'. split; [exact H1|]. split; [exact H2|]. split; [|exact H4].
    rewrite H3. apply mouse_spec_distance. exact Hstep.
Qed.

(** C9: under the mouse scheme the paddle never overshoots its target: one
    update leaves it [max(0, d - speed * time_delta)] from the target,
    where [d] is the distance before the update. *)
Theorem Paddle_on_update_mouse (p : Paddle) (time_delta : Q) (m : Vector) :
  paddle_inv p -> control_scheme p = Some MOUSE_CONTROLS -> mouse_vector p = Some m ->
  0 <= time_delta ->
  exists p', Paddle_on_update p time_delta = Ok p' /\
    Qabs (vx m - vx (paddle_position p')) ==
    Qmax 0 (Qabs (vx m - vx (paddle_position p)) - speed p * time_delta).
Proof.
  intros Hp Cs Hm Hdt. destruct (mouse_step p time_delta m Hp Cs Hm Hdt) as [p' [H1 [_ [H3 _]]]].
  exists p'. split; assumption.
Qed.

Lemma Paddle_on_update_mouse_witness :
  let p := Paddle_on_mouse_motion (Paddle_new (mkVector 0 (-14))) (mkVector 5 3) in
  paddle_inv p /\ control_scheme p = Some MOUSE_CONTROLS /\
  mouse_vector p = Some (mkVector 5 (-14)) /\ 0 <= (1 # 10) /\
  exists p', Paddle_on_update p (1 # 10) = Ok p' /\
    Qabs (vx (mkVector 5 (-14)) - vx (paddle_position p')) ==
    Qmax 0 (Qabs (vx (mkVector 5 (-14)) - vx (paddle_position p)) - speed p * (1 # 10)).
Proof.
  intros p.
  assert (I : paddle_inv p) by (split; [qcompute | intros _; eexists; split; reflexivity]).
  split; [exact I|]. split; [reflexivity|]. split; [reflexivity|]. split; [qcompute|].
  apply Paddle_on_update_mouse; [exact I | reflexivity | reflexivity | qcompute].
Defined.

(** C11: under the keyboard scheme one update moves the paddle by
    [speed * time_delta] to the right when only the right key is held, to
    the left when only the left key is held, and not at all when both or
    neither are held. *)
Theorem Paddle_on_update_keyboard (p : Paddle) (time_delta : Q) :
  control_scheme p = Some KEYBOARD_CONTROLS ->
  exists p', Paddle_on_update p time_delta = Ok p' /\
    paddle_position p' ==v paddle_position p +v mkVector (kdir p * speed p * time_delta) 0.
Proof.
  intros Cs. unfold Paddle_on_update. rewrite Cs. cbn [scheme_eqb].
  destruct (keyboard_update_spec p time_delta) as [q [Hk Hq]]. rewrite Hk. cbn [bind].
  cbn [with_position control_scheme]. rewrite Cs. cbn [scheme_eqb].
  exists (with_position p q). split; [reflexivity | exact Hq].
Qed.

Lemma Paddle_on_update_keyboard_witness :
  let p := Paddle_on_key_pressed (Paddle_on_key_pressed (Paddle_new (mkVector 0 (-14)))
                                   keycodes.Left) keycodes.Right in
  control_scheme p = Some KEYBOARD_CONTROLS /\ kdir p == 0 /\
  exists p', Paddle_on_update p (1 # 10) = Ok p' /\
    paddle_position p' ==v paddle_position p +v mkVector (kdir p * speed p * (1 # 10)) 0.
Proof.
  intros p. split; [reflexivity|]. split; [reflexivity|].
  apply Paddle_on_update_keyboard. reflexivity.
Defined.

Lemma inject_Z_of_nat_nonneg (n : nat) : 0 <= inject_Z (Z.of_nat n).
Proof. unfold Qle; cbn. lia. Qed.

(** Once [N] steps of [speed * time_delta] cover the distance to the
    pointer, [N] updates bring the paddle onto it. *)
Lemma mouse_approach (time_delta : Q) (N : nat) :
  forall (p : Paddle) (m : Vector),
  paddle_inv p -> control_scheme p = Some MOUSE_CONTROLS -> mouse_vector p = Some m ->
  0 <= time_delta ->
  Qabs (vx m - vx (paddle_position p)) <= inject_Z (Z.of_nat N) * (speed p * time_delta) ->
  exists p', paddle_updates N p time_delta = Ok p' /\ vx (paddle_position p') == vx m.
Proof.
  induction N as [|N IH]; intros p m Hp Cs Hm Hdt Hd.
  - exists p. split; [reflexivity|]. change (inject_Z (Z.of_nat 0)) with 0 in Hd. rewrite Qmult_0_l in Hd.
    assert (H0 : Qabs (vx m - vx (paddle_position p)) == 0)
      by (pose proof (Qabs_nonneg (vx m - vx (paddle_position p))); lra).
    apply (proj1 (Qabs_zero_iff _)) in H0. lra.
  - destruct (mouse_step p time_delta m Hp Cs Hm Hdt) as [p' [H1 [H2 [H3 _]]]].
    destruct (with_position_fields p (paddle_position p')) as [Ec [Em Es]]. rewrite <- H2 in Es, Ec, Em.
    cbn [paddle_updates]. rewrite H1. cbn [bind]. apply (IH p' m).
    + exact (proj1 (paddle_step_inv p p' Hp (paddle_step_update p p' time_delta Hdt H1))).
    + rewrite Ec. exact Cs.
    + rewrite Em. exact Hm.
    + exact Hdt.
    + rewrite H3, Es. rewrite inject_Z_of_nat_S in Hd.
      pose proof (inject_Z_of_nat_nonneg N). destruct Hp as [Hs _].
      assert (0 <= speed p * time_delta) by (apply Qmult_le_0_compat; assumption).
      qminmax; nra.
Qed.

(** C27: under the mouse scheme, with a positive speed and time step, the
    paddle reaches the pointer's x after finitely many frames: the snap
    [movement_delta = to_position] ends the approach exactly on it. *)
Theorem mouse_reaches_pointer (p : Paddle) (time_delta : Q) (m : Vector) :
  paddle_inv p -> control_scheme p = Some MOUSE_CONTROLS -> mouse_vector p = Some m ->
  0 < speed p -> 0 < time_delta ->
  exists n p', paddle_updates n p time_delta = Ok p' /\ vx (paddle_position p') == vx m.
Proof.
  intros Hp Cs Hm Hs Hdt.
  destruct (steps_cover (Qabs (vx m - vx (paddle_position p))) (speed p * time_delta)) as [N HN];
    [apply Qmult_lt_0_compat; assumption|].
  exists N. exact (mouse_approach time_delta N p m Hp Cs Hm (Qlt_le_weak _ _ Hdt) HN).
Qed.

Lemma mouse_reaches_pointer_witness :
  let p := Paddle_on_mouse_motion (Paddle_new (mkVector 0 (-14))) (mkVector (7 # 2) 3) in
  paddle_inv p /\ control_scheme p = Some MOUSE_CONTROLS /\
  mouse_vector p = Some (mkVector (7 # 2) (-14)) /\ 0 < speed p /\ 0 < 1 # 10 /\
  exists n p', paddle_updates n p (1 # 10) = Ok p' /\ vx (paddle_position p') == vx (mkVector (7 # 2) (-14)).
Proof.
  intros p.
  assert (I : paddle_inv p) by (split; [qcompute | intros _; eexists; split; reflexivity]).
  split; [exact I|]. split; [reflexivity|]. split; [reflexivity|]. split; [qcompute|]. split; [qcompute|].
  apply mouse_reaches_pointer; [exact I | reflexivity | reflexivity | qcompute | qcompute].
Defined.

(** ** The two schemes override each other *)

(** C33: the control schemes are never combined (spec section 4.5): after
    a mouse motion the next update is the mouse step alone, whatever keys
    are held; after pressing Left or Right it is the keyboard step alone,
    whatever the pointer; releasing a key never changes the scheme, and a
    key other than Left and Right changes nothing. *)
Theorem control_scheme_override (p : Paddle) (pos : Vector) (k : keycodes.Key) (time_delta : Q) :
  Paddle_on_update (Paddle_on_mouse_motion p pos) time_delta =
    mouse_update (Paddle_on_mouse_motion p pos) time_delta /\
  (k = keycodes.Left \/ k = keycodes.Right ->
   Paddle_on_update (Paddle_on_key_pressed p k) time_delta =
     keyboard_update (Paddle_on_key_pressed p k) time_delta) /\
  control_scheme (Paddle_on_key_released p k) = control_scheme p /\
  (forall code, Paddle_on_key_pressed p (keycodes.Other code) = p).
Proof.
  split; [reflexivity|]. split; [|split; [destruct k; reflexivity | reflexivity]].
  intros Hk. set (p' := Paddle_on_key_pressed p k).
  assert (Cs : control_scheme p' = Some KEYBOARD_CONTROLS) by (destruct Hk as [-> | ->]; reflexivity).
  unfold Paddle_on_update. rewrite Cs. cbn [scheme_eqb].
  destruct (keyboard_update_spec p' time_delta) as [q [Hq _]]. rewrite Hq. cbn [bind].
  cbn [with_position control_scheme]. rewrite Cs. reflexivity.
Qed.
