(* ===== verification/Ball.v ===== *)
(** * The ball, the walls and the per-tick ball update

    [class Wall(ppb.RectangleSprite)] and [class Ball(ppb.Sprite)] of the
    four variants that have a ball:
    - src/3.1-a-ball/breakout.py: [Ball.on_update] only moves the ball;
    - src/3.2-the-walls/brickbreaker.py: it also reflects the velocity off
      every wall the ball overlaps;
    - src/3.3-the-paddle/paddle.py: it also reflects off the paddle, about
      a normal interpolated between up-left and up-right by where the ball
      meets the paddle;
    - src/3.4-the-blocks/bricks.py: walls may be [deadly] (touching one
      signals [ReplaceScene(EndScreen)]), the paddle reflects straight up,
      and every overlapped brick reflects the ball about the centre-to-
      centre direction and is sent a targeted [BrickStruck].

    The update receives the sibling sprites the code queries with
    [event.scene.get(kind=...)] and returns the new ball with the signals
    it sent, in order, or the exception it raised: [StopIteration] when
    the scene has no paddle ([next] on an empty query) and
    [ZeroDivisionError] when a brick's centre coincides with the ball's
    ([normalize] of the zero vector). *)

From Stdlib Require Import QArith Qminmax Qabs Lqa ZArith Lia List Morphisms Setoid Permutation.
From S2P Require Import Prelude Vector Geometry Events Brick Paddle.
Import ListNotations.
Open Scope Q_scope.
Open Scope py_scope.

(** ** Walls *)

Record Wall : Type := mkWall {
  wall_position : Vector;
  wall_width : Q;
  wall_height : Q;
  normal : Vector;
  deadly : bool
}.

#[export] Instance Wall_Sized : Sized Wall :=
  { position := wall_position; width := wall_width; height := wall_height }.

(** [Wall(width=w, height=h, position=p, normal=n, deadly=d)]; the class
    defaults are [width = height = 1], [normal = Down], [deadly = False]. *)
Definition Wall_new (w h : Q) (p n : Vector) (d : bool) : Wall := mkWall p w h n d.

(** [Wall(width=w, height=h, position=p, normal=n)] of 3.2-the-walls and
    3.3-the-paddle: that class has no [deadly] attribute, and no update of
    those variants reads one. *)
Definition Wall_new_v32 (w h : Q) (p n : Vector) : Wall := mkWall p w h n false.

(** ** The ball *)

Record Ball : Type := mkBall { ball_position : Vector; velocity : Vector }.

(** A [ppb.Sprite] has [size = 1]: width and height 1. *)
#[export] Instance Ball_Sized : Sized Ball :=
  { position := ball_position; width := fun _ => 1; height := fun _ => 1 }.

(** The class attributes of [Ball] in each variant. *)
Definition Ball_new_v31 : Ball := mkBall (mkVector 0 (-14)) (directions.Up *v 15).
Definition Ball_new_v32 : Ball := mkBall (mkVector 0 (-14)) (directions.UpAndRight *v 15).
Definition Ball_new : Ball := mkBall (mkVector (-3) (-12)) (directions.DownAndRight *v 13).

Definition with_velocity (self : Ball) (v : Vector) : Ball := mkBall (ball_position self) v.

(** [self.position += self.velocity * event.time_delta]. *)
Definition Ball_advance (self : Ball) (time_delta : Q) : Ball :=
  mkBall (ball_position self +v velocity self *v time_delta) (velocity self).

(** The wall loop of 3.2 and 3.3: reflect off every overlapped wall. *)
Fixpoint reflect_walls (self : Ball) (walls : list Wall) : Ball :=
  match walls with
  | [] => self
  | wall :: rest =>
      let self := if collides self wall
                  then with_velocity self (Vreflect (velocity self) (normal wall)) else self in
      reflect_walls self rest
  end.

(** The wall loop of 3.4: a deadly wall also signals
    [ReplaceScene(EndScreen)]. *)
Fixpoint bounce_walls (self : Ball) (walls : list Wall) : Ball * list Signal :=
  match walls with
  | [] => (self, [])
  | wall :: rest =>
      let '(self, sent) :=
        if collides self wall then
          (with_velocity self (Vreflect (velocity self) (normal wall)),
           if deadly wall then [ReplaceScene EndScreen] else [])
        else (self, []) in
      let '(self, sent') := bounce_walls self rest in
      (self, sent ++ sent')
  end.

(** The brick loop of 3.4. *)
Fixpoint bounce_bricks (self : Ball) (bricks : list (ObjId * Brick)) : result (Ball * list Signal) :=
  match bricks with
  | [] => Ok (self, [])
  | (id, brick) :: rest =>
      '(self, sent) <-
        (if collides self brick then
           n <- Vnormalize (ball_position self -v brick_position brick) ;;
           Ok (with_velocity self (Vreflect (velocity self) n), [BrickStruck id])
         else Ok (self, [])) ;;
      '(self, sent') <- bounce_bricks self rest ;;
      Ok (self, sent ++ sent')
  end.

(** The paddle normal of 3.3, interpolated between up-left and up-right
    by the ball's position along the paddle, clamped to its ends. *)
Definition percent_from_left (self : Ball) (paddle : Paddle) : result Q :=
  let ball_x := vx (ball_position self) in
  let min_range := sprite_left paddle in
  let max_range := sprite_right paddle in
  py_div (Qmax (Qmin ball_x max_range) min_range - min_range) (max_range - min_range).

Definition paddle_normal_v33 (self : Ball) (paddle : Paddle) : result Vector :=
  pct <- percent_from_left self paddle ;;
  let left_normal := directions.UpAndLeft in
  let right_normal := directions.UpAndRight in
  let vector := right_normal *v pct +v left_normal *v (1 - pct) in
  Vnormalize vector.

(** [Ball.on_update] of 3.1-a-ball (the [print] is not modelled). *)
Definition Ball_on_update_v31 (self : Ball) (time_delta : Q) : Ball :=
  Ball_advance self time_delta.

(** [Ball.on_update] of 3.2-the-walls. *)
Definition Ball_on_update_v32 (self : Ball) (time_delta : Q) (walls : list Wall) : Ball :=
  reflect_walls (Ball_advance self time_delta) walls.

(** [Ball.on_update] of 3.3-the-paddle. *)
Definition Ball_on_update_v33 (self : Ball) (time_delta : Q) (walls : list Wall)
    (paddles : list Paddle) : result Ball :=
  let self := reflect_walls (Ball_advance self time_delta) walls in
  match paddles with
  | [] => Err StopIteration
  | paddle :: _ =>
      if collides self paddle then
        n <- paddle_normal_v33 self paddle ;;
        Ok (with_velocity self (Vreflect (velocity self) n))
      else Ok self
  end.

(** [Ball.on_update] of 3.4-the-blocks. *)
Definition Ball_on_update (self : Ball) (time_delta : Q) (walls : list Wall)
    (paddles : list Paddle) (bricks : list (ObjId * Brick)) : result (Ball * list Signal) :=
  let self := Ball_advance self time_delta in
  let '(self, sent) := bounce_walls self walls in
  match paddles with
  | [] => Err StopIteration
  | paddle :: _ =>
      let self := if collides self paddle
                  then with_velocity self (Vreflect (velocity self) directions.Up) else self in
      '(self, sent') <- bounce_bricks self bricks ;;
      Ok (self, sent ++ sent')
  end.

(** ** What the loops compute, and the scenarios of the theorems *)

(** The velocity after reflecting off each overlapped wall in turn. *)
Definition walls_velocity (b : Ball) (walls : list Wall) : Vector :=
  fold_left (fun v w => if collides b w then Vreflect v (normal w) else v) walls (velocity b).

(** The [ReplaceScene(EndScreen)] signals of the overlapped deadly walls. *)
Definition deadly_signals (b : Ball) (walls : list Wall) : list Signal :=
  flat_map (fun w => if collides b w && deadly w then [ReplaceScene EndScreen] else []) walls.

(** The [BrickStruck] signals of the overlapped bricks. *)
Definition struck_signals (b : Ball) (bricks : list (ObjId * Brick)) : list Signal :=
  flat_map (fun '(id, br) => if collides b br then [BrickStruck id] else []) bricks.

(** A brick whose centre is the ball's centre makes [normalize] raise. *)
Definition centre_hit (b : Ball) (bricks : list (ObjId * Brick)) : Prop :=
  exists id br, In (id, br) bricks /\ collides b br = true /\
                ball_position b ==v brick_position br.

(** The bottom wall of the 3.4 [Game] and a ball about to touch it. *)
Definition bottom_wall : Wall := Wall_new 26 1 (mkVector 0 (-33 # 2)) directions.Up true.
Definition falling_ball : Ball := mkBall (mkVector 0 (-31 # 2)) (mkVector 0 (-1)).

(** A ball overlapping the brick at [(0, 6)] near its lower-left corner and
    moving away from its centre. *)
Definition leaving_ball : Ball := mkBall (mkVector (-6 # 5) (51 # 10)) (mkVector (-1) 0).

(** The [time_delta] the 3.4 variant runs with ([ppb.run(..., time_delta=0.0041666)]). *)
Definition game_time_delta : Q := 41666 # 10000000.

(** A normal along one of the axes, as all the program's walls have. *)
Definition axis_normal (n : Vector) : Prop :=
  (vx n == 0 /\ vy n * vy n == 1) \/ (vy n == 0 /\ vx n * vx n == 1).

(** The overlapped walls that flip the horizontal, resp. vertical, speed. *)
Definition xflips (b : Ball) (walls : list Wall) : nat :=
  length (filter (fun w => collides b w && Qeq_bool (vy (normal w)) 0) walls).
Definition yflips (b : Ball) (walls : list Wall) : nat :=
  length (filter (fun w => collides b w && negb (Qeq_bool (vy (normal w)) 0)) walls).

(** ** The loops of the update *)

(** Only the ball's position decides a collision. *)
Lemma collides_with_velocity {B : Type} `{Sized B} (b : Ball) (v : Vector) (x : B) :
  collides (with_velocity b v) x = collides b x.
Proof. reflexivity. Qed.

Lemma collides_same_position {B : Type} `{Sized B} (b b' : Ball) (x : B) :
  ball_position b = ball_position b' -> collides b x = collides b' x.
Proof. intros E. unfold collides, sprite_top, sprite_bottom, sprite_left, sprite_right.
  cbn [position Ball_Sized]. rewrite E. reflexivity. Qed.

Lemma bounce_walls_spec (b : Ball) (walls : list Wall) :
  bounce_walls b walls = (with_velocity b (walls_velocity b walls), deadly_signals b walls).
Proof.
  unfold walls_velocity, deadly_signals.
  revert b. induction walls as [|w ws IH]; intros b; [destruct b; reflexivity|].
  cbn [bounce_walls fold_left flat_map].
  destruct (collides b w) eqn:C; cbn [andb].
  - rewrite IH. unfold with_velocity at 1. cbn [ball_position velocity].
    destruct (deadly w); reflexivity.
  - rewrite IH. reflexivity.
Qed.

(** The 3.4 wall loop bounces exactly as the 3.2 and 3.3 loop. *)
Lemma reflect_walls_spec (b : Ball) (walls : list Wall) :
  reflect_walls b walls = with_velocity b (walls_velocity b walls).
Proof.
  unfold walls_velocity. revert b. induction walls as [|w ws IH]; intros b; [destruct b; reflexivity|].
  cbn [reflect_walls fold_left]. destruct (collides b w); rewrite IH; reflexivity.
Qed.

(** Reflecting off walls whose normals have length 1 keeps the speed. *)
Lemma reflect_walls_speed (b : Ball) (walls : list Wall) :
  Forall (fun w => Vdot (normal w) (normal w) == 1) walls ->
  Vdot (velocity (reflect_walls b walls)) (velocity (reflect_walls b walls)) == Vdot (velocity b) (velocity b).
Proof.
  revert b. induction walls as [|w ws IH]; intros b Hall; [reflexivity|].
  apply Forall_cons_iff in Hall as [Hw Hws]. cbn [reflect_walls]. rewrite (IH _ Hws).
  destruct (collides b w); [|reflexivity]. cbn [velocity with_velocity]. exact (Vreflect_norm _ _ Hw).
Qed.

Lemma Vsub_zero_iff (u v : Vector) : Vtruthy (u -v v) = false <-> u ==v v.
Proof.
  rewrite Vtruthy_false_iff. unfold veq; cbn [Vsub vx vy]. split; intros [H1 H2]; split; lra.
Qed.

Lemma bounce_bricks_ok (b : Ball) (bricks : list (ObjId * Brick)) :
  ~ centre_hit b bricks ->
  exists v, bounce_bricks b bricks = Ok (with_velocity b v, struck_signals b bricks).
Proof.
  unfold centre_hit, struck_signals. revert b.
  induction bricks as [|[id br] rest IH]; intros b Hc.
  - exists (velocity b). destruct b; reflexivity.
  - cbn [bounce_bricks flat_map].
    destruct (collides b br) eqn:C.
    + assert (T : Vtruthy (ball_position b -v brick_position br) = true).
      { destruct (Vtruthy _) eqn:E; [reflexivity|]. apply Vsub_zero_iff in E.
        exfalso. apply Hc. exists id, br. split; [left; reflexivity|]. auto. }
      destruct (Vnormalize (ball_position b -v brick_position br)) as [n|e] eqn:N.
      2:{ apply Vnormalize_Err in N as [F _]. congruence. }
      cbn [bind].
      destruct (IH (with_velocity b (Vreflect (velocity b) n))) as [v Hv].
      { intros [id' [br' [Hin Hrest]]]. apply Hc. exists id', br'. split; [right; exact Hin|].
        exact Hrest. }
      rewrite Hv. cbn [bind]. exists v. reflexivity.
    + cbn [bind]. destruct (IH b) as [v Hv].
      { intros [id' [br' [Hin Hrest]]]. apply Hc. exists id', br'. split; [right; exact Hin|].
        exact Hrest. }
      rewrite Hv. cbn [bind]. exists v. reflexivity.
Qed.

Lemma bounce_bricks_err (b : Ball) (bricks : list (ObjId * Brick)) (e : PyError) :
  bounce_bricks b bricks = Err e -> e = ZeroDivisionError /\ centre_hit b bricks.
Proof.
  unfold centre_hit. revert b.
  induction bricks as [|[id br] rest IH]; intros b H; [discriminate|].
  cbn [bounce_bricks] in H. destruct (collides b br) eqn:C.
  - destruct (Vnormalize (ball_position b -v brick_position br)) as [n|e'] eqn:N; cbn [bind] in H.
    + destruct (bounce_bricks _ rest) as [[b' s']|e''] eqn:R; cbn [bind] in H; [discriminate|].
      inversion H; subst e''. destruct (IH _ R) as [E [id' [br' [Hin Hrest]]]].
      split; [exact E|]. exists id', br'. split; [right; exact Hin | exact Hrest].
    + inversion H; subst e'. apply Vnormalize_Err in N as [F E]. split; [exact E|].
      exists id, br. split; [left; reflexivity|]. split; [exact C|]. apply Vsub_zero_iff. exact F.
  - cbn [bind] in H. destruct (bounce_bricks b rest) as [[b' s']|e''] eqn:R; cbn [bind] in H;
      [discriminate|]. inversion H; subst e''. destruct (IH _ R) as [E [id' [br' [Hin Hrest]]]].
    split; [exact E|]. exists id', br'. split; [right; exact Hin | exact Hrest].
Qed.

(** ** The update of 3.4-the-blocks *)

(** C1: in a scene with a paddle and walls whose normals have length 1
    (where ppb_vector's [reflect] does not raise), one [Ball.on_update]
    moves the ball by [velocity * time_delta], then sends
    [ReplaceScene(EndScreen)] once for each deadly wall and [BrickStruck]
    once to each brick the moved ball overlaps, in that order, and
    returns, unless a brick's centre is exactly the ball's. *)
Theorem Ball_on_update_spec (b : Ball) (time_delta : Q) (walls : list Wall)
    (paddle : Paddle) (paddles : list Paddle) (bricks : list (ObjId * Brick)) :
  Forall (fun w => Vdot (normal w) (normal w) == 1) walls ->
  ~ centre_hit (Ball_advance b time_delta) bricks ->
  exists v, Ball_on_update b time_delta walls (paddle :: paddles) bricks =
    Ok (with_velocity (Ball_advance b time_delta) v,
        deadly_signals (Ball_advance b time_delta) walls ++
        struck_signals (Ball_advance b time_delta) bricks).
Proof.
  intros _ Hc. unfold Ball_on_update. rewrite bounce_walls_spec.
  set (b1 := Ball_advance b time_delta) in *.
  set (b2 := if collides (with_velocity b1 (walls_velocity b1 walls)) paddle then _ else _).
  assert (Hb2 : ball_position b2 = ball_position b1) by (unfold b2; destruct (collides _ _); reflexivity).
  destruct (bounce_bricks_ok b2 bricks) as [v Hv].
  { intros [id [br [Hin [C E]]]]. apply Hc. exists id, br.
    rewrite (collides_same_position b2 b1) in C by exact Hb2. rewrite Hb2 in E. auto. }
  rewrite Hv. cbn [bind]. exists v. unfold with_velocity at 1. rewrite Hb2.
  unfold struck_signals. do 3 f_equal.
  apply flat_map_ext. intros [id br]. rewrite (collides_same_position b2 b1) by exact Hb2.
  reflexivity.
Qed.

Lemma Ball_on_update_spec_witness :
  Forall (fun w => Vdot (normal w) (normal w) == 1) ([] : list Wall) /\
  ~ centre_hit (Ball_advance Ball_new (1 # 10)) [(7%nat, Brick_new (mkVector 0 6))] /\
  exists v, Ball_on_update Ball_new (1 # 10) [] [Paddle_new (mkVector 0 (-14))]
              [(7%nat, Brick_new (mkVector 0 6))] =
    Ok (with_velocity (Ball_advance Ball_new (1 # 10)) v,
        deadly_signals (Ball_advance Ball_new (1 # 10)) [] ++
        struck_signals (Ball_advance Ball_new (1 # 10)) [(7%nat, Brick_new (mkVector 0 6))]).
Proof.
  assert (H : ~ centre_hit (Ball_advance Ball_new (1 # 10)) [(7%nat, Brick_new (mkVector 0 6))]).
  { intros [id [br [Hin [C _]]]]. destruct Hin as [E | []]. inversion E; subst.
    vm_compute in C. discriminate C. }
  split; [constructor|]. split; [exact H|]. apply Ball_on_update_spec; [constructor | exact H].
Defined.

(** C12: among walls whose normals have length 1 (so that ppb_vector's
    [reflect] raises no [ValueError]), [Ball.on_update] raises only in two
    cases: [StopIteration] when the scene has no paddle, and
    [ZeroDivisionError] when the moved ball overlaps a brick whose centre
    is exactly its own. *)
Theorem Ball_on_update_err (b : Ball) (time_delta : Q) (walls : list Wall)
    (paddles : list Paddle) (bricks : list (ObjId * Brick)) (e : PyError) :
  Forall (fun w => Vdot (normal w) (normal w) == 1) walls ->
  Ball_on_update b time_delta walls paddles bricks = Err e ->
  (paddles = [] /\ e = StopIteration) \/
  (e = ZeroDivisionError /\ centre_hit (Ball_advance b time_delta) bricks).
Proof.
  unfold Ball_on_update. rewrite bounce_walls_spec.
  set (b1 := Ball_advance b time_delta).
  intros _. destruct paddles as [|paddle ps]; intros H.
  - left. inversion H; auto.
  - right. set (b2 := if collides (with_velocity b1 (walls_velocity b1 walls)) paddle then _ else _) in H.
    assert (Hb2 : ball_position b2 = ball_position b1) by (unfold b2; destruct (collides _ _); reflexivity).
    destruct (bounce_bricks b2 bricks) as [[b3 s3]|e'] eqn:R; cbn [bind] in H; [discriminate|].
    inversion H; subst e'. destruct (bounce_bricks_err _ _ _ R) as [E [id [br [Hin [C P]]]]].
    split; [exact E|]. exists id, br.
    rewrite (collides_same_position b2 b1) in C by exact Hb2. rewrite Hb2 in P. auto.
Qed.

Lemma Ball_on_update_err_witness :
  Forall (fun w => Vdot (normal w) (normal w) == 1) ([] : list Wall) /\
  Ball_on_update (mkBall (mkVector 0 6) Vzero) (1 # 10) [] [Paddle_new (mkVector 0 (-14))]
    [(7%nat, Brick_new (mkVector 0 6))] = Err ZeroDivisionError /\
  (([Paddle_new (mkVector 0 (-14))] = [] /\ ZeroDivisionError = StopIteration) \/
   (ZeroDivisionError = ZeroDivisionError /\
    centre_hit (Ball_advance (mkBall (mkVector 0 6) Vzero) (1 # 10)) [(7%nat, Brick_new (mkVector 0 6))])).
Proof.
  assert (H : Ball_on_update (mkBall (mkVector 0 6) Vzero) (1 # 10) [] [Paddle_new (mkVector 0 (-14))]
                [(7%nat, Brick_new (mkVector 0 6))] = Err ZeroDivisionError) by (vm_compute; reflexivity).
  split; [constructor|]. split; [exact H|]. exact (Ball_on_update_err _ _ _ _ _ _ (Forall_nil _) H).
Defined.

Lemma bounce_bricks_Ok (b b' : Ball) (bricks : list (ObjId * Brick)) (sent : list Signal) :
  bounce_bricks b bricks = Ok (b', sent) ->
  ball_position b' = ball_position b /\ sent = struck_signals b bricks.
Proof.
  unfold struck_signals. revert b b' sent.
  induction bricks as [|[id br] rest IH]; intros b b' sent H.
  - inversion H; subst. auto.
  - cbn [bounce_bricks] in H. cbn [flat_map].
    destruct (collides b br) eqn:C.
    + destruct (Vnormalize _) as [n|e]; cbn [bind] in H; [|discriminate].
      destruct (bounce_bricks _ rest) as [[b3 s3]|e] eqn:R; cbn [bind] in H; [|discriminate].
      inversion H; subst. destruct (IH _ _ _ R) as [P S]. split; [exact P|]. rewrite S. reflexivity.
    + cbn [bind] in H. destruct (bounce_bricks b rest) as [[b3 s3]|e] eqn:R; cbn [bind] in H;
        [|discriminate]. inversion H; subst. destruct (IH _ _ _ R) as [P S]. auto.
Qed.

(** What a returning update sent. *)
Lemma Ball_on_update_Ok (b b' : Ball) (time_delta : Q) (walls : list Wall)
    (paddles : list Paddle) (bricks : list (ObjId * Brick)) (sent : list Signal) :
  Ball_on_update b time_delta walls paddles bricks = Ok (b', sent) ->
  ball_position b' = ball_position (Ball_advance b time_delta) /\
  sent = deadly_signals (Ball_advance b time_delta) walls ++
         struck_signals (Ball_advance b time_delta) bricks.
Proof.
  unfold Ball_on_update. rewrite bounce_walls_spec. set (b1 := Ball_advance b time_delta).
  destruct paddles as [|paddle ps]; [discriminate|]. intros H.
  set (b2 := if collides (with_velocity b1 (walls_velocity b1 walls)) paddle then _ else _) in H.
  assert (Hb2 : ball_position b2 = ball_position b1) by (unfold b2; destruct (collides _ _); reflexivity).
  destruct (bounce_bricks b2 bricks) as [[b3 s3]|e] eqn:R; cbn [bind] in H; [|discriminate].
  inversion H; subst. destruct (bounce_bricks_Ok _ _ _ _ R) as [P S]. split; [congruence|].
  rewrite S. unfold struck_signals. f_equal. apply flat_map_ext. intros [id br].
  rewrite (collides_same_position b2 b1) by exact Hb2. reflexivity.
Qed.

Lemma in_deadly_signals (b : Ball) (walls : list Wall) (s : Signal) :
  In s (deadly_signals b walls) <->
  s = ReplaceScene EndScreen /\ exists w, In w walls /\ deadly w = true /\ collides b w = true.
Proof.
  unfold deadly_signals. rewrite in_flat_map. split.
  - intros [w [Hin Hs]]. destruct (collides b w) eqn:C, (deadly w) eqn:D; cbn in Hs;
      try contradiction. destruct Hs as [<- | []]. split; [reflexivity|]. eauto.
  - intros [-> [w [Hin [D C]]]]. exists w. rewrite C, D. split; [exact Hin | left; reflexivity].
Qed.

Lemma in_struck_signals (b : Ball) (bricks : list (ObjId * Brick)) (s : Signal) :
  In s (struck_signals b bricks) <->
  exists id br, s = BrickStruck id /\ In (id, br) bricks /\ collides b br = true.
Proof.
  unfold struck_signals. rewrite in_flat_map. split.
  - intros [[id br] [Hin Hs]]. destruct (collides b br) eqn:C; cbn in Hs; [|contradiction].
    destruct Hs as [<- | []]. eauto.
  - intros [id [br [-> [Hin C]]]]. exists (id, br). rewrite C. split; [exact Hin | left; reflexivity].
Qed.

(** C5: an update that returns asks for the end screen exactly when the
    moved ball overlaps a deadly wall. *)
Theorem Ball_on_update_deadly (b b' : Ball) (time_delta : Q) (walls : list Wall)
    (paddles : list Paddle) (bricks : list (ObjId * Brick)) (sent : list Signal) :
  Ball_on_update b time_delta walls paddles bricks = Ok (b', sent) ->
  (In (ReplaceScene EndScreen) sent <->
   exists w, In w walls /\ deadly w = true /\ collides (Ball_advance b time_delta) w = true).
Proof.
  intros H. destruct (Ball_on_update_Ok _ _ _ _ _ _ _ H) as [_ ->].
  rewrite in_app_iff, in_deadly_signals, in_struck_signals. split.
  - intros [[_ Hw] | [id [br [E _]]]]; [exact Hw | discriminate E].
  - intros Hw. left. split; [reflexivity | exact Hw].
Qed.

(** C13: an update that returns sends [BrickStruck] to a brick exactly
    when the moved ball overlaps it, and to no other object. *)
Theorem Ball_on_update_struck (b b' : Ball) (time_delta : Q) (walls : list Wall)
    (paddles : list Paddle) (bricks : list (ObjId * Brick)) (sent : list Signal) (id : ObjId) :
  Ball_on_update b time_delta walls paddles bricks = Ok (b', sent) ->
  (In (BrickStruck id) sent <->
   exists br, In (id, br) bricks /\ collides (Ball_advance b time_delta) br = true).
Proof.
  intros H. destruct (Ball_on_update_Ok _ _ _ _ _ _ _ H) as [_ ->].
  rewrite in_app_iff, in_deadly_signals, in_struck_signals. split.
  - intros [[E _] | [id' [br [E [Hin C]]]]]; [discriminate E|]. inversion E; subst. eauto.
  - intros [br [Hin C]]. right. eauto.
Qed.

Lemma Ball_on_update_deadly_witness :
  exists b' sent,
    Ball_on_update falling_ball (1 # 10) [bottom_wall] [Paddle_new (mkVector 0 (-14))] [] =
      Ok (b', sent) /\
    (In (ReplaceScene EndScreen) sent <->
     exists w, In w [bottom_wall] /\ deadly w = true /\
               collides (Ball_advance falling_ball (1 # 10)) w = true).
Proof.
  destruct (Ball_on_update falling_ball (1 # 10) [bottom_wall] [Paddle_new (mkVector 0 (-14))] [])
    as [[b' sent]|e] eqn:H; [| vm_compute in H; discriminate H].
  exists b', sent. split; [reflexivity|]. exact (Ball_on_update_deadly _ _ _ _ _ _ _ H).
Defined.

Lemma Ball_on_update_struck_witness :
  exists b' sent,
    Ball_on_update (mkBall (mkVector (-6 # 5) (499 # 100)) (mkVector 0 13)) (1 # 100) []
      [Paddle_new (mkVector 0 (-14))] [(7%nat, Brick_new (mkVector 0 6))] = Ok (b', sent) /\
    (In (BrickStruck 7%nat) sent <->
     exists br, In (7%nat, br) [(7%nat, Brick_new (mkVector 0 6))] /\
       collides (Ball_advance (mkBall (mkVector (-6 # 5) (499 # 100)) (mkVector 0 13)) (1 # 100)) br = true).
Proof.
  destruct (Ball_on_update (mkBall (mkVector (-6 # 5) (499 # 100)) (mkVector 0 13)) (1 # 100) []
      [Paddle_new (mkVector 0 (-14))] [(7%nat, Brick_new (mkVector 0 6))])
    as [[b' sent]|e] eqn:H; [| vm_compute in H; discriminate H].
  exists b', sent. split; [reflexivity|]. exact (Ball_on_update_struck _ _ _ _ _ _ _ _ H).
Defined.

(** ** Bouncing off a brick *)

(** C15: the brick bounce reverses the ball's motion along the
    centre-to-centre direction whatever that motion was: a ball that
    still overlaps a brick while already moving away from its centre is
    turned back toward it. *)
Theorem bounce_brick_turns_back (b b' : Ball) (id : ObjId) (br : Brick) (sent : list Signal) :
  collides b br = true ->
  bounce_bricks b [(id, br)] = Ok (b', sent) ->
  0 < Vdot (velocity b) (ball_position b -v brick_position br) ->
  Vdot (velocity b') (ball_position b -v brick_position br) < 0.
Proof.
  intros C H Hpos. cbn [bounce_bricks] in H. rewrite C in H.
  set (d := ball_position b -v brick_position br) in *.
  destruct (Vnormalize d) as [n|e] eqn:N; cbn [bind] in H; [|discriminate].
  inversion H; subst; clear H. cbn [velocity with_velocity].
  assert (T : Vtruthy d = true).
  { destruct (Vtruthy d) eqn:E; [reflexivity|]. apply Vtruthy_false_iff in E.
    destruct E as [E1 E2]. unfold Vdot in Hpos. rewrite E1, E2 in Hpos. lra. }
  pose proof (Vnormalize_dot_ge d n N) as Hnn.
  rewrite Vnormalize_Ok in N by exact T. injection N as En.
  set (L := Vlength d) in *.
  assert (HL : 0 < L).
  { destruct (Qlt_le_dec 0 L) as [|Hle]; [assumption|].
    pose proof (Vlength_nonneg d) as H0. fold L in H0.
    assert (E : L == 0) by lra. unfold L in E. apply Vlength_zero_iff in E. congruence. }
  assert (Hd : d ==v Vscale n L). { rewrite <- En. unfold d; split; cbn [vx vy Vscale Vsub]; field; lra. }
  rewrite Hd in Hpos |- *.
  assert (Hsc : forall u, Vdot u (Vscale n L) == Vdot u n * L) by (intros u; unfold Vdot; cbn; ring).
  rewrite Hsc in Hpos |- *. rewrite Vreflect_dot.
  assert (0 < Vdot (velocity b) n).
  { apply Qnot_le_lt. intros Hle. assert (Vdot (velocity b) n * L <= 0).
    { rewrite <- (Qmult_0_l L). apply Qmult_le_compat_r; lra. } lra. }
  assert (Vdot (velocity b) n * (1 - 2 * Vdot n n) < 0).
  { setoid_replace (Vdot (velocity b) n * (1 - 2 * Vdot n n))
      with (- (Vdot (velocity b) n * (2 * Vdot n n - 1))) by ring.
    assert (0 < Vdot (velocity b) n * (2 * Vdot n n - 1)) by (apply Qmult_lt_0_compat; lra). lra. }
  setoid_replace 0 with (0 * L) by ring. apply Qmult_lt_compat_r; assumption.
Qed.

Lemma bounce_brick_turns_back_witness :
  exists b' sent,
    collides leaving_ball (Brick_new (mkVector 0 6)) = true /\
    bounce_bricks leaving_ball [(7%nat, Brick_new (mkVector 0 6))] = Ok (b', sent) /\
    0 < Vdot (velocity leaving_ball) (ball_position leaving_ball -v mkVector 0 6) /\
    Vdot (velocity b') (ball_position leaving_ball -v mkVector 0 6) < 0.
Proof.
  destruct (bounce_bricks leaving_ball [(7%nat, Brick_new (mkVector 0 6))])
    as [[b' sent]|e] eqn:H; [| vm_compute in H; discriminate H].
  assert (C : collides leaving_ball (Brick_new (mkVector 0 6)) = true) by (vm_compute; reflexivity).
  assert (P : 0 < Vdot (velocity leaving_ball) (ball_position leaving_ball -v mkVector 0 6))
    by qcompute.
  exists b', sent. split; [exact C|]. split; [reflexivity|]. split; [exact P|].
  exact (bounce_brick_turns_back leaving_ball b' 7%nat (Brick_new (mkVector 0 6)) sent C H P).
Defined.

(** ** The order of the walls does not matter *)

Lemma walls_fold_axis (b : Ball) (walls : list Wall) (v : Vector) :
  Forall (fun w => axis_normal (normal w)) walls ->
  fold_left (fun v w => if collides b w then Vreflect v (normal w) else v) walls v ==v
  mkVector (parity_sign (xflips b walls) * vx v) (parity_sign (yflips b walls) * vy v).
Proof.
  unfold xflips, yflips. revert v.
  induction walls as [|w ws IH]; intros v Hax.
  - split; cbn; ring.
  - inversion Hax as [|? ? Hw Hws]; subst. cbn [fold_left filter].
    destruct (collides b w) eqn:C; cbn [andb].
    2:{ apply IH; exact Hws. }
    rewrite (IH _ Hws).
    destruct Hw as [[H0 H1] | [H0 H1]].
    + assert (E : Qeq_bool (vy (normal w)) 0 = false).
      { apply Qeq_bool_false_iff. intros E. rewrite E in H1. discriminate H1. }
      rewrite E. cbn [negb length]. rewrite (Vreflect_vertical v (normal w) H0 H1).
      rewrite parity_sign_S. split; cbn [vx vy]; ring.
    + assert (E : Qeq_bool (vy (normal w)) 0 = true) by (apply Qeq_bool_iff; exact H0).
      rewrite E. cbn [negb length]. rewrite (Vreflect_horizontal v (normal w) H0 H1).
      rewrite parity_sign_S. split; cbn [vx vy]; ring.
Qed.

(** C16: with walls whose normals lie along the axes (as every wall of
    the program's scenes), the bounce off the walls does not depend on
    the order in which [scene.get(kind=Wall)] yields them: any
    permutation gives the same ball, the same velocity and the same
    signals up to order. *)
Theorem bounce_walls_permutation (b : Ball) (walls walls' : list Wall) :
  Forall (fun w => axis_normal (normal w)) walls -> Permutation walls walls' ->
  ball_position (fst (bounce_walls b walls)) = ball_position (fst (bounce_walls b walls')) /\
  velocity (fst (bounce_walls b walls)) ==v velocity (fst (bounce_walls b walls')) /\
  Permutation (snd (bounce_walls b walls)) (snd (bounce_walls b walls')).
Proof.
  intros Hax P. rewrite !bounce_walls_spec. cbn [fst snd ball_position velocity with_velocity].
  split; [reflexivity|]. split.
  - unfold walls_velocity. rewrite !walls_fold_axis by (try eapply Permutation_Forall; eauto).
    unfold xflips, yflips. rewrite !(Permutation_filter_length _ walls walls' P). reflexivity.
  - unfold deadly_signals. apply Permutation_flat_map. exact P.
Qed.

Lemma bounce_walls_permutation_witness :
  Forall (fun w => axis_normal (normal w))
    [bottom_wall; Wall_new 1 34 (mkVector (-12) 0) directions.Right false] /\
  Permutation [bottom_wall; Wall_new 1 34 (mkVector (-12) 0) directions.Right false]
              [Wall_new 1 34 (mkVector (-12) 0) directions.Right false; bottom_wall] /\
  velocity (fst (bounce_walls falling_ball
      [bottom_wall; Wall_new 1 34 (mkVector (-12) 0) directions.Right false])) ==v
  velocity (fst (bounce_walls falling_ball
      [Wall_new 1 34 (mkVector (-12) 0) directions.Right false; bottom_wall])).
Proof.
  assert (A : Forall (fun w => axis_normal (normal w))
                [bottom_wall; Wall_new 1 34 (mkVector (-12) 0) directions.Right false]).
  { constructor; [left; split; reflexivity|].
    constructor; [right; split; reflexivity|]. constructor. }
  assert (P : Permutation [bottom_wall; Wall_new 1 34 (mkVector (-12) 0) directions.Right false]
                [Wall_new 1 34 (mkVector (-12) 0) directions.Right false; bottom_wall])
    by apply perm_swap.
  split; [exact A|]. split; [exact P|].
  exact (proj1 (proj2 (bounce_walls_permutation falling_ball _ _ A P))).
Defined.

(** ** The wall bounce across the variants *)

(** C14: the wall loop of 3.4 changes the ball exactly as the loop of 3.2
    and 3.3 does; the deadly walls only add signals. *)
Theorem bounce_walls_as_v32 (b : Ball) (walls : list Wall) :
  fst (bounce_walls b walls) = reflect_walls b walls.
Proof. rewrite bounce_walls_spec, reflect_walls_spec. reflexivity. Qed.

(** C22: the wall reflection is its own inverse: a ball that still
    overlaps the same wall on the next pass of the wall loop gets its old
    velocity back, and so moves into the wall again. *)
Theorem reflect_walls_twice (b : Ball) (w : Wall) :
  axis_normal (normal w) -> collides b w = true ->
  velocity (reflect_walls (reflect_walls b [w]) [w]) ==v velocity b.
Proof.
  intros Hax C. cbn [reflect_walls]. rewrite C.
  rewrite collides_with_velocity, C. cbn [velocity with_velocity].
  apply Vreflect_involutive.
  destruct Hax as [[H0 H1] | [H0 H1]]; unfold Vdot; rewrite H0, H1; reflexivity.
Qed.

Lemma reflect_walls_twice_witness :
  axis_normal (normal bottom_wall) /\ collides (Ball_advance falling_ball (1 # 10)) bottom_wall = true /\
  velocity (reflect_walls (reflect_walls (Ball_advance falling_ball (1 # 10)) [bottom_wall]) [bottom_wall])
    ==v velocity (Ball_advance falling_ball (1 # 10)).
Proof.
  assert (A : axis_normal (normal bottom_wall)) by (left; split; reflexivity).
  assert (C : collides (Ball_advance falling_ball (1 # 10)) bottom_wall = true) by (vm_compute; reflexivity).
  split; [exact A|]. split; [exact C|]. exact (reflect_walls_twice _ _ A C).
Defined.

(** The scenario of the spec: a ball at [(0, 0)] moving at [(0, 10)]
    toward a wall at [(0, 5)] with normal [(0, -1)] comes back at
    [(0, -10)] once it touches the wall. *)
Theorem wall_bounce_scenario :
  let wall := Wall_new 1 1 (mkVector 0 5) directions.Down false in
  velocity (Ball_on_update_v32 (mkBall (mkVector 0 0) (mkVector 0 10)) (9 # 20) [wall]) ==v mkVector 0 (-10).
Proof. split; reflexivity. Qed.

(** ** The interpolated paddle normal of 3.3 *)

Lemma percent_from_left_bounds (b : Ball) (p : Paddle) (pct : Q) :
  0 < paddle_width p -> percent_from_left b p = Ok pct -> 0 <= pct <= 1.
Proof.
  intros Hw. unfold percent_from_left, py_div.
  set (lo := sprite_left p). set (hi := sprite_right p).
  assert (Hd : hi - lo == paddle_width p).
  { unfold lo, hi, sprite_left, sprite_right. cbn [width Paddle_Sized]. qdiv_const. ring. }
  destruct (Qeq_bool (hi - lo) 0) eqn:Z; intros H; inversion H; subst; clear H.
  apply Qeq_bool_false_iff in Z. rewrite Hd.
  assert (lo <= hi) by lra.
  assert (lo <= Qmax (Qmin (vx (ball_position b)) hi) lo <= hi).
  { split; [apply Q.le_max_r|]. apply Q.max_lub; [apply Q.le_min_r | assumption]. }
  split.
  - apply Qle_shift_div_l; [exact Hw|]. rewrite Qmult_0_l. lra.
  - apply Qle_shift_div_r; [exact Hw|]. rewrite Qmult_1_l. lra.
Qed.

(** The paddle normal of 3.3 exists, points upward and has length at
    least 1 (the square root is rounded down). *)
Lemma paddle_normal_v33_ok (b : Ball) (p : Paddle) :
  0 < paddle_width p -> exists n, paddle_normal_v33 b p = Ok n /\ 0 < vy n /\ 1 <= Vdot n n.
Proof.
  intros Hw. unfold paddle_normal_v33.
  destruct (percent_from_left b p) as [pct|e] eqn:P.
  2:{ exfalso. unfold percent_from_left, py_div in P.
      destruct (Qeq_bool _ 0) eqn:Z; [|discriminate P]. apply Qeq_bool_iff in Z.
      unfold sprite_left, sprite_right in Z. cbn [width Paddle_Sized] in Z. qdiv_const. lra. }
  cbn [bind]. pose proof (percent_from_left_bounds b p pct Hw P) as [H0 H1].
  match goal with |- context [Vnormalize ?v] => set (vec := v) end.
  assert (Hc : 0 < vy directions.UpAndRight) by qcompute.
  assert (Hy : vy vec == vy directions.UpAndRight).
  { unfold vec. cbn [Vadd Vscale vy].
    assert (E : vy directions.UpAndLeft == vy directions.UpAndRight) by qcompute.
    rewrite E. ring. }
  assert (T : Vtruthy vec = true).
  { destruct (Vtruthy vec) eqn:E; [reflexivity|]. apply Vtruthy_false_iff in E. lra. }
  pose proof (Vnormalize_Ok vec T) as N. rewrite N. eexists; split; [reflexivity|].
  split; [|exact (Vnormalize_dot_ge vec _ N)]. cbn [vy].
  assert (HL : 0 < Vlength vec).
  { destruct (Qlt_le_dec 0 (Vlength vec)) as [|Hle]; [assumption|].
    pose proof (Vlength_nonneg vec).
    assert (E : Vlength vec == 0) by lra. apply Vlength_zero_iff in E. congruence. }
  apply Qlt_shift_div_l; [exact HL|]. rewrite Qmult_0_l. rewrite Hy. lra.
Qed.


(** The paddle normal of 3.3 leans to the side of the paddle's centre
    the ball is on: left of the centre it points up and left, right of
    it up and right, and straight up at the centre. *)
Lemma paddle_normal_v33_side (b : Ball) (p : Paddle) (n : Vector) :
  0 < paddle_width p -> paddle_normal_v33 b p = Ok n ->
  (vx (ball_position b) < vx (paddle_position p) -> vx n < 0) /\
  (vx (ball_position b) == vx (paddle_position p) -> vx n == 0) /\
  (vx (paddle_position p) < vx (ball_position b) -> 0 < vx n).
Proof.
  intros Hw. unfold paddle_normal_v33, percent_from_left, py_div.
  set (bx := vx (ball_position b)). set (px := vx (paddle_position p)).
  set (lo := sprite_left p). set (hi := sprite_right p).
  assert (Hlo : lo == px - paddle_width p * (1 # 2))
    by (unfold lo, px, sprite_left; cbn [width position Paddle_Sized]; qdiv_const; reflexivity).
  assert (Hhi : hi == px + paddle_width p * (1 # 2))
    by (unfold hi, px, sprite_right; cbn [width position Paddle_Sized]; qdiv_const; reflexivity).
  destruct (Qeq_bool (hi - lo) 0) eqn:Z; cbn [bind].
  { intros H; discriminate H. }
  set (m := Qmax (Qmin bx hi) lo).
  set (pct := (m - lo) / (hi - lo)).
  set (vec := directions.UpAndRight *v pct +v directions.UpAndLeft *v (1 - pct)).
  intros N.
  assert (Hc : 0 < vx directions.UpAndRight) by qcompute.
  assert (EL : vx directions.UpAndLeft == - vx directions.UpAndRight) by qcompute.
  assert (Hyv : 0 < vy vec).
  { unfold vec. cbn [Vadd Vscale vy].
    assert (E : vy directions.UpAndLeft == vy directions.UpAndRight) by qcompute.
    assert (Hy : 0 < vy directions.UpAndRight) by qcompute. rewrite E. ring_simplify. exact Hy. }
  destruct (Vnormalize_vx vec n N) as [HL ->].
  assert (Hd : 0 < hi - lo) by (rewrite Hlo, Hhi; lra).
  assert (Hvx : vx vec == vx directions.UpAndRight * (2 * (m - px)) / (hi - lo)).
  { unfold vec, pct. cbn [Vadd Vscale vx]. rewrite EL. field_simplify_eq; [|intros E; lra].
    rewrite Hlo, Hhi. ring. }
  assert (Hm : (bx < px -> m < px) /\ (bx == px -> m == px) /\ (px < bx -> px < m)).
  { unfold m. destruct (Q.min_spec bx hi) as [[? E1]|[? E1]]; rewrite E1;
    repeat split; intros; qminmax; lra. }
  destruct Hm as [M1 [M2 M3]].
  repeat split; intros H; rewrite Hvx.
  - apply Qlt_shift_div_r; [exact HL|]. rewrite Qmult_0_l.
    apply Qlt_shift_div_r; [exact Hd|]. rewrite Qmult_0_l. specialize (M1 H). nra.
  - rewrite (M2 H). unfold Qdiv. ring.
  - apply Qlt_shift_div_l; [exact HL|]. rewrite Qmult_0_l.
    apply Qlt_shift_div_l; [exact Hd|]. rewrite Qmult_0_l. specialize (M3 H). nra.
Qed.

(** C30: in 3.3 a ball that meets the paddle after the wall loop is
    reflected about the interpolated paddle normal [n], which points
    upward: if it was moving into the paddle ([velocity . n < 0]) it
    leaves moving away from it ([velocity' . n > 0]), and it keeps its
    position; [n] leans toward the side of the paddle's centre the ball
    meets it on (left of the centre up-left, right of it up-right,
    straight up at the centre). *)
Theorem Ball_on_update_v33_paddle (b : Ball) (time_delta : Q) (walls : list Wall)
    (paddle : Paddle) (paddles : list Paddle) :
  0 < paddle_width paddle ->
  collides (reflect_walls (Ball_advance b time_delta) walls) paddle = true ->
  exists n b', paddle_normal_v33 (reflect_walls (Ball_advance b time_delta) walls) paddle = Ok n /\
    Ball_on_update_v33 b time_delta walls (paddle :: paddles) = Ok b' /\
    ball_position b' = ball_position (reflect_walls (Ball_advance b time_delta) walls) /\
    0 < vy n /\
    (Vdot (velocity (reflect_walls (Ball_advance b time_delta) walls)) n < 0 ->
     0 < Vdot (velocity b') n) /\
    (vx (ball_position b') < vx (paddle_position paddle) -> vx n < 0) /\
    (vx (ball_position b') == vx (paddle_position paddle) -> vx n == 0) /\
    (vx (paddle_position paddle) < vx (ball_position b') -> 0 < vx n).
Proof.
  intros Hw C. set (b1 := reflect_walls (Ball_advance b time_delta) walls) in *.
  destruct (paddle_normal_v33_ok b1 paddle Hw) as [n [Hn [Hy Hnn]]].
  destruct (paddle_normal_v33_side b1 paddle n Hw Hn) as [S1 [S2 S3]].
  exists n, (with_velocity b1 (Vreflect (velocity b1) n)).
  unfold Ball_on_update_v33. fold b1. rewrite C, Hn. cbn [bind].
  split; [reflexivity|]. split; [reflexivity|]. split; [reflexivity|]. split; [exact Hy|].
  split; [|exact (conj S1 (conj S2 S3))].
  intros Hin. cbn [velocity with_velocity]. rewrite Vreflect_dot. nra.
Qed.

Lemma Ball_on_update_v33_paddle_witness :
  let b := mkBall (mkVector 1 (-13)) (mkVector 0 (-10)) in
  let p := Paddle_new_v33 (mkVector 0 (-14)) in
  0 < paddle_width p /\
  collides (reflect_walls (Ball_advance b (1 # 10)) []) p = true /\
  exists n b', paddle_normal_v33 (reflect_walls (Ball_advance b (1 # 10)) []) p = Ok n /\
    Ball_on_update_v33 b (1 # 10) [] (p :: []) = Ok b' /\
    ball_position b' = ball_position (reflect_walls (Ball_advance b (1 # 10)) []) /\
    0 < vy n /\
    (Vdot (velocity (reflect_walls (Ball_advance b (1 # 10)) [])) n < 0 -> 0 < Vdot (velocity b') n) /\
    (vx (ball_position b') < vx (paddle_position p) -> vx n < 0) /\
    (vx (ball_position b') == vx (paddle_position p) -> vx n == 0) /\
    (vx (paddle_position p) < vx (ball_position b') -> 0 < vx n).
Proof.
  intros b p.
  assert (Hw : 0 < paddle_width p) by qcompute.
  assert (C : collides (reflect_walls (Ball_advance b (1 # 10)) []) p = true) by (vm_compute; reflexivity).
  split; [exact Hw|]. split; [exact C|]. exact (Ball_on_update_v33_paddle b (1 # 10) [] p [] Hw C).
Defined.
