(* ===== verification/Scene.v ===== *)
(** * The scenes: title screen, game and end screen

    [TitleScreen], [Game] and [EndScreen] are [ppb.Scene] subclasses in
    every variant.  A scene is a kind with the sprites it owns, each with
    an object identity ([ObjId]) given in insertion order; the handlers
    [on_key_released] and [on_button_released] send the scene requests:
    - the title screen starts the game ([StartScene(Game)]);
    - the game replaces itself by the end screen ([ReplaceScene(EndScreen)])
      in the variants up to 3.2-the-walls, and has no handler from
      3.3-the-paddle on (the game ends only through the deadly wall);
    - the end screen stops itself ([StopScene()]).
    Each step's [TitleScreen.__init__] and [Game.__init__] is its own
    definition ([TitleScreen_init], [Game_init_v31], [Game_init_v32],
    [Game_init_v33], [Game_init]), as are the handlers of each class
    ([TitleScreen_on_release], [Game_on_release_v32],
    [EndScreen_on_release]); [Scene_new] and [Scene_on_release] pick the
    step's version.  [Game.__init__] of 3.4-the-blocks builds the ball,
    the four walls (the bottom one deadly), the paddle and a brick at each
    point of [product(range(-9, 12, 3), range(-4, 15, 2))].

    The theorems show that the grid has 70 bricks that do not overlap,
    that the ball overlaps at most one brick of the grid wherever it is, so
    the order in which the scene yields its bricks does not matter, and
    that in the 3.4 game as built no sprite but a wall overlaps another. *)

From Stdlib Require Import QArith Qminmax Qabs Lqa ZArith Lia List Permutation Finite.
From S2P Require Import Prelude Vector Geometry Events Brick Paddle Ball.
Import ListNotations.
Open Scope Q_scope.
Open Scope py_scope.

(** The six source files, in the order the tutorial builds them. *)
Inductive Variant : Type := V21 | V22 | V31 | V32 | V33 | V34.

(** The sprites a scene can own. *)
Inductive GameObject : Type :=
| GLabel                 (** the title's [ppb.Sprite] showing [ppb.Text] *)
| GBall (b : Ball)
| GWall (w : Wall)
| GPaddle (p : Paddle)
| GBrick (br : Brick).

Record Scene : Type := mkScene {
  kind : SceneKind;
  objects : list (ObjId * GameObject)
}.

(** [self.add(...)] for each sprite in turn: identities in insertion order. *)
Definition number_objects (l : list GameObject) : list (ObjId * GameObject) :=
  combine (seq 0 (length l)) l.

(** [TitleScreen.__init__] from 2.2-the-title-screen on: the title label. *)
Definition TitleScreen_init : list GameObject := [GLabel].

(** The four walls of [Game.__init__] in 3.2-the-walls and 3.3-the-paddle. *)
Definition game_walls_v32 : list Wall :=
  [Wall_new_v32 26 1 (mkVector 0 (33 # 2)) directions.Down;
   Wall_new_v32 26 1 (mkVector 0 (-33 # 2)) directions.Up;
   Wall_new_v32 1 34 (mkVector 12 0) directions.Left;
   Wall_new_v32 1 34 (mkVector (-12) 0) directions.Right].

(** The four walls of [Game.__init__] in 3.4-the-blocks: the bottom one
    is deadly. *)
Definition game_walls : list Wall :=
  [Wall_new 26 1 (mkVector 0 (33 # 2)) directions.Down false;
   Wall_new 26 1 (mkVector 0 (-33 # 2)) directions.Up true;
   Wall_new 1 34 (mkVector 12 0) directions.Left false;
   Wall_new 1 34 (mkVector (-12) 0) directions.Right false].

(** The lattice of bricks: [product(range(-9, 12, 3), range(-4, 15, 2))]. *)
Definition brick_grid : list (Z * Z) := product (py_range (-9) 12 3) (py_range (-4) 15 2).

Definition grid_bricks : list Brick :=
  map (fun '(x, y) => Brick_new (mkVector (inject_Z x) (inject_Z y))) brick_grid.

(** [Game.__init__] of 3.1-a-ball, 3.2-the-walls, 3.3-the-paddle and
    3.4-the-blocks, sprite by sprite in the order of [self.add]. *)
Definition Game_init_v31 : list GameObject := [GBall Ball_new_v31].

Definition Game_init_v32 : list GameObject := GBall Ball_new_v32 :: map GWall game_walls_v32.

Definition Game_init_v33 : list GameObject :=
  GBall Ball_new :: map GWall game_walls_v32 ++ [GPaddle (Paddle_new_v33 (mkVector 0 (-14)))].

Definition Game_init : list GameObject :=
  GBall Ball_new :: map GWall game_walls ++ [GPaddle (Paddle_new (mkVector 0 (-14)))]
    ++ map GBrick grid_bricks.

(** A fresh scene of each class.  Up to 2.2 [Game] has no [__init__], and
    [EndScreen] never has one. *)
Definition Scene_new (v : Variant) (k : SceneKind) : Scene :=
  match k with
  | TitleScreen => mkScene TitleScreen (number_objects (match v with V21 => [] | _ => TitleScreen_init end))
  | Game =>
      mkScene Game (number_objects
        (match v with
         | V21 | V22 => []
         | V31 => Game_init_v31
         | V32 => Game_init_v32
         | V33 => Game_init_v33
         | V34 => Game_init
         end))
  | EndScreen => mkScene EndScreen []
  end.

(** [on_key_released] and [on_button_released] of each scene class: the
    two handlers of a class are identical.  [Game] has them up to
    3.2-the-walls only. *)
Definition TitleScreen_on_release : list Signal := [StartScene Game].

Definition Game_on_release_v32 : list Signal := [ReplaceScene EndScreen].

Definition EndScreen_on_release : list Signal := [StopScene].

Definition Scene_on_release (v : Variant) (k : SceneKind) : list Signal :=
  match k with
  | TitleScreen => TitleScreen_on_release
  | Game => match v with V33 | V34 => [] | _ => Game_on_release_v32 end
  | EndScreen => EndScreen_on_release
  end.

(** The queries [scene.get(kind=...)] of the ball's update. *)
Definition scene_walls (s : Scene) : list Wall :=
  flat_map (fun '(_, o) => match o with GWall w => [w] | _ => [] end) (objects s).
Definition scene_paddles (s : Scene) : list Paddle :=
  flat_map (fun '(_, o) => match o with GPaddle p => [p] | _ => [] end) (objects s).
Definition scene_bricks (s : Scene) : list (ObjId * Brick) :=
  flat_map (fun '(i, o) => match o with GBrick b => [(i, b)] | _ => [] end) (objects s).

(** The extent of a sprite, as the shape mixin of ppb gives it; the title
    label has none the program reads. *)
Definition to_rect {A : Type} `{Sized A} (a : A) : Rect := mkRect (position a) (width a) (height a).

Definition obj_rect (o : GameObject) : option Rect :=
  match o with
  | GLabel => None
  | GBall b => Some (to_rect b)
  | GWall w => Some (to_rect w)
  | GPaddle p => Some (to_rect p)
  | GBrick br => Some (to_rect br)
  end.

(** [Ball.collides] between any two sprites that have an extent. *)
Definition obj_collides (o o' : GameObject) : bool :=
  match obj_rect o, obj_rect o' with Some r, Some r' => collides r r' | _, _ => false end.

Definition is_wall (o : GameObject) : bool :=
  match o with GWall _ => true | _ => false end.

(** Every ordered pair of distinct positions of [l] whose first sprite is
    not a wall is clear. *)
Definition layout_clear (l : list GameObject) : bool :=
  forallb (fun i => forallb (fun j =>
    Nat.eqb i j ||
    match nth_error l i, nth_error l j with
    | Some o, Some o' => is_wall o || negb (obj_collides o o')
    | _, _ => true
    end) (seq 0 (length l))) (seq 0 (length l)).

(** ** The brick grid *)

Definition Zpair_eq_dec (a b : Z * Z) : {a = b} + {a <> b}.
Proof. decide equality; apply Z.eq_dec. Defined.

Lemma brick_grid_NoDup : NoDup brick_grid.
Proof.
  assert (E : nodup Zpair_eq_dec brick_grid = brick_grid) by (vm_compute; reflexivity).
  rewrite <- E. apply NoDup_nodup.
Qed.

Lemma brick_grid_length : length brick_grid = 70%nat.
Proof. reflexivity. Qed.

(** Two lattice points closer than the lattice step on both axes are equal. *)
Lemma grid_close_eq (x1 y1 x2 y2 : Z) :
  In (x1, y1) brick_grid -> In (x2, y2) brick_grid ->
  inject_Z x1 - 3 < inject_Z x2 < inject_Z x1 + 3 ->
  inject_Z y1 - 2 < inject_Z y2 < inject_Z y1 + 2 ->
  (x1, y1) = (x2, y2).
Proof.
  unfold brick_grid. rewrite !in_product. intros [Hx1 Hy1] [Hx2 Hy2] Hx Hy.
  apply in_py_range in Hx1 as [i1 ->], Hy1 as [j1 ->], Hx2 as [i2 ->], Hy2 as [j2 ->].
  unfold Qlt, inject_Z, Qminus, Qplus, Qopp in Hx, Hy; cbn [Qnum Qden] in Hx, Hy.
  destruct Hx, Hy. f_equal; lia.
Qed.

(** A ball overlapping a brick of the grid is within [1.5] of its centre
    horizontally and within [1] vertically. *)
Lemma collides_grid_brick (b : Ball) (x y : Z) :
  collides b (Brick_new (mkVector (inject_Z x) (inject_Z y))) = true ->
  (vx (ball_position b) - (3 # 2) < inject_Z x < vx (ball_position b) + (3 # 2)) /\
  (vy (ball_position b) - 1 < inject_Z y < vy (ball_position b) + 1).
Proof.
  rewrite collides_span, Bool.andb_true_iff, !Qltb_iff.
  cbn [position Ball_Sized Brick_Sized width height brick_position Brick_new vx vy].
  rewrite !span_lt_iff by qcompute. intros [Cy Cx].
  split.
  - assert (H : Qabs (vx (ball_position b) - inject_Z x) < 3 # 2) by (qdiv_const; lra).
    apply Qabs_diff_Qlt_condition in H. lra.
  - assert (H : Qabs (vy (ball_position b) - inject_Z y) < 1) by lra.
    apply Qabs_diff_Qlt_condition in H. lra.
Qed.

Lemma grid_bricks_NoDup : NoDup grid_bricks.
Proof.
  unfold grid_bricks. apply Finite.Injective_map_NoDup; [|exact brick_grid_NoDup].
  intros [x1 y1] [x2 y2] E. unfold Brick_new, inject_Z in E.
  injection E; intros; subst; reflexivity.
Qed.

(** C17: wherever the ball is, it overlaps at most one brick of the
    [Game]'s grid, so the loop over [scene.get(kind=Brick)] strikes at
    most one brick per tick, whatever order the scene yields them in. *)
Theorem grid_at_most_one_brick (b : Ball) :
  (length (filter (fun br => collides b br) grid_bricks) <= 1)%nat.
Proof.
  apply filter_at_most_one; [exact grid_bricks_NoDup|].
  intros br1 br2 H1 H2 C1 C2. unfold grid_bricks in H1, H2.
  apply in_map_iff in H1 as [[x1 y1] [<- G1]]. apply in_map_iff in H2 as [[x2 y2] [<- G2]].
  apply collides_grid_brick in C1 as [[Cx1 Cx1'] [Cy1 Cy1']].
  apply collides_grid_brick in C2 as [[Cx2 Cx2'] [Cy2 Cy2']].
  assert (E : (x1, y1) = (x2, y2)) by (apply grid_close_eq; auto; split; lra).
  injection E as -> ->. reflexivity.
Qed.

(** ** The layout of the 3.4 game *)

(** The rectangle of a sprite collides exactly as the sprite does. *)
Lemma collides_to_rect {A B : Type} `{Sized A} `{Sized B} (a : A) (b : B) :
  collides (to_rect a) (to_rect b) = collides a b.
Proof. reflexivity. Qed.

Lemma layout_clear_spec (l : list GameObject) (i j : nat) (o o' : GameObject) :
  layout_clear l = true -> i <> j -> nth_error l i = Some o -> nth_error l j = Some o' ->
  is_wall o = false -> obj_collides o o' = false.
Proof.
  unfold layout_clear. rewrite forallb_forall. intros Hl Hij Hi Hj Hw.
  assert (Li : In i (seq 0 (length l)))
    by (apply in_seq; split; [lia | apply nth_error_Some; congruence]).
  assert (Lj : In j (seq 0 (length l)))
    by (apply in_seq; split; [lia | apply nth_error_Some; congruence]).
  specialize (Hl i Li). rewrite forallb_forall in Hl. specialize (Hl j Lj).
  rewrite Hi, Hj, Hw in Hl. apply Nat.eqb_neq in Hij. rewrite Hij in Hl. cbn in Hl.
  destruct (obj_collides o o'); [discriminate | reflexivity].
Qed.

(** C34: as [Game.__init__] of 3.4-the-blocks builds it, the ball, the
    paddle and each of the 70 bricks overlap no other sprite: no brick
    touches a wall, the paddle or another brick, and the ball starts
    clear.  Only walls may meet one another (they do, at the corners). *)
Theorem Game_init_clear (i j : nat) (o o' : GameObject) :
  i <> j -> nth_error Game_init i = Some o -> nth_error Game_init j = Some o' ->
  is_wall o = false -> obj_collides o o' = false.
Proof.
  apply layout_clear_spec. vm_compute. reflexivity.
Qed.

Lemma Game_init_clear_witness :
  0%nat <> 5%nat /\ nth_error Game_init 0 = Some (GBall Ball_new) /\
  nth_error Game_init 5 = Some (GPaddle (Paddle_new (mkVector 0 (-14)))) /\
  is_wall (GBall Ball_new) = false /\
  obj_collides (GBall Ball_new) (GPaddle (Paddle_new (mkVector 0 (-14)))) = false.
Proof.
  assert (H0 : nth_error Game_init 0 = Some (GBall Ball_new)) by reflexivity.
  assert (H5 : nth_error Game_init 5 = Some (GPaddle (Paddle_new (mkVector 0 (-14))))) by reflexivity.
  split; [discriminate|]. split; [exact H0|]. split; [exact H5|]. split; [reflexivity|].
  exact (Game_init_clear 0 5 _ _ ltac:(discriminate) H0 H5 eq_refl).
Defined.

