(* ===== verification/Rally.v ===== *)
(** * The ball over several frames

    The host publishes one [Update] per frame; in a scene whose other
    sprites stay put (the player idle, no brick in the ball's way) the
    ball's [on_update] runs once per frame on its own result.
    [ball_ticks] is that sequence.  The theorem of this file is a liveness
    property of 3.4-the-blocks: a ball falling straight down the field,
    away from the paddle and below the bricks, ends the game.  It needs the ball to move less
    than the combined height of ball and wall (2) per frame; a larger step
    can tunnel through the bottom wall, the limitation spec section 5
    accepts. *)

From Stdlib Require Import QArith Qminmax Qabs Lqa ZArith Lia List.
From S2P Require Import Prelude Vector Geometry Events Brick Paddle Ball Scene.
Import ListNotations.
Open Scope Q_scope.
Open Scope py_scope.

(** [n] frames of [Ball.on_update] among fixed walls, paddles and bricks,
    with the signals of all frames in order. *)
Fixpoint ball_ticks (n : nat) (b : Ball) (time_delta : Q) (walls : list Wall)
    (paddles : list Paddle) (bricks : list (ObjId * Brick)) : result (Ball * list Signal) :=
  match n with
  | O => Ok (b, [])
  | S n' =>
      '(b', sent) <- Ball_on_update b time_delta walls paddles bricks ;;
      '(b'', sent') <- ball_ticks n' b' time_delta walls paddles bricks ;;
      Ok (b'', sent ++ sent')
  end.

(** A ball at [(x, y)] moving straight down (or up) at speed [vy]. *)
Definition falling (x y vy : Q) : Ball := mkBall (mkVector x y) (mkVector 0 vy).

(** Every brick lies wholly above a ball at height [y]: its centre is at
    least 1 (half the ball's and half the brick's height) higher. *)
Definition bricks_above (y : Q) (bricks : list (ObjId * Brick)) : Prop :=
  Forall (fun ib => y + 1 <= vy (brick_position (snd ib))) bricks.

Lemma bounce_walls_none (b : Ball) (walls : list Wall) :
  Forall (fun w => collides b w = false) walls -> bounce_walls b walls = (b, []).
Proof.
  induction 1 as [|w ws C _ IH]; [reflexivity|]. cbn [bounce_walls]. rewrite C, IH. reflexivity.
Qed.

Lemma Qabs_bounds (e : Q) : e <= Qabs e /\ - e <= Qabs e.
Proof. split; [apply Qle_Qabs|]. rewrite <- Qabs_opp. apply Qle_Qabs. Qed.

Lemma Qabs_lt_bounds (e d : Q) : Qabs e < d -> - d < e /\ e < d.
Proof. intros H. destruct (Qabs_bounds e). split; lra. Qed.

Lemma bounce_bricks_none (b : Ball) (bricks : list (ObjId * Brick)) :
  Forall (fun ib => collides b (snd ib) = false) bricks -> bounce_bricks b bricks = Ok (b, []).
Proof.
  induction 1 as [|[i br] rest C _ IH]; [reflexivity|]. cbn [bounce_bricks snd] in *.
  rewrite C. cbn [bind]. rewrite IH. reflexivity.
Qed.

Lemma bricks_above_mono (y y' : Q) (bricks : list (ObjId * Brick)) :
  y' <= y -> bricks_above y bricks -> bricks_above y' bricks.
Proof. intros Hy. apply Forall_impl. intros ib H. lra. Qed.

(** A brick above the ball does not touch it, whatever its velocity. *)
Lemma bricks_above_clear (b : Ball) (bricks : list (ObjId * Brick)) :
  bricks_above (vy (ball_position b)) bricks -> bounce_bricks b bricks = Ok (b, []).
Proof.
  intros H. apply bounce_bricks_none. refine (Forall_impl _ _ H). intros [i br] Hbr.
  apply collides_apart_y. cbn [position height Ball_Sized Brick_Sized snd] in *.
  destruct (Qabs_bounds (vy (ball_position b) - vy (brick_position br))). lra.
Qed.

(** The ball's advanced position, coordinate by coordinate. *)
Lemma falling_advance (x y vy dt : Q) :
  Ball_advance (falling x y vy) dt = falling (x + 0 * dt) (y + vy * dt) vy.
Proof. reflexivity. Qed.

(** Close a separation goal [d <= 2 * Qabs e] by the sign of [e]. *)
Ltac apart :=
  cbn [position width height Wall_Sized Ball_Sized Paddle_Sized Wall_new wall_position wall_width
       wall_height ball_position falling vx vy];
  match goal with |- _ <= 2 * Qabs ?e => destruct (Qabs_bounds e); lra end.

(** Close an overlap goal [2 * Qabs e < c] by bounding [e]. *)
Ltac near :=
  match goal with
  |- 2 * Qabs ?e < ?c =>
      assert (Qabs e < c * (1 # 2)) by (apply Qabs_Qlt_condition; split; lra); lra
  end.

Section Falling.

Variables (vel dt : Q) (p : Paddle) (bricks : list (ObjId * Brick)).

(** The ball moves down by a positive step shorter than 2 per frame. *)
Hypothesis Hstep : 0 < - (vel * dt) /\ - (vel * dt) < 2.

Lemma paddle_clear (x y : Q) :
  1 + paddle_width p <= 2 * Qabs (x - vx (paddle_position p)) ->
  collides (falling (x + 0 * dt) y vel) p = false.
Proof.
  intros Hp. apply collides_apart_x. cbn [position width Ball_Sized Paddle_Sized ball_position falling vx].
  setoid_replace (x + 0 * dt) with x by ring. exact Hp.
Qed.

(** Inside the field and clear of the paddle, a frame only moves the
    ball. *)
Lemma tick_clear (x y : Q) :
  Qabs x < 11 -> 1 + paddle_width p <= 2 * Qabs (x - vx (paddle_position p)) ->
  -(31 # 2) <= y + vel * dt \/ y + vel * dt <= -(35 # 2) -> y + vel * dt < 31 # 2 ->
  bricks_above (y + vel * dt) bricks ->
  Ball_on_update (falling x y vel) dt game_walls [p] bricks =
  Ok (falling (x + 0 * dt) (y + vel * dt) vel, []).
Proof.
  intros Hx Hp Hlo Hhi Hb. apply Qabs_lt_bounds in Hx. destruct Hlo as [Hlo|Hlo];
    (unfold Ball_on_update; rewrite falling_advance, bounce_walls_none;
     [cbn beta iota; rewrite paddle_clear by exact Hp; rewrite bricks_above_clear by exact Hb;
      reflexivity|]);
    repeat constructor; first [apply collides_apart_y; apart | apply collides_apart_x; apart].
Qed.

(** The frame whose move takes the ball below [-15.5] lands it on the
    deadly bottom wall. *)
Lemma tick_hit (x y : Q) :
  Qabs x < 11 -> 1 + paddle_width p <= 2 * Qabs (x - vx (paddle_position p)) ->
  -(31 # 2) <= y -> y + vel * dt < -(31 # 2) -> bricks_above (y + vel * dt) bricks ->
  exists b' sent, Ball_on_update (falling x y vel) dt game_walls [p] bricks = Ok (b', sent) /\
    In (ReplaceScene EndScreen) sent.
Proof.
  intros Hx Hp Hlo Hhit Hb. apply Qabs_lt_bounds in Hx.
  unfold Ball_on_update. rewrite bounce_walls_spec, falling_advance. cbn beta iota.
  match goal with |- context [bounce_bricks ?b bricks] =>
    rewrite (bricks_above_clear b bricks) by (destruct (collides _ p); exact Hb) end.
  cbn [bind].
  eexists; eexists; split; [reflexivity|]. apply in_or_app. left.
  apply in_deadly_signals. split; [reflexivity|].
  exists (Wall_new 26 1 (mkVector 0 (-33 # 2)) directions.Up true).
  split; [unfold game_walls; right; left; reflexivity|]. split; [reflexivity|].
  apply collides_overlap; cbn [position width height Wall_Sized Ball_Sized Wall_new wall_position
    wall_width wall_height ball_position falling vx vy]; try qcompute; near.
Qed.

(** Once [N] steps cover the way down to the bottom wall, the ball hits it
    within [N] frames. *)
Lemma fall_reaches (N : nat) : forall x y,
  Qabs x < 11 -> 1 + paddle_width p <= 2 * Qabs (x - vx (paddle_position p)) ->
  -(31 # 2) <= y -> y < 31 # 2 -> y + (31 # 2) < inject_Z (Z.of_nat N) * - (vel * dt) ->
  bricks_above y bricks ->
  exists n b' sent, ball_ticks n (falling x y vel) dt game_walls [p] bricks = Ok (b', sent) /\
    In (ReplaceScene EndScreen) sent.
Proof.
  destruct Hstep as [Hs0 Hs2].
  induction N as [|N IH]; intros x y Hx Hp Hlo Hhi HN Hb;
    assert (Hb' : bricks_above (y + vel * dt) bricks) by (apply (bricks_above_mono y); [lra | exact Hb]).
  - change (inject_Z (Z.of_nat 0)) with 0 in HN. rewrite Qmult_0_l in HN. lra.
  - destruct (Qlt_le_dec (y + vel * dt) (-(31 # 2))) as [Hit|Clear].
    + destruct (tick_hit x y Hx Hp Hlo Hit Hb') as [b' [sent [H Hin]]].
      exists 1%nat, b', (sent ++ []). cbn [ball_ticks]. rewrite H. cbn [bind].
      split; [reflexivity | apply in_or_app; left; exact Hin].
    + assert (Hx' : Qabs (x + 0 * dt) < 11) by (setoid_replace (x + 0 * dt) with x by ring; exact Hx).
      assert (Hp' : 1 + paddle_width p <= 2 * Qabs (x + 0 * dt - vx (paddle_position p)))
        by (setoid_replace (x + 0 * dt) with x by ring; exact Hp).
      rewrite inject_Z_of_nat_S in HN.
      destruct (IH (x + 0 * dt) (y + vel * dt) Hx' Hp' Clear ltac:(lra) ltac:(lra) Hb')
        as [n [b' [sent [H Hin]]]].
      exists (S n), b', ([] ++ sent). cbn [ball_ticks].
      rewrite (tick_clear x y Hx Hp (or_introl Clear) ltac:(lra) Hb'). cbn [bind]. rewrite H. cbn [bind].
      split; [reflexivity | exact Hin].
Qed.

End Falling.

(** C28: in the [Game] of 3.4-the-blocks, among its four walls and its
    paddle, a ball falling straight down from inside the field, away from
    the paddle and below every brick, ends the game: after finitely many
    frames its update signals [ReplaceScene(EndScreen)], provided it moves
    less than 2 (ball and wall heights) per frame. *)
Theorem falling_ball_ends_game (x y vel dt : Q) (p : Paddle) (bricks : list (ObjId * Brick)) :
  0 < - (vel * dt) -> - (vel * dt) < 2 -> Qabs x < 11 ->
  1 + paddle_width p <= 2 * Qabs (x - vx (paddle_position p)) ->
  -(31 # 2) <= y -> y < 31 # 2 -> bricks_above y bricks ->
  exists n b' sent, ball_ticks n (falling x y vel) dt game_walls [p] bricks = Ok (b', sent) /\
    In (ReplaceScene EndScreen) sent.
Proof.
  intros H0 H2 Hx Hp Hlo Hhi Hb.
  destruct (steps_cover (y + (31 # 2) + 1) (- (vel * dt)) H0) as [N HN].
  exact (fall_reaches vel dt p bricks (conj H0 H2) N x y Hx Hp Hlo Hhi ltac:(lra) Hb).
Qed.

(** The ball dropped at [(-8, -5)] in the game as [Game.__init__] builds
    it: its paddle and its 70 bricks, all of them above the ball. *)
Lemma falling_ball_ends_game_witness :
  0 < - (-13 * game_time_delta) /\ - (-13 * game_time_delta) < 2 /\ Qabs (-8) < 11 /\
  1 + paddle_width (Paddle_new (mkVector 0 (-14))) <=
    2 * Qabs (-8 - vx (paddle_position (Paddle_new (mkVector 0 (-14))))) /\
  -(31 # 2) <= -5 /\ -5 < 31 # 2 /\ bricks_above (-5) (scene_bricks (Scene_new V34 Game)) /\
  exists n b' sent, ball_ticks n (falling (-8) (-5) (-13)) game_time_delta game_walls
                      [Paddle_new (mkVector 0 (-14))] (scene_bricks (Scene_new V34 Game)) = Ok (b', sent) /\
    In (ReplaceScene EndScreen) sent.
Proof.
  assert (Hb : bricks_above (-5) (scene_bricks (Scene_new V34 Game)))
    by (vm_compute; repeat constructor; intros H; discriminate H).
  do 6 (split; [qcompute|]). split; [exact Hb|].
  apply falling_ball_ends_game; [qcompute .. | exact Hb].
Defined.

(** Below the field the ball meets nothing: every further frame only moves
    it. *)
Lemma fall_below (vel dt : Q) (p : Paddle) (n : nat) : forall x y,
  vel * dt < 0 -> Qabs x < 11 -> 1 + paddle_width p <= 2 * Qabs (x - vx (paddle_position p)) ->
  y + vel * dt <= -(35 # 2) ->
  exists b', ball_ticks n (falling x y vel) dt game_walls [p] [] = Ok (b', []).
Proof.
  induction n as [|n IH]; intros x y Hv Hx Hp Hy; [eexists; reflexivity|].
  assert (Hx' : Qabs (x + 0 * dt) < 11) by (setoid_replace (x + 0 * dt) with x by ring; exact Hx).
  assert (Hp' : 1 + paddle_width p <= 2 * Qabs (x + 0 * dt - vx (paddle_position p)))
    by (setoid_replace (x + 0 * dt) with x by ring; exact Hp).
  destruct (IH (x + 0 * dt) (y + vel * dt) Hv Hx' Hp' ltac:(lra)) as [b' H].
  exists b'. cbn [ball_ticks]. rewrite (tick_clear vel dt p [] x y Hx Hp (or_intror Hy) ltac:(lra) (Forall_nil _)).
  cbn [bind]. rewrite H. reflexivity.
Qed.

(** C29: the bound of 2 per frame in [falling_ball_ends_game] is needed.
    The ball touches the deadly wall while its centre is in the band
    (-17.5, -15.5); a ball at [y = -15] falling 3 per frame jumps from -15
    to -18 over that band, and no frame, however many, signals
    [ReplaceScene(EndScreen)]. *)
Theorem fast_ball_tunnels (n : nat) :
  exists b', ball_ticks n (falling 0 (-15) (-30)) (1 # 10) game_walls
               [Paddle_new (mkVector 5 (-14))] [] = Ok (b', []).
Proof. apply fall_below; qcompute. Qed.
