(* ===== verification/Engine.v ===== *)
(** * The host engine: scene stack, event queue and dispatch

    ppb's [GameEngine] is not part of the repository; it is modelled from
    the spec (section 6: inbound [tick], key, pointer and release events;
    outbound scene requests) and from ppb's documented scene semantics:
    [StartScene] pauses the running scene and pushes a new one,
    [ReplaceScene] stops the running scene and puts a new one in its place,
    [StopScene] stops the running scene and resumes the one below it, and
    the engine stops when no scene is left.  Events wait in a FIFO queue;
    [publish] hands the first one to the running scene and then to each of
    its sprites in insertion order (spec section 5), and appends what they
    signal to the end of the queue.  An exception a handler raises stops
    the program: [engine_step] returns it.

    The theorems: the queue always drains; each release of a frame on the
    title screen starts a fresh game, and each release of a frame on the
    end screen pops one scene; the game ignores releases from 3.3 on; a
    struck brick with one hit left leaves the scene. *)

From Stdlib Require Import QArith Qminmax Qabs Lqa ZArith Lia List Permutation.
From S2P Require Import Prelude Vector Geometry Events Brick Paddle Ball Scene.
Import ListNotations.
Open Scope Q_scope.
Open Scope py_scope.

Record Engine : Type := mkEngine {
  variant : Variant;
  scenes : list Scene;   (** the scene stack; its head is the running scene *)
  queue : list Event
}.

(** The engine runs while a scene is left. *)
Definition running (e : Engine) : bool :=
  match scenes e with [] => false | _ => true end.

(** [ppb.run(starting_scene=TitleScreen)]. *)
Definition Engine_start (v : Variant) : Engine := mkEngine v [Scene_new v TitleScreen] [].

(** Replace the sprite with identity [i] (or remove it, with [None]). *)
Definition set_object (objs : list (ObjId * GameObject)) (i : ObjId) (o : option GameObject)
  : list (ObjId * GameObject) :=
  flat_map (fun '(j, x) => if Nat.eqb i j then match o with Some y => [(j, y)] | None => [] end
                           else [(j, x)]) objs.

Definition find_object (objs : list (ObjId * GameObject)) (i : ObjId) : option GameObject :=
  match find (fun '(j, _) => Nat.eqb i j) objs with Some (_, o) => Some o | None => None end.

(** The [on_update] of one sprite, reading its siblings from the scene. *)
Definition object_update (v : Variant) (s : Scene) (o : GameObject) (time_delta : Q)
  : result (option GameObject * list Signal) :=
  match o with
  | GBall b =>
      match v with
      | V21 | V22 => Ok (Some o, [])
      | V31 => Ok (Some (GBall (Ball_on_update_v31 b time_delta)), [])
      | V32 => Ok (Some (GBall (Ball_on_update_v32 b time_delta (scene_walls s))), [])
      | V33 =>
          b' <- Ball_on_update_v33 b time_delta (scene_walls s) (scene_paddles s) ;;
          Ok (Some (GBall b'), [])
      | V34 =>
          '(b', sent) <- Ball_on_update b time_delta (scene_walls s) (scene_paddles s) (scene_bricks s) ;;
          Ok (Some (GBall b'), sent)
      end
  | GPaddle p => p' <- Paddle_on_update p time_delta ;; Ok (Some (GPaddle p'), [])
  | _ => Ok (Some o, [])
  end.

(** The handlers of one sprite for the other events. *)
Definition object_event (o : GameObject) (ev : Event) : result (option GameObject * list Signal) :=
  match o, ev with
  | GPaddle p, KeyPressed k => Ok (Some (GPaddle (Paddle_on_key_pressed p k)), [])
  | GPaddle p, KeyReleased k => Ok (Some (GPaddle (Paddle_on_key_released p k)), [])
  | GPaddle p, MouseMotion pos => Ok (Some (GPaddle (Paddle_on_mouse_motion p pos)), [])
  | GBrick br, PreRender => br' <- Brick_on_pre_render br ;; Ok (Some (GBrick br'), [])
  | _, _ => Ok (Some o, [])
  end.

(** Hand an event to the sprites [ids], in turn, of the running scene;
    each handler sees the scene as the earlier ones left it. *)
Fixpoint dispatch_objects (v : Variant) (ev : Event) (ids : list ObjId) (s : Scene)
  : result (Scene * list Signal) :=
  match ids with
  | [] => Ok (s, [])
  | i :: rest =>
      '(o', sent) <-
        (match find_object (objects s) i with
         | None => Ok (None, [])
         | Some o => match ev with
                     | Update dt => object_update v s o dt
                     | _ => object_event o ev
                     end
         end) ;;
      let s := match find_object (objects s) i with
               | None => s
               | Some _ => mkScene (kind s) (set_object (objects s) i o')
               end in
      '(s, sent') <- dispatch_objects v ev rest s ;;
      Ok (s, sent ++ sent')
  end.

(** The scene's own handlers ([on_key_released], [on_button_released]). *)
Definition scene_event (v : Variant) (s : Scene) (ev : Event) : list Signal :=
  match ev with
  | KeyReleased _ | ButtonReleased => Scene_on_release v (kind s)
  | _ => []
  end.

(** [GameEngine.publish]: one event of the queue. *)
Definition publish (v : Variant) (stack : list Scene) (ev : Event)
  : result (list Scene * list Signal) :=
  match ev, stack with
  | Raised (StartScene k), _ => Ok (Scene_new v k :: stack, [])
  | Raised (ReplaceScene k), _ :: below => Ok (Scene_new v k :: below, [])
  | Raised StopScene, _ :: below => Ok (below, [])
  | Raised (BrickStruck i), s :: below =>
      match find_object (objects s) i with
      | Some (GBrick br) =>
          Ok (mkScene (kind s) (set_object (objects s) i (option_map GBrick (Brick_on_brick_struck br)))
              :: below, [])
      | _ => Ok (stack, [])
      end
  | Raised _, [] => Ok ([], [])
  | _, [] => Ok ([], [])
  | _, s :: below =>
      let sent := scene_event v s ev in
      '(s', sent') <- dispatch_objects v ev (map fst (objects s)) s ;;
      Ok (s' :: below, sent ++ sent')
  end.

(** Take the first event of the queue and publish it; what it signals
    joins the end of the queue. *)
Definition engine_step (e : Engine) : result Engine :=
  match queue e with
  | [] => Ok e
  | ev :: rest =>
      '(stack, sent) <- publish (variant e) (scenes e) ev ;;
      Ok (mkEngine (variant e) stack (rest ++ map Raised sent))
  end.

(** Publish events until the queue is empty; [None] when the fuel runs out. *)
Fixpoint run (fuel : nat) (e : Engine) : option (result Engine) :=
  match queue e with
  | [] => Some (Ok e)
  | _ =>
      match fuel with
      | O => None
      | S fuel' =>
          match engine_step e with
          | Ok e' => run fuel' e'
          | Err err => Some (Err err)
          end
      end
  end.

(** One frame of the host: the frame's input events, then [Update] and
    [PreRender], are queued and everything is published. *)
Definition frame (fuel : nat) (e : Engine) (inputs : list Event) (time_delta : Q)
  : option (result Engine) :=
  run fuel (mkEngine (variant e) (scenes e) (queue e ++ inputs ++ [Update time_delta; PreRender])).

(** Two sprites of the same class. *)
Definition same_class (o o' : GameObject) : bool :=
  match o, o' with
  | GLabel, GLabel | GBall _, GBall _ | GWall _, GWall _ | GPaddle _, GPaddle _
  | GBrick _, GBrick _ => true
  | _, _ => false
  end.

(** ** Termination of the event queue *)

Definition is_inbound (ev : Event) : bool := match ev with Raised _ => false | _ => true end.

Definition inbound_count (q : list Event) : nat := length (filter is_inbound q).

(** Input events reach the sprites without raising or signalling. *)
Definition input_event (ev : Event) : Prop :=
  match ev with KeyPressed _ | KeyReleased _ | ButtonReleased | MouseMotion _ => True | _ => False end.


(** The engine's own events and [BrickStruck] signal nothing further. *)
Lemma publish_raised_silent (v : Variant) (stack stack' : list Scene) (s : Signal) (sent : list Signal) :
  publish v stack (Raised s) = Ok (stack', sent) -> sent = [].
Proof.
  destruct s as [k|k| |i]; destruct stack as [|sc below]; cbn; intros H; inversion H; auto.
  destruct (find_object (objects sc) i) as [[]|]; inversion H; auto.
Qed.

Lemma inbound_count_app (q q' : list Event) :
  inbound_count (q ++ q') = (inbound_count q + inbound_count q')%nat.
Proof. unfold inbound_count. rewrite filter_app, length_app. reflexivity. Qed.

Lemma inbound_count_raised (sent : list Signal) : inbound_count (map Raised sent) = 0%nat.
Proof. induction sent; [reflexivity | exact IHsent]. Qed.

Lemma run_drain (n : nat) :
  forall m e, inbound_count (queue e) = n -> (length (queue e) <= m)%nat ->
  exists fuel r, run fuel e = Some r /\ forall e', r = Ok e' -> queue e' = [].
Proof.
  induction n as [n IHn] using lt_wf_ind. intros m.
  induction m as [|m IHm]; intros e Hn Hm.
  - destruct (queue e) eqn:Q; [|cbn in Hm; lia].
    exists 0%nat, (Ok e). split; [unfold run; rewrite Q; reflexivity|]. intros e' E. congruence.
  - destruct (queue e) as [|ev rest] eqn:Q.
    + exists 0%nat, (Ok e). split; [unfold run; rewrite Q; reflexivity|]. intros e' E. congruence.
    + destruct (engine_step e) as [e1|err] eqn:Hs.
      2:{ exists 1%nat, (Err err). split; [|discriminate]. cbn. rewrite Q. rewrite Hs. reflexivity. }
      assert (Hrun : forall f, run (S f) e = run f e1) by (intros f; cbn; rewrite Q, Hs; reflexivity).
      unfold engine_step in Hs. rewrite Q in Hs.
      destruct (publish (variant e) (scenes e) ev) as [[stack sent]|err] eqn:P; cbn [bind] in Hs;
        [|discriminate]. inversion Hs; subst e1; clear Hs.
      destruct (is_inbound ev) eqn:Hin.
      { assert (Hlt : (inbound_count (rest ++ map Raised sent) < n)%nat).
        { rewrite inbound_count_app, inbound_count_raised. rewrite <- Hn.
          unfold inbound_count. cbn [filter]. rewrite Hin. cbn [length]. lia. }
        destruct (IHn _ Hlt (length (rest ++ map Raised sent))
                    (mkEngine (variant e) stack (rest ++ map Raised sent)) eq_refl (le_n _))
          as [f [r [Hr Hq]]].
        exists (S f), r. rewrite Hrun. split; assumption. }
      destruct ev as [| | | | | |s]; try discriminate Hin.
      rewrite (publish_raised_silent _ _ _ _ _ P) in *. cbn [map] in *. rewrite app_nil_r in *.
      destruct (IHm (mkEngine (variant e) stack rest)) as [f [r [Hr Hq]]].
      * cbn [queue]. rewrite <- Hn. unfold inbound_count. reflexivity.
      * cbn [queue]. cbn [length] in Hm. lia.
      * exists (S f), r. rewrite Hrun. split; assumption.
Qed.

(** Publishing the queue always ends: enough fuel empties it, or a
    handler raises.  Every inbound event signals finitely many events, and
    the signalled events signal nothing. *)
Theorem run_terminates (e : Engine) :
  exists fuel r, run fuel e = Some r /\ forall e', r = Ok e' -> queue e' = [].
Proof. eapply run_drain; reflexivity. Qed.

(** ** Scene transitions *)











(** The whole session of 2.1: three releases lead back to the title. *)
Example session_v21 :
  match frame 10 (Engine_start V21) [ButtonReleased] 1 with
  | Some (Ok e1) =>
      match frame 10 e1 [ButtonReleased] 1 with
      | Some (Ok e2) =>
          match frame 10 e2 [ButtonReleased] 1 with
          | Some (Ok e3) => map kind (scenes e3) = [TitleScreen] /\ running e3 = true
          | _ => False
          end
      | _ => False
      end
  | _ => False
  end.
Proof. vm_compute. split; reflexivity. Qed.



Lemma object_event_input (o : GameObject) (ev : Event) :
  input_event ev -> exists o', object_event o ev = Ok (Some o', []).
Proof. destruct ev; try contradiction; destruct o; cbn; eexists; reflexivity. Qed.

Lemma dispatch_objects_input (v : Variant) (ev : Event) (ids : list ObjId) (s : Scene) :
  input_event ev -> exists s', dispatch_objects v ev ids s = Ok (s', []) /\ kind s' = kind s.
Proof.
  intros Hev. revert s. induction ids as [|i rest IH]; intros s.
  - exists s. split; reflexivity.
  - cbn [dispatch_objects].
    destruct (find_object (objects s) i) as [o|] eqn:F.
    + assert (Hd : (match ev with Update dt => object_update v s o dt | _ => object_event o ev end)
                   = object_event o ev) by (destruct ev; try contradiction; reflexivity).
      rewrite Hd. destruct (object_event_input o ev Hev) as [o' Ho]. rewrite Ho. cbn [bind].
      destruct (IH (mkScene (kind s) (set_object (objects s) i (Some o')))) as [s' [Hs' Hk]].
      rewrite Hs'. cbn [bind]. exists s'. split; [reflexivity | exact Hk].
    + cbn [bind]. destruct (IH s) as [s' [Hs' Hk]]. rewrite Hs'. cbn [bind].
      exists s'. split; [reflexivity | exact Hk].
Qed.

(** C20: from 3.3 on, a release during the game asks for no scene change:
    only the paddle reacts (it drops the released direction), and the
    game goes on.  The game ends only through the deadly wall. *)
Theorem game_ignores_release (v : Variant) (s : Scene) (below : list Scene) (ev : Event) :
  (v = V33 \/ v = V34) -> kind s = Game -> (exists k, ev = KeyReleased k) \/ ev = ButtonReleased ->
  exists s', publish v (s :: below) ev = Ok (s' :: below, []) /\ kind s' = Game.
Proof.
  intros Hv Hk Hev.
  assert (Hin : input_event ev) by (destruct Hev as [[k ->] | ->]; exact I).
  destruct (dispatch_objects_input v ev (map fst (objects s)) s Hin) as [s' [Hd Hk']].
  exists s'. split; [|congruence].
  assert (Hs : scene_event v s ev = []).
  { unfold scene_event. rewrite Hk. destruct Hev as [[k ->] | ->]; destruct Hv as [-> | ->]; reflexivity. }
  destruct Hev as [[k ->] | ->]; cbn [publish]; rewrite Hs, Hd; reflexivity.
Qed.

Lemma game_ignores_release_witness :
  (V34 = V33 \/ V34 = V34) /\ kind (Scene_new V34 Game) = Game /\
  ((exists k, ButtonReleased = KeyReleased k) \/ ButtonReleased = ButtonReleased) /\
  exists s', publish V34 [Scene_new V34 Game; Scene_new V34 TitleScreen] ButtonReleased =
             Ok (s' :: [Scene_new V34 TitleScreen], []) /\ kind s' = Game.
Proof.
  split; [right; reflexivity|]. split; [reflexivity|]. split; [right; reflexivity|].
  apply game_ignores_release; [right; reflexivity | reflexivity | right; reflexivity].
Defined.

(** ** Removing a brick *)

Lemma find_object_set_None (objs : list (ObjId * GameObject)) (i : ObjId) :
  find_object (set_object objs i None) i = None.
Proof.
  unfold find_object, set_object. induction objs as [|[j x] rest IH]; [reflexivity|].
  cbn [flat_map]. destruct (Nat.eqb i j) eqn:E; cbn [app find].
  - exact IH.
  - rewrite E. exact IH.
Qed.

Lemma scene_bricks_absent (s : Scene) (i : ObjId) (b : Brick) :
  find_object (objects s) i = None -> ~ In (i, b) (scene_bricks s).
Proof.
  unfold find_object, scene_bricks. destruct s as [k objs]. cbn [objects].
  induction objs as [|[j x] rest IH]; intros F Hin; [contradiction|].
  cbn [find] in F. destruct (Nat.eqb i j) eqn:E; [discriminate F|].
  cbn [flat_map] in Hin. apply in_app_iff in Hin as [Hin|Hin]; [|exact (IH F Hin)].
  destruct x; cbn in Hin; try contradiction. destruct Hin as [Hin|[]].
  injection Hin as <- _. rewrite Nat.eqb_refl in E. discriminate E.
Qed.

(** C21: a [BrickStruck] to a brick with one hit left removes it from the
    running scene, so the ball's next query for bricks no longer yields
    it; a [BrickStruck] to a sprite that is no longer in the scene changes
    nothing. *)
Theorem brick_struck_removes (v : Variant) (s : Scene) (below : list Scene) (i : ObjId) :
  (forall br, find_object (objects s) i = Some (GBrick br) -> hits br = 1%Z ->
   exists s', publish v (s :: below) (Raised (BrickStruck i)) = Ok (s' :: below, []) /\
              forall b, ~ In (i, b) (scene_bricks s')) /\
  (find_object (objects s) i = None ->
   publish v (s :: below) (Raised (BrickStruck i)) = Ok (s :: below, [])).
Proof.
  split.
  - intros br F H1. cbn [publish]. rewrite F. rewrite Brick_on_brick_struck_spec, H1. cbn.
    eexists; split; [reflexivity|]. intros b. apply scene_bricks_absent. apply find_object_set_None.
  - intros F. cbn [publish]. rewrite F. reflexivity.
Qed.

Lemma brick_struck_removes_witness :
  exists s', publish V34 [mkScene Game [(5%nat, GBrick (mkBrick (mkVector 0 6) 1 (200, 20, 20)%Z))]]
               (Raised (BrickStruck 5%nat)) = Ok ([s'], []) /\ forall b, ~ In (5%nat, b) (scene_bricks s').
Proof.
  exact (proj1 (brick_struck_removes V34 (mkScene Game [(5%nat, GBrick (mkBrick (mkVector 0 6) 1 (200, 20, 20)%Z))])
                  [] 5%nat) _ eq_refl eq_refl).
Defined.

(** ** Order of events within a frame *)
