(* ===== verification/Invariants.v ===== *)
(** * Well-formed scenes along the engine's steps

    The ball's update of 3.3-the-paddle and 3.4-the-blocks calls
    [next(event.scene.get(kind=Paddle))], which raises [StopIteration] in a
    scene without a paddle (spec section 7: "the paddle lookup assumes
    exactly one exists").  This file shows that the assumption holds in
    every state the engine can reach: each scene keeps distinct sprite
    identities, its bricks keep between 1 and 3 hits, its paddle keeps its
    row, and a [Game] scene of those variants keeps exactly one paddle.

    - [scene_wf] holds of every scene [Scene_new] builds;
    - the Section [SceneInvariant] shows, for any property of scenes that
      [Scene_new] establishes and that [dispatch_objects] and a brick's
      [on_brick_struck] keep, that [publish] and [engine_step] keep it
      and that it holds in every reachable state ([reachable_inv]);
    - every handler keeps each sprite well formed and of the same class,
      so [scene_wf] is such a property and [engine_step] keeps [engine_wf];
    - [engine_reachable] closes [Engine_start] under the host's input
      (key, button, mouse, [Update] with a non-negative time step and
      [PreRender]) and under [engine_step]; every reachable state is
      well formed;
    - in 3.4 the only exception a reachable state can raise is the
      [ZeroDivisionError] of a ball centred on a brick it strikes. *)

From Stdlib Require Import QArith Qminmax Qabs Lqa ZArith Lia List Permutation.
From S2P Require Import Prelude Vector Geometry Events Brick Paddle Ball Scene Engine.
Import ListNotations.
Open Scope Q_scope.
Open Scope py_scope.

Definition is_paddle (o : GameObject) : bool :=
  match o with GPaddle _ => true | _ => false end.

Definition is_ball (o : GameObject) : bool :=
  match o with GBall _ => true | _ => false end.

(** The number of sprites of a class. *)
Definition count_of (P : GameObject -> bool) (objs : list (ObjId * GameObject)) : nat :=
  length (filter (fun io => P (snd io)) objs).

(** What each sprite keeps: a brick's hit count, a paddle's invariant. *)
Definition obj_wf (o : GameObject) : Prop :=
  match o with
  | GBrick br => brick_inv br
  | GPaddle p => paddle_inv p
  | _ => True
  end.

(** The variants whose ball looks up "the" paddle. *)
Definition has_paddle (v : Variant) : bool :=
  match v with V33 | V34 => true | _ => false end.

Definition scene_wf (v : Variant) (s : Scene) : Prop :=
  NoDup (map fst (objects s)) /\
  Forall (fun io => obj_wf (snd io)) (objects s) /\
  (kind s = Game -> has_paddle v = true -> count_of is_paddle (objects s) = 1%nat) /\
  (kind s <> Game -> count_of is_ball (objects s) = 0%nat).

(** The time steps waiting in the queue are non-negative. *)
Definition update_ok (ev : Event) : Prop :=
  match ev with Update dt => 0 <= dt | _ => True end.

Definition engine_wf (e : Engine) : Prop :=
  Forall (scene_wf (variant e)) (scenes e) /\ Forall update_ok (queue e).

(** What the host adds to the queue: input events and the frame's
    [Update] and [PreRender]; never a signal. *)
Definition host_event (ev : Event) : Prop :=
  match ev with Update dt => 0 <= dt | Raised _ => False | _ => True end.

Inductive engine_reachable (v : Variant) : Engine -> Prop :=
| reach_start : engine_reachable v (Engine_start v)
| reach_input (e : Engine) (evs : list Event) :
    engine_reachable v e -> Forall host_event evs ->
    engine_reachable v (mkEngine (variant e) (scenes e) (queue e ++ evs))
| reach_step (e e' : Engine) :
    engine_reachable v e -> engine_step e = Ok e' -> engine_reachable v e'.

(** ** The object store *)

Lemma find_object_In (objs : list (ObjId * GameObject)) (i : ObjId) (o : GameObject) :
  find_object objs i = Some o -> In (i, o) objs.
Proof.
  unfold find_object. destruct (find (fun '(j, _) => Nat.eqb i j) objs) as [[j x]|] eqn:F;
    intros H; inversion H; subst.
  apply find_some in F as [Hin E]. apply Nat.eqb_eq in E. subst. exact Hin.
Qed.

Lemma find_object_None (objs : list (ObjId * GameObject)) (i : ObjId) :
  find_object objs i = None -> ~ In i (map fst objs).
Proof.
  unfold find_object. destruct (find (fun '(j, _) => Nat.eqb i j) objs) as [[j x]|] eqn:F;
    intros H; [discriminate|].
  intros Hin. apply in_map_iff in Hin as [[j x] [E Hin]]. cbn in E. subst j.
  apply (find_none _ _ F) in Hin. rewrite Nat.eqb_refl in Hin. discriminate.
Qed.

Lemma NoDup_fst_unique {A B : Type} (l : list (A * B)) (a : A) (x y : B) :
  NoDup (map fst l) -> In (a, x) l -> In (a, y) l -> x = y.
Proof.
  induction l as [|[a' z] l IH]; intros Hnd Hx Hy; [contradiction|].
  cbn in Hnd. inversion Hnd as [|? ? Hnot Hnd']; subst.
  destruct Hx as [Ex|Hx], Hy as [Ey|Hy].
  - congruence.
  - injection Ex as E1 E2. subst. exfalso. apply Hnot, in_map_iff. eexists; split; [|exact Hy]; reflexivity.
  - injection Ey as E1 E2. subst. exfalso. apply Hnot, in_map_iff. eexists; split; [|exact Hx]; reflexivity.
  - exact (IH Hnd' Hx Hy).
Qed.

Lemma set_object_fst_Some (objs : list (ObjId * GameObject)) (i : ObjId) (o : GameObject) :
  map fst (set_object objs i (Some o)) = map fst objs.
Proof.
  unfold set_object. induction objs as [|[j x] rest IH]; [reflexivity|].
  cbn [flat_map]. destruct (Nat.eqb i j) eqn:E; cbn; rewrite IH; [apply Nat.eqb_eq in E; subst|]; reflexivity.
Qed.

Lemma set_object_fst_None (objs : list (ObjId * GameObject)) (i : ObjId) :
  map fst (set_object objs i None) = filter (fun j => negb (Nat.eqb i j)) (map fst objs).
Proof.
  unfold set_object. induction objs as [|[j x] rest IH]; [reflexivity|].
  cbn [flat_map map filter fst]. destruct (Nat.eqb i j); cbn; rewrite IH; reflexivity.
Qed.

Lemma set_object_Forall (P : ObjId * GameObject -> Prop) (objs : list (ObjId * GameObject))
    (i : ObjId) (oo : option GameObject) :
  Forall P objs -> (forall o, oo = Some o -> P (i, o)) -> Forall P (set_object objs i oo).
Proof.
  unfold set_object. intros Hall Hnew. induction Hall as [|[j x] rest Hx _ IH]; [constructor|].
  cbn [flat_map]. apply Forall_app. split; [|exact IH].
  destruct (Nat.eqb i j) eqn:E; [|repeat constructor; exact Hx].
  apply Nat.eqb_eq in E. subst j. destruct oo as [o|]; repeat constructor. now apply Hnew.
Qed.

Lemma set_object_count (P : GameObject -> bool) (objs : list (ObjId * GameObject)) (i : ObjId)
    (oo : option GameObject) :
  (forall x, In (i, x) objs -> P x = match oo with Some y => P y | None => false end) ->
  count_of P (set_object objs i oo) = count_of P objs.
Proof.
  induction objs as [|[j x] rest IH]; intros H; [reflexivity|].
  change (set_object ((j, x) :: rest) i oo) with
    ((if Nat.eqb i j then match oo with Some y => [(j, y)] | None => [] end else [(j, x)])
     ++ set_object rest i oo).
  unfold count_of in *. rewrite filter_app, length_app.
  rewrite IH by (intros y Hy; apply H; right; exact Hy).
  cbn [filter snd]. destruct (Nat.eqb i j) eqn:E.
  - apply Nat.eqb_eq in E. subst j. rewrite (H x (or_introl eq_refl)).
    destruct oo as [y|]; cbn; [destruct (P y)|]; reflexivity.
  - cbn. destruct (P x); reflexivity.
Qed.

Lemma find_object_cons (k : ObjId) (x : GameObject) (rest : list (ObjId * GameObject)) (i : ObjId) :
  find_object ((k, x) :: rest) i = if Nat.eqb i k then Some x else find_object rest i.
Proof. unfold find_object. cbn [find]. destruct (Nat.eqb i k); reflexivity. Qed.

Lemma set_object_cons (k : ObjId) (x : GameObject) (rest : list (ObjId * GameObject))
    (i : ObjId) (oo : option GameObject) :
  set_object ((k, x) :: rest) i oo =
  (if Nat.eqb i k then match oo with Some y => [(k, y)] | None => [] end else [(k, x)])
  ++ set_object rest i oo.
Proof. reflexivity. Qed.

(** ** Replacing and removing one sprite keeps a scene well formed *)

Lemma same_class_is (o o' : GameObject) :
  same_class o o' = true -> is_paddle o' = is_paddle o /\ is_ball o' = is_ball o.
Proof. destruct o, o'; cbn; intros H; try discriminate H; split; reflexivity. Qed.

(** In a well-formed scene an identity names one sprite. *)
Lemma scene_wf_unique (v : Variant) (s : Scene) (i : ObjId) (o : GameObject) :
  scene_wf v s -> find_object (objects s) i = Some o -> forall x, In (i, x) (objects s) -> x = o.
Proof. intros [Hnd _] F x Hx. exact (NoDup_fst_unique _ _ _ _ Hnd Hx (find_object_In _ _ _ F)). Qed.

Lemma scene_wf_set (v : Variant) (s : Scene) (i : ObjId) (o o' : GameObject) :
  scene_wf v s -> find_object (objects s) i = Some o ->
  obj_wf o' -> same_class o o' = true ->
  scene_wf v (mkScene (kind s) (set_object (objects s) i (Some o'))).
Proof.
  intros Hs F Hw Hc. pose proof (scene_wf_unique v s i o Hs F) as U.
  destruct (same_class_is o o' Hc) as [Ep Eb]. destruct Hs as [Hnd [Hall [Hp Hb]]].
  unfold scene_wf; cbn [objects kind]. split; [|split; [|split]].
  - rewrite set_object_fst_Some. exact Hnd.
  - apply set_object_Forall; [exact Hall|]. intros y Ey. injection Ey as <-. exact Hw.
  - intros Hk Hv. rewrite set_object_count; [exact (Hp Hk Hv)|].
    intros x Hx. rewrite (U x Hx). symmetry. exact Ep.
  - intros Hk. rewrite set_object_count; [exact (Hb Hk)|].
    intros x Hx. rewrite (U x Hx). symmetry. exact Eb.
Qed.

Lemma scene_wf_remove (v : Variant) (s : Scene) (i : ObjId) (o : GameObject) :
  scene_wf v s -> find_object (objects s) i = Some o -> is_paddle o = false -> is_ball o = false ->
  scene_wf v (mkScene (kind s) (set_object (objects s) i None)).
Proof.
  intros Hs F Hpad Hball. pose proof (scene_wf_unique v s i o Hs F) as U.
  destruct Hs as [Hnd [Hall [Hp Hb]]]. unfold scene_wf; cbn [objects kind]. split; [|split; [|split]].
  - rewrite set_object_fst_None. apply NoDup_filter, Hnd.
  - apply set_object_Forall; [exact Hall | discriminate].
  - intros Hk Hv. rewrite set_object_count; [exact (Hp Hk Hv)|]. intros x Hx. rewrite (U x Hx). exact Hpad.
  - intros Hk. rewrite set_object_count; [exact (Hb Hk)|]. intros x Hx. rewrite (U x Hx). exact Hball.
Qed.

(** ** Every handler keeps its sprite well formed and of its class *)

Lemma Brick_on_pre_render_hits (b b' : Brick) :
  Brick_on_pre_render b = Ok b' -> hits b' = hits b /\ brick_position b' = brick_position b.
Proof.
  unfold Brick_on_pre_render. destruct (py_index Brick_colors (hits b - 1)); cbn [bind];
    intros H; inversion H; subst; auto.
Qed.

Lemma paddle_step_wf (p p' : Paddle) : paddle_inv p -> paddle_step p p' -> obj_wf (GPaddle p').
Proof. intros Hp Hs. exact (proj1 (paddle_step_inv p p' Hp Hs)). Qed.

Lemma object_event_wf (o : GameObject) (ev : Event) (oo : option GameObject) (sent : list Signal) :
  obj_wf o -> object_event o ev = Ok (oo, sent) ->
  exists o', oo = Some o' /\ obj_wf o' /\ same_class o o' = true.
Proof.
  intros Hw. destruct o as [| b | w | p | br]; destruct ev; cbn [object_event]; intros H;
    try (destruct (Brick_on_pre_render br) as [br'|] eqn:R; cbn [bind] in H);
    inversion H; subst; eexists; (split; [reflexivity|]);
    try (split; [exact Hw | reflexivity]);
    try (split; [eapply paddle_step_wf; [exact Hw | constructor] | reflexivity]).
  destruct (Brick_on_pre_render_hits _ _ R) as [Hh _]. split; [|reflexivity].
  cbn [obj_wf]. unfold brick_inv. rewrite Hh. exact Hw.
Qed.

Lemma object_update_wf (v : Variant) (s : Scene) (o : GameObject) (dt : Q)
    (oo : option GameObject) (sent : list Signal) :
  obj_wf o -> 0 <= dt -> object_update v s o dt = Ok (oo, sent) ->
  exists o', oo = Some o' /\ obj_wf o' /\ same_class o o' = true.
Proof.
  intros Hw Hdt H. destruct o as [| b | w | p | br]; cbn [object_update] in H;
    [| destruct v | | |]; inv_bind H; inversion H; subst; eexists; (split; [reflexivity|]);
    try (split; [exact Hw | reflexivity]).
  split; [|reflexivity]. eapply paddle_step_wf; [exact Hw|]. econstructor; eassumption.
Qed.

Lemma handler_wf (v : Variant) (s : Scene) (o : GameObject) (ev : Event)
    (oo : option GameObject) (sent : list Signal) :
  obj_wf o -> update_ok ev ->
  match ev with Update dt => object_update v s o dt | _ => object_event o ev end = Ok (oo, sent) ->
  exists o', oo = Some o' /\ obj_wf o' /\ same_class o o' = true.
Proof. intros Hw Hev. destruct ev; [eapply object_update_wf; eassumption | ..]; apply object_event_wf, Hw. Qed.

Lemma scene_wf_find (v : Variant) (s : Scene) (i : ObjId) (o : GameObject) :
  scene_wf v s -> find_object (objects s) i = Some o -> obj_wf o.
Proof.
  intros [_ [Hall _]] F. apply find_object_In in F.
  exact (proj1 (Forall_forall _ _) Hall _ F).
Qed.

(** The sprites' handlers of one event keep the running scene well formed. *)
Lemma dispatch_objects_wf (v : Variant) (ev : Event) (ids : list ObjId) (s s' : Scene) (sent : list Signal) :
  scene_wf v s -> update_ok ev -> dispatch_objects v ev ids s = Ok (s', sent) ->
  scene_wf v s' /\ kind s' = kind s.
Proof.
  revert s sent. induction ids as [|i rest IH]; intros s sent Hs Hev H.
  - inversion H; subst. auto.
  - cbn [dispatch_objects] in H. destruct (find_object (objects s) i) as [o|] eqn:F.
    + inv_bind H. inversion H; subst.
      destruct (handler_wf v s o ev _ _ (scene_wf_find v s i o Hs F) Hev Hbind) as [o' [-> [Hw Hp]]].
      destruct (IH _ _ (scene_wf_set v s i o o' Hs F Hw Hp) Hev Hbind0) as [Hs' Hk].
      split; [exact Hs' | exact Hk].
    + inv_bind H. inversion H; subst. exact (IH _ _ Hs Hev Hbind0).
Qed.

(** ** The scenes as built are well formed *)

Lemma number_objects_from (l : list GameObject) (k : nat) :
  map fst (combine (A:=ObjId) (seq k (length l)) l) = seq k (length l) /\
  (forall P, count_of P (combine (A:=ObjId) (seq k (length l)) l) = length (filter P l)) /\
  (Forall obj_wf l -> Forall (fun io => obj_wf (snd io)) (combine (A:=ObjId) (seq k (length l)) l)).
Proof.
  revert k. induction l as [|o l IH]; intros k; [repeat split; constructor|].
  destruct (IH (S k)) as [H1 [H2 H3]]. cbn [length seq combine map fst filter snd].
  split; [rewrite H1; reflexivity|]. split.
  - intros P. specialize (H2 P). unfold count_of in *. cbn [filter snd].
    destruct (P o); cbn [length]; rewrite H2; reflexivity.
  - intros Hall. inversion Hall; subst. constructor; [assumption | apply H3; assumption].
Qed.

Lemma number_objects_wf (v : Variant) (k : SceneKind) (l : list GameObject) :
  Forall obj_wf l -> (k = Game -> has_paddle v = true -> length (filter is_paddle l) = 1%nat) ->
  (k <> Game -> length (filter is_ball l) = 0%nat) ->
  scene_wf v (mkScene k (number_objects l)).
Proof.
  intros Hall Hp Hb. destruct (number_objects_from l 0) as [H1 [H2 H3]].
  unfold scene_wf, number_objects. cbn [objects kind].
  change (combine (seq 0 (length l)) l) with (combine (A:=ObjId) (seq 0 (length l)) l).
  rewrite !H2.
  pose proof (seq_NoDup (length l) 0) as Hnd. rewrite <- H1 in Hnd.
  split; [exact Hnd|]. split; [exact (H3 Hall)|]. split; [exact Hp | exact Hb].
Qed.

Lemma Brick_new_inv (p : Vector) : brick_inv (Brick_new p).
Proof. unfold brick_inv, Brick_new, Brick_max_hits. cbn. lia. Qed.

Lemma grid_bricks_wf : Forall obj_wf (map GBrick grid_bricks).
Proof.
  apply Forall_forall. intros o Hin. apply in_map_iff in Hin as [br [<- Hin]].
  unfold grid_bricks in Hin. apply in_map_iff in Hin as [[x y] [<- _]]. apply Brick_new_inv.
Qed.

Lemma new_paddle_wf (p : Paddle) : 0 <= speed p -> control_scheme p = None -> obj_wf (GPaddle p).
Proof. intros Hs Hc. split; [exact Hs|]. rewrite Hc. discriminate. Qed.

Lemma walls_wf (l : list Wall) : Forall obj_wf (map GWall l).
Proof. apply Forall_forall. intros o Hin. apply in_map_iff in Hin as [w [<- _]]. exact I. Qed.

(** The sprites of a fresh scene, one by one. *)
Ltac wf_objects :=
  repeat first [ apply grid_bricks_wf | apply walls_wf | apply Forall_nil
               | apply Forall_app; split | apply Forall_cons
               | apply new_paddle_wf; [qcompute | reflexivity] | exact I ].

(** Every scene the program builds is well formed: its sprites have
    distinct identities, its bricks have 3 hits, its paddle has a
    non-negative speed and no control scheme yet, and the [Game] of
    3.3-the-paddle and 3.4-the-blocks has exactly one paddle, as the
    ball's [next(event.scene.get(kind=Paddle))] assumes. *)
Theorem Scene_new_wf (v : Variant) (k : SceneKind) : scene_wf v (Scene_new v k).
Proof.
  destruct k;
    [| | exact (number_objects_wf v EndScreen [] (Forall_nil _) ltac:(discriminate) (fun _ => eq_refl))];
    cbn [Scene_new]; destruct v; apply number_objects_wf;
    unfold TitleScreen_init, Game_init_v31, Game_init_v32, Game_init_v33, Game_init; try wf_objects;
    intros Hk; try intros Hv;
    first [discriminate Hk | discriminate Hv | exfalso; exact (Hk eq_refl) | vm_compute; reflexivity].
Qed.

(** ** Invariants of the scenes the engine keeps

    A property of scenes that every new scene has, that the sprites'
    handlers keep and that a brick's [on_brick_struck] keeps holds of
    every scene of every engine reachable from [ppb.run]. *)

Lemma engine_step_variant (e e' : Engine) : engine_step e = Ok e' -> variant e' = variant e.
Proof.
  unfold engine_step. destruct (queue e); intros H; [inversion H; reflexivity|].
  inv_bind H. inversion H. reflexivity.
Qed.

(** The signals an event raises join the queue; none is an [Update]. *)
Lemma engine_step_queue_ok (e e' : Engine) :
  Forall update_ok (queue e) -> engine_step e = Ok e' -> Forall update_ok (queue e').
Proof.
  intros Hq H. unfold engine_step in H. destruct (queue e) as [|ev rest] eqn:Q.
  - inversion H; subst. rewrite Q. constructor.
  - inv_bind H. inversion H; subst. apply Forall_cons_iff in Hq as [_ Hrest].
    cbn [queue]. apply Forall_app. split; [exact Hrest|]. apply Forall_forall.
    intros x Hx. apply in_map_iff in Hx as [sg [<- _]]. exact I.
Qed.

Lemma host_update_ok (evs : list Event) : Forall host_event evs -> Forall update_ok evs.
Proof. apply Forall_impl. intros [] H; cbn in H |- *; tauto. Qed.

Section SceneInvariant.

Variable v : Variant.
Variable Inv : Scene -> Prop.
Hypothesis Inv_new : forall k, Inv (Scene_new v k).
Hypothesis Inv_dispatch : forall ev ids s s' sent,
  Inv s -> update_ok ev -> dispatch_objects v ev ids s = Ok (s', sent) -> Inv s'.
Hypothesis Inv_struck : forall s i br,
  Inv s -> find_object (objects s) i = Some (GBrick br) ->
  Inv (mkScene (kind s) (set_object (objects s) i (option_map GBrick (Brick_on_brick_struck br)))).

Lemma publish_inv (stack stack' : list Scene) (ev : Event) (sent : list Signal) :
  Forall Inv stack -> update_ok ev -> publish v stack ev = Ok (stack', sent) -> Forall Inv stack'.
Proof.
  intros Hall Hev H.
  destruct stack as [|s below].
  { destruct ev as [| | | | | | sg]; [..| destruct sg]; cbn [publish] in H; inversion H; subst;
      repeat constructor; apply Inv_new. }
  apply Forall_cons_iff in Hall as [Hs Hbelow].
  destruct ev as [| | | | | | sg]; [..| destruct sg as [k|k| |i]]; cbn [publish] in H.
  all: try (inv_bind H; inversion H; subst;
            exact (Forall_cons _ (Inv_dispatch _ _ _ _ _ Hs Hev Hbind) Hbelow)).
  all: try (inversion H; subst; solve [auto using Forall_cons]).
  destruct (find_object (objects s) i) as [[| b | w | p | br]|] eqn:F;
    inversion H; subst; try (constructor; assumption).
  exact (Forall_cons _ (Inv_struck s i br Hs F) Hbelow).
Qed.

Lemma engine_step_inv (e e' : Engine) :
  variant e = v -> Forall update_ok (queue e) -> Forall Inv (scenes e) ->
  engine_step e = Ok e' -> Forall Inv (scenes e').
Proof.
  intros Hv Hq Hs H. unfold engine_step in H. destruct (queue e) as [|ev rest] eqn:Q.
  - inversion H; subst. exact Hs.
  - inv_bind H. inversion H; subst e'. rewrite Hv in Hbind.
    exact (publish_inv _ _ _ _ Hs (Forall_inv Hq) Hbind).
Qed.

Lemma reachable_inv (e : Engine) :
  engine_reachable v e -> Forall Inv (scenes e) /\ Forall update_ok (queue e) /\ variant e = v.
Proof.
  induction 1 as [| e evs _ [Hs [Hq Hv]] Hevs | e e' _ [Hs [Hq Hv]] Hstep].
  - split; [constructor; [apply Inv_new | constructor] | split; [constructor | reflexivity]].
  - split; [exact Hs|]. split; [|exact Hv]. cbn [queue]. apply Forall_app. split; [exact Hq|].
    apply host_update_ok, Hevs.
  - split; [exact (engine_step_inv e e' Hv Hq Hs Hstep)|].
    split; [exact (engine_step_queue_ok e e' Hq Hstep)|]. rewrite (engine_step_variant e e' Hstep). exact Hv.
Qed.

End SceneInvariant.

(** ** The engine keeps its scenes well formed *)

Lemma scene_wf_struck (v : Variant) (s : Scene) (i : ObjId) (br : Brick) :
  scene_wf v s -> find_object (objects s) i = Some (GBrick br) ->
  scene_wf v (mkScene (kind s) (set_object (objects s) i (option_map GBrick (Brick_on_brick_struck br)))).
Proof.
  intros Hs F. rewrite Brick_on_brick_struck_spec.
  destruct (hits br <=? 1)%Z eqn:E; cbn [option_map].
  - exact (scene_wf_remove v s i _ Hs F eq_refl eq_refl).
  - apply (scene_wf_set v s i _ _ Hs F); [|reflexivity].
    pose proof (scene_wf_find v s i _ Hs F) as Hb. cbn in Hb |- *. unfold brick_inv in *.
    cbn [hits]. apply Z.leb_gt in E. lia.
Qed.

Lemma scene_wf_dispatch (v : Variant) (ev : Event) (ids : list ObjId) (s s' : Scene) (sent : list Signal) :
  scene_wf v s -> update_ok ev -> dispatch_objects v ev ids s = Ok (s', sent) -> scene_wf v s'.
Proof. intros Hs Hev H. exact (proj1 (dispatch_objects_wf v ev ids s s' sent Hs Hev H)). Qed.

Lemma engine_step_wf (e e' : Engine) :
  engine_wf e -> engine_step e = Ok e' -> engine_wf e'.
Proof.
  intros [Hs Hq] H. split; [|exact (engine_step_queue_ok e e' Hq H)].
  rewrite (engine_step_variant e e' H).
  exact (engine_step_inv _ _ (Scene_new_wf _) (scene_wf_dispatch _) (scene_wf_struck _) e e' eq_refl Hq Hs H).
Qed.

Lemma run_wf (fuel : nat) (e e' : Engine) :
  engine_wf e -> run fuel e = Some (Ok e') -> engine_wf e'.
Proof.
  revert e. induction fuel as [|fuel IH]; intros e Hwf H; cbn [run] in H;
    destruct (queue e) eqn:Q; try (inversion H; subst; exact Hwf); try discriminate.
  destruct (engine_step e) as [e1|err] eqn:S; [|discriminate].
  exact (IH e1 (engine_step_wf e e1 Hwf S) H).
Qed.

Lemma run_reachable (v : Variant) (fuel : nat) (e e' : Engine) :
  engine_reachable v e -> run fuel e = Some (Ok e') -> engine_reachable v e'.
Proof.
  revert e. induction fuel as [|fuel IH]; intros e Hr H; cbn [run] in H;
    destruct (queue e) eqn:Q; try (inversion H; subst; exact Hr); try discriminate.
  destruct (engine_step e) as [e1|err] eqn:S; [|discriminate].
  exact (IH e1 (reach_step v e e1 Hr S) H).
Qed.

Lemma frame_reachable (v : Variant) (fuel : nat) (e e' : Engine) (inputs : list Event) (dt : Q) :
  engine_reachable v e -> Forall host_event inputs -> 0 <= dt ->
  frame fuel e inputs dt = Some (Ok e') -> engine_reachable v e'.
Proof.
  intros Hr Hin Hdt H.
  assert (Hq : Forall host_event (inputs ++ [Update dt; PreRender]))
    by (apply Forall_app; split; [exact Hin | repeat constructor; exact Hdt]).
  exact (run_reachable v fuel _ _ (reach_input v e _ Hr Hq) H).
Qed.

Lemma reachable_wf (v : Variant) (e : Engine) :
  engine_reachable v e -> engine_wf e /\ variant e = v.
Proof.
  intros Hr.
  destruct (reachable_inv v (scene_wf v) (Scene_new_wf v) (scene_wf_dispatch v) (scene_wf_struck v) e Hr)
    as [Hs [Hq Hv]].
  split; [|exact Hv]. split; [rewrite Hv; exact Hs | exact Hq].
Qed.

Lemma scene_paddles_count (s : Scene) : length (scene_paddles s) = count_of is_paddle (objects s).
Proof.
  destruct s as [k objs]. unfold scene_paddles, count_of. cbn [objects].
  induction objs as [|[i o] rest IH]; [reflexivity|].
  cbn [flat_map filter snd]. destruct o; cbn [app length is_paddle]; rewrite IH; reflexivity.
Qed.

Lemma Ball_on_update_paddle_err (b : Ball) (dt : Q) (walls : list Wall) (p : Paddle)
    (ps : list Paddle) (bricks : list (ObjId * Brick)) (e : PyError) :
  Ball_on_update b dt walls (p :: ps) bricks = Err e -> e = ZeroDivisionError.
Proof.
  unfold Ball_on_update. destruct (bounce_walls _ walls) as [b1 s1].
  destruct (bounce_bricks _ bricks) as [[b2 s2]|e'] eqn:R; cbn [bind]; intros H; [discriminate|].
  inversion H; subst. exact (proj1 (bounce_bricks_err _ _ _ R)).
Qed.

(** A frame of the host (the frame's input events, then [Update]
    with a non-negative time step and [PreRender], all published until the
    queue is empty) keeps every scene of the stack well formed. *)
Theorem frame_wf (fuel : nat) (e e' : Engine) (inputs : list Event) (dt : Q) :
  engine_wf e -> Forall host_event inputs -> 0 <= dt ->
  frame fuel e inputs dt = Some (Ok e') -> engine_wf e'.
Proof.
  intros [Hs Hq] Hin Hdt H. unfold frame in H. refine (run_wf fuel _ _ _ H).
  split; [exact Hs|]. cbn [queue]. apply Forall_app; split; [exact Hq|].
  apply Forall_app; split; [apply host_update_ok, Hin|]. repeat constructor. exact Hdt.
Qed.

(** C26: in every state the engine reaches from
    [ppb.run(starting_scene=TitleScreen)] in 3.4-the-blocks, whatever the
    player does, every [Game] scene of the stack has exactly one paddle,
    so the ball's update there never raises [StopIteration]: the only
    exception it can raise is [ZeroDivisionError]. *)
Theorem reachable_no_stop_iteration (e : Engine) (s : Scene) (b : Ball) (dt : Q) (err : PyError) :
  engine_reachable V34 e -> In s (scenes e) -> kind s = Game ->
  length (scene_paddles s) = 1%nat /\
  (Ball_on_update b dt (scene_walls s) (scene_paddles s) (scene_bricks s) = Err err ->
   err = ZeroDivisionError).
Proof.
  intros Hr Hin Hk. destruct (reachable_wf V34 e Hr) as [[Hs _] Hv]. rewrite Hv in Hs.
  destruct (proj1 (Forall_forall _ _) Hs s Hin) as [_ [_ [Hp _]]].
  assert (H1 : length (scene_paddles s) = 1%nat) by (rewrite scene_paddles_count; exact (Hp Hk eq_refl)).
  split; [exact H1|]. destruct (scene_paddles s) as [|p ps]; [discriminate H1|].
  apply Ball_on_update_paddle_err.
Qed.

Lemma reachable_no_stop_iteration_witness :
  exists e' s, frame 10 (Engine_start V34) [ButtonReleased] game_time_delta = Some (Ok e') /\
    In s (scenes e') /\ kind s = Game /\ length (scene_paddles s) = 1%nat /\
    (Ball_on_update Ball_new game_time_delta (scene_walls s) (scene_paddles s) (scene_bricks s) =
       Err StopIteration -> StopIteration = ZeroDivisionError).
Proof.
  destruct (frame 10 (Engine_start V34) [ButtonReleased] game_time_delta) as [[e'|err]|] eqn:F;
    [| vm_compute in F; discriminate F | vm_compute in F; discriminate F].
  assert (Hr : engine_reachable V34 e')
    by (apply (frame_reachable V34 10 (Engine_start V34) e' [ButtonReleased] game_time_delta);
        [constructor | repeat constructor | qcompute | exact F]).
  assert (Hs : exists s rest, scenes e' = s :: rest /\ kind s = Game)
    by (vm_compute in F; injection F as <-; eexists; eexists; split; reflexivity).
  destruct Hs as [s [rest [Hsc Hk]]].
  assert (Hin : In s (scenes e')) by (rewrite Hsc; left; reflexivity).
  exists e', s. split; [reflexivity|]. split; [exact Hin|]. split; [exact Hk|].
  exact (reachable_no_stop_iteration e' s Ball_new game_time_delta StopIteration Hr Hin Hk).
Defined.

(** ** The only exception of the reachable game *)

Lemma count_of_In (P : GameObject -> bool) (objs : list (ObjId * GameObject)) (i : ObjId) (o : GameObject) :
  In (i, o) objs -> P o = true -> count_of P objs <> 0%nat.
Proof.
  unfold count_of. induction objs as [|[j x] rest IH]; intros Hin Hp; [contradiction|].
  cbn [filter snd]. destruct Hin as [E|Hin].
  - injection E as <- <-. rewrite Hp. discriminate.
  - destruct (P x); cbn [length]; [discriminate | exact (IH Hin Hp)].
Qed.

(** In a well-formed scene of 3.4 a ball finds a paddle. *)
Lemma scene_wf_ball_paddle (s : Scene) (i : ObjId) (b : Ball) :
  scene_wf V34 s -> find_object (objects s) i = Some (GBall b) ->
  exists p ps, scene_paddles s = p :: ps.
Proof.
  intros [_ [_ [Hp Hb]]] F. apply find_object_In in F.
  assert (Hk : kind s = Game).
  { destruct (kind s) eqn:K; [| reflexivity |]; exfalso;
      apply (count_of_In is_ball _ _ _ F eq_refl), Hb; discriminate. }
  pose proof (Hp Hk eq_refl) as H1. rewrite <- scene_paddles_count in H1.
  destruct (scene_paddles s) as [|p ps]; [discriminate H1 | eauto].
Qed.

(** A well-formed sprite's handler raises only [ZeroDivisionError], from
    the ball's brick bounce. *)
Lemma handler_err (s : Scene) (o : GameObject) (ev : Event) (err : PyError) :
  obj_wf o -> update_ok ev ->
  (is_ball o = true -> exists p ps, scene_paddles s = p :: ps) ->
  match ev with Update dt => object_update V34 s o dt | _ => object_event o ev end = Err err ->
  err = ZeroDivisionError.
Proof.
  intros Hw Hev Hb H. destruct ev; destruct o as [| b | w | p | br]; cbn [object_update object_event] in H;
    try discriminate H.
  - destruct (Ball_on_update b _ _ _ _) as [[b' s']|e] eqn:U; cbn [bind] in H; inversion H; subst.
    destruct (Hb eq_refl) as [p [ps Hps]]. rewrite Hps in U. exact (Ball_on_update_paddle_err _ _ _ _ _ _ _ U).
  - destruct (Paddle_on_update_row p _ Hw Hev) as [p' [U _]]. rewrite U in H. discriminate H.
  - destruct (Brick_on_pre_render_live br Hw) as [c [_ U]]. rewrite U in H. discriminate H.
Qed.

Lemma dispatch_objects_err (ev : Event) (ids : list ObjId) (s : Scene) (err : PyError) :
  scene_wf V34 s -> update_ok ev -> dispatch_objects V34 ev ids s = Err err -> err = ZeroDivisionError.
Proof.
  revert s. induction ids as [|i rest IH]; intros s Hs Hev H; [discriminate H|].
  cbn [dispatch_objects] in H. destruct (find_object (objects s) i) as [o|] eqn:F.
  - destruct (match ev with Update dt => object_update V34 s o dt | _ => object_event o ev end)
      as [[oo sent]|e] eqn:R; cbn [bind] in H.
    + destruct (handler_wf V34 s o ev _ _ (scene_wf_find V34 s i o Hs F) Hev R) as [o' [-> [Hw Hc]]].
      destruct (dispatch_objects V34 ev rest _) as [[s2 sent2]|e] eqn:D; cbn [bind] in H; [discriminate H|].
      inversion H; subst. exact (IH _ (scene_wf_set V34 s i o o' Hs F Hw Hc) Hev D).
    + inversion H; subst. refine (handler_err s o ev err (scene_wf_find V34 s i o Hs F) Hev _ R).
      intros Hb. destruct o; try discriminate Hb. exact (scene_wf_ball_paddle s i _ Hs F).
  - destruct (dispatch_objects V34 ev rest s) as [[s2 sent2]|e] eqn:D; cbn [bind] in H; [discriminate H|].
    inversion H; subst. exact (IH s Hs Hev D).
Qed.

Lemma engine_step_err (e : Engine) (err : PyError) :
  engine_wf e -> variant e = V34 -> engine_step e = Err err -> err = ZeroDivisionError.
Proof.
  intros [Hs Hq] Hv H. unfold engine_step in H. rewrite Hv in H, Hs.
  destruct (queue e) as [|ev rest] eqn:Q; [discriminate H|].
  apply Forall_cons_iff in Hq as [Hev _].
  destruct (publish V34 (scenes e) ev) as [[st sent]|e'] eqn:P; cbn [bind] in H; [discriminate H|].
  inversion H; subst. destruct (scenes e) as [|s below]; [destruct ev as [| | | | | | []]; discriminate P|].
  apply Forall_cons_iff in Hs as [Hs _].
  destruct ev as [| | | | | | sg]; [..| destruct sg; cbn [publish] in P;
    try discriminate P; destruct (find_object _ _) as [[]|]; discriminate P].
  all: cbn [publish] in P; destruct (dispatch_objects _ _ _ _) as [[s2 sent2]|e2] eqn:D; cbn [bind] in P;
    [discriminate P | inversion P; subst; exact (dispatch_objects_err _ _ _ _ Hs Hev D)].
Qed.

(** C32: in 3.4, from [ppb.run(starting_scene=TitleScreen)] and whatever
    the player does, publishing the queue can fail only with
    [ZeroDivisionError] (a ball centred on a brick it strikes): the
    ball's [StopIteration], the paddle's [TypeError] (no mouse target)
    and the brick's [IndexError] (a colour out of range) never happen. *)
Theorem reachable_run_errors (fuel : nat) (e : Engine) :
  engine_reachable V34 e ->
  match run fuel e with Some (Err err) => err = ZeroDivisionError | _ => True end.
Proof.
  revert e. induction fuel as [|fuel IH]; intros e Hr; cbn [run]; destruct (queue e) eqn:Q; try exact I.
  destruct (engine_step e) as [e1|err] eqn:S.
  - exact (IH e1 (reach_step V34 e e1 Hr S)).
  - destruct (reachable_wf V34 e Hr) as [Hwf Hv]. exact (engine_step_err e err Hwf Hv S).
Qed.

Lemma reachable_run_errors_witness :
  let e := mkEngine V34 [Scene_new V34 TitleScreen] [ButtonReleased; Update game_time_delta; PreRender] in
  engine_reachable V34 e /\
  match run 10 e with Some (Err err) => err = ZeroDivisionError | _ => True end.
Proof.
  intros e.
  assert (Hh : Forall host_event [ButtonReleased; Update game_time_delta; PreRender]).
  { apply Forall_cons; [exact I|]. apply Forall_cons; [cbn; qcompute|].
    apply Forall_cons; [exact I | apply Forall_nil]. }
  assert (R : engine_reachable V34 e) by exact (reach_input V34 (Engine_start V34) _ (reach_start V34) Hh).
  split; [exact R | exact (reachable_run_errors 10 e R)].
Defined.
