(* ===== verification/Speed.v ===== *)
(** * The ball keeps its speed in 3.2-the-walls

    In 3.2-the-walls the only thing that changes a ball's velocity is the
    wall loop of [Ball.on_update], which reflects it off the normal of each
    overlapped wall.  The four walls of [Game.__init__] have axis normals
    of length 1, and a reflection about a unit normal keeps the length of
    the velocity.  This file carries that fact through the engine: in every
    state reachable from [ppb.run] in 3.2, every ball of every scene moves
    exactly as fast as the ball [Game.__init__] creates.

    The invariant [speed_inv] says so of a scene (and that its walls have
    unit normals); it is an instance of the generic [SceneInvariant] of
    [Invariants]. *)

From Stdlib Require Import QArith List.
From S2P Require Import Prelude Vector Geometry Events Brick Paddle Ball Scene Engine Invariants.
Import ListNotations.
Open Scope Q_scope.
Open Scope py_scope.

(** What a sprite keeps: a ball the squared speed [c], a wall a normal of
    length 1. *)
Definition keeps_speed (c : Q) (o : GameObject) : Prop :=
  match o with
  | GBall b => Vdot (velocity b) (velocity b) == c
  | GWall w => Vdot (normal w) (normal w) == 1
  | _ => True
  end.

Definition speed_inv (c : Q) (s : Scene) : Prop :=
  Forall (fun io => keeps_speed c (snd io)) (objects s).

(** The squared speed of the ball of 3.2's [Game.__init__]. *)
Definition launch_speed_v32 : Q := Vdot (velocity Ball_new_v32) (velocity Ball_new_v32).

Lemma number_objects_Forall (P : GameObject -> Prop) (l : list GameObject) :
  Forall P l -> Forall (fun io => P (snd io)) (number_objects l).
Proof.
  unfold number_objects. intros H. generalize 0%nat.
  induction H as [|o l Ho _ IH]; intros k; cbn [length seq combine]; constructor; [exact Ho | apply IH].
Qed.

Lemma scene_walls_unit (c : Q) (s : Scene) :
  speed_inv c s -> Forall (fun w => Vdot (normal w) (normal w) == 1) (scene_walls s).
Proof.
  unfold speed_inv, scene_walls. induction 1 as [|[i o] objs Ho _ IH]; [constructor|].
  cbn [flat_map]. destruct o; cbn in Ho |- *; try exact IH. constructor; assumption.
Qed.

Lemma speed_new (k : SceneKind) : speed_inv launch_speed_v32 (Scene_new V32 k).
Proof.
  unfold speed_inv. destruct k; cbn [Scene_new objects]; [| | constructor];
    apply number_objects_Forall; unfold TitleScreen_init, Game_init_v32, game_walls_v32;
    repeat constructor.
Qed.

(** A handler of 3.2 leaves each sprite keeping its speed. *)
Lemma handler_speed (c : Q) (s : Scene) (o : GameObject) (ev : Event)
    (oo : option GameObject) (sent : list Signal) :
  speed_inv c s -> keeps_speed c o ->
  match ev with Update dt => object_update V32 s o dt | _ => object_event o ev end = Ok (oo, sent) ->
  forall o', oo = Some o' -> keeps_speed c o'.
Proof.
  intros Hs Ho H o' E. subst oo.
  destruct o as [| b | w | p | br]; destruct ev; cbn [object_update object_event] in H;
    try inv_bind H; inversion H; subst; try exact I; try exact Ho.
  cbn [keeps_speed]. unfold Ball_on_update_v32.
  rewrite (reflect_walls_speed _ _ (scene_walls_unit c s Hs)). exact Ho.
Qed.

Lemma dispatch_speed (c : Q) (ev : Event) (ids : list ObjId) (s s' : Scene) (sent : list Signal) :
  speed_inv c s -> dispatch_objects V32 ev ids s = Ok (s', sent) -> speed_inv c s'.
Proof.
  revert s sent. induction ids as [|i rest IH]; intros s sent Hs H; cbn [dispatch_objects] in H.
  - inversion H; subst. exact Hs.
  - destruct (find_object (objects s) i) as [o|] eqn:F; inv_bind H; inversion H; subst;
      refine (IH _ _ _ Hbind0); [|exact Hs].
    apply set_object_Forall; [exact Hs|]. intros o' E.
    refine (handler_speed c s o ev _ _ Hs _ Hbind o' E).
    exact (proj1 (Forall_forall _ _) Hs _ (find_object_In _ _ _ F)).
Qed.

Lemma struck_speed (c : Q) (s : Scene) (i : ObjId) (br : Brick) :
  speed_inv c s ->
  speed_inv c (mkScene (kind s) (set_object (objects s) i (option_map GBrick (Brick_on_brick_struck br)))).
Proof.
  intros Hs. apply set_object_Forall; [exact Hs|]. intros o' E.
  destruct (Brick_on_brick_struck br); inversion E; exact I.
Qed.

(** C23: in 3.2-the-walls every ball of every scene of every state the
    engine can reach moves as fast as the ball [Game.__init__] launches:
    the wall reflections turn the velocity but never change its length. *)
Theorem ball_keeps_launch_speed (e : Engine) (s : Scene) (i : ObjId) (b : Ball) :
  engine_reachable V32 e -> In s (scenes e) -> find_object (objects s) i = Some (GBall b) ->
  Vdot (velocity b) (velocity b) == launch_speed_v32.
Proof.
  intros Hr Hin F.
  destruct (reachable_inv V32 (speed_inv launch_speed_v32) speed_new
              (fun ev ids s s' sent Hs _ H => dispatch_speed _ ev ids s s' sent Hs H)
              (fun s i br Hs _ => struck_speed _ s i br Hs) e Hr) as [Hall _].
  pose proof (proj1 (Forall_forall _ _) Hall s Hin) as Hs.
  exact (proj1 (Forall_forall _ _) Hs _ (find_object_In _ _ _ F)).
Qed.

Lemma ball_keeps_launch_speed_witness :
  exists e s b, engine_reachable V32 e /\ In s (scenes e) /\ find_object (objects s) 0%nat = Some (GBall b) /\
    vx (velocity b) < 0 /\ Vdot (velocity b) (velocity b) == launch_speed_v32.
Proof.
  assert (Hin : Forall host_event [ButtonReleased]) by repeat constructor.
  assert (H0 : 0 <= 0) by discriminate.
  destruct (frame 10 (Engine_start V32) [ButtonReleased] 0) as [[e1|]|] eqn:F1;
    [| vm_compute in F1; discriminate ..].
  pose proof (frame_reachable V32 10 _ _ _ _ (reach_start V32) Hin H0 F1) as R1.
  vm_compute in F1. injection F1 as E1. subst e1.
  assert (Hdt : 0 <= 11 # 10) by discriminate.
  match type of R1 with engine_reachable _ ?e =>
    destruct (frame 10 e [] (11 # 10)) as [[e2|]|] eqn:F2; [| vm_compute in F2; discriminate ..] end.
  pose proof (frame_reachable V32 10 _ _ _ _ R1 (Forall_nil _) Hdt F2) as R2.
  vm_compute in F2. injection F2 as E2. subst e2.
  eexists; eexists; eexists. split; [exact R2|]. split; [left; reflexivity|].
  split; [cbv; reflexivity|]. split; [vm_compute; reflexivity|].
  exact (ball_keeps_launch_speed _ _ 0%nat _ R2 (or_introl eq_refl) eq_refl).
Defined.
