(* ===== verification/GameOver.v ===== *)
(** * The deadly wall ends the game, through the engine

    Spec section 8: "Ball colliding with a deadly Wall triggers a
    transition to EndScreen (not continued play)".  In 3.4-the-blocks the
    ball's [on_update] only sends [ReplaceScene(EndScreen)]; the transition
    itself is the engine's: the signal waits in the queue behind the
    frame's [PreRender] and the ball's [BrickStruck] signals, and
    [GameEngine.publish] then replaces the running [Game].

    This file follows one frame of a reachable 3.4 engine whose running
    scene's [Update] makes the ball touch the deadly wall: the frame ends
    with a fresh [EndScreen] in place of the game, the scenes below it
    untouched and the queue drained, whatever else the ball struck.

    - every signal an [Update] of 3.4 raises is [ReplaceScene(EndScreen)]
      or a [BrickStruck];
    - a [PreRender] of a well-formed scene raises nothing and never fails;
    - a queue of such signals with one [ReplaceScene(EndScreen)] leaves the
      end screen on top: the strikes that follow it find no brick. *)

From Stdlib Require Import QArith List Lia.
From S2P Require Import Prelude Vector Geometry Events Brick Paddle Ball Scene Engine Invariants.
Import ListNotations.
Open Scope Q_scope.
Open Scope py_scope.

(** The signals the 3.4 ball sends. *)
Definition ball_signal (sg : Signal) : Prop :=
  sg = ReplaceScene EndScreen \/ exists i, sg = BrickStruck i.

Lemma object_update_signals (s : Scene) (o : GameObject) (dt : Q)
    (oo : option GameObject) (sent : list Signal) :
  object_update V34 s o dt = Ok (oo, sent) -> Forall ball_signal sent.
Proof.
  destruct o as [| b | w | p | br]; cbn [object_update]; intros H; inv_bind H; inversion H; subst;
    try constructor.
  destruct (Ball_on_update_Ok _ _ _ _ _ _ _ Hbind) as [_ ->].
  apply Forall_app. split; apply Forall_forall; intros sg Hin.
  - left. exact (proj1 (proj1 (in_deadly_signals _ _ _) Hin)).
  - right. destruct (proj1 (in_struck_signals _ _ _) Hin) as [i [_ [-> _]]]. eauto.
Qed.

Lemma dispatch_update_signals (dt : Q) (ids : list ObjId) (s s' : Scene) (sent : list Signal) :
  dispatch_objects V34 (Update dt) ids s = Ok (s', sent) -> Forall ball_signal sent.
Proof.
  revert s sent. induction ids as [|i rest IH]; intros s sent H; cbn [dispatch_objects] in H.
  - inversion H; subst. constructor.
  - destruct (find_object (objects s) i) as [o|]; inv_bind H; inversion H; subst;
      apply Forall_app; split; try exact (IH _ _ Hbind0).
    + exact (object_update_signals _ _ _ _ _ Hbind).
    + inversion Hbind. constructor.
Qed.

Lemma object_event_pre_render (o : GameObject) :
  obj_wf o -> exists o', object_event o PreRender = Ok (Some o', []).
Proof.
  destruct o as [| b | w | p | br]; intros Hw; cbn [object_event]; try (eexists; reflexivity).
  destruct (Brick_on_pre_render_live br Hw) as [c [_ ->]]. eexists. reflexivity.
Qed.

(** [PreRender] in a well-formed scene raises nothing: every brick's
    [colors[hits - 1]] is in range. *)
Lemma dispatch_pre_render (v : Variant) (ids : list ObjId) (s : Scene) :
  scene_wf v s -> exists s', dispatch_objects v PreRender ids s = Ok (s', []).
Proof.
  revert s. induction ids as [|i rest IH]; intros s Hs; cbn [dispatch_objects]; [eexists; reflexivity|].
  destruct (find_object (objects s) i) as [o|] eqn:F.
  - pose proof (scene_wf_find v s i o Hs F) as Ho.
    destruct (object_event_pre_render o Ho) as [o' E]. rewrite E. cbn [bind].
    destruct (object_event_wf o PreRender _ _ Ho E) as [o'' [Eo [Hw Hc]]]. injection Eo as <-.
    destruct (IH _ (scene_wf_set v s i o o' Hs F Hw Hc)) as [s' ->]. eexists. reflexivity.
  - cbn [bind]. destruct (IH s Hs) as [s' ->]. eexists. reflexivity.
Qed.

(** On the end screen the ball's signals change nothing: a strike finds
    no brick and a second [ReplaceScene(EndScreen)] builds the same empty
    scene. *)
Lemma run_on_end_screen (below : list Scene) (l : list Signal) :
  Forall ball_signal l ->
  run (length l) (mkEngine V34 (Scene_new V34 EndScreen :: below) (map Raised l)) =
    Some (Ok (mkEngine V34 (Scene_new V34 EndScreen :: below) [])).
Proof.
  induction 1 as [|sg l [-> | [i ->]] _ IH]; [reflexivity|..];
    cbn [length map run queue]; unfold engine_step; cbn; rewrite app_nil_r; exact IH.
Qed.

Lemma run_replace_end_screen (below : list Scene) (l : list Signal) (s : Scene) :
  Forall ball_signal l -> In (ReplaceScene EndScreen) l ->
  run (length l) (mkEngine V34 (s :: below) (map Raised l)) =
    Some (Ok (mkEngine V34 (Scene_new V34 EndScreen :: below) [])).
Proof.
  intros Hall. revert s. induction Hall as [|sg l Hsg Hl IH]; intros s Hin; [destruct Hin|].
  cbn [length map run queue]. unfold engine_step. cbn [queue scenes variant].
  destruct Hsg as [-> | [i ->]].
  - cbn [publish bind]. rewrite app_nil_r. exact (run_on_end_screen below l Hl).
  - destruct Hin as [E | Hin]; [discriminate E|]. cbn [publish].
    destruct (find_object (objects s) i) as [[| b | w | p | br]|]; cbn [bind]; rewrite app_nil_r;
      apply IH; exact Hin.
Qed.

(** The two events of the host in a frame without input. *)
Lemma frame_no_input (fuel : nat) (v : Variant) (s s1 s2 : Scene) (below : list Scene) (dt : Q)
    (sent : list Signal) :
  dispatch_objects v (Update dt) (map fst (objects s)) s = Ok (s1, sent) ->
  dispatch_objects v PreRender (map fst (objects s1)) s1 = Ok (s2, []) ->
  frame (S (S fuel)) (mkEngine v (s :: below) []) [] dt = run fuel (mkEngine v (s2 :: below) (map Raised sent)).
Proof.
  intros H1 H2. unfold frame. cbn [variant scenes queue app run]. unfold engine_step at 1.
  cbn [queue scenes variant publish scene_event]. rewrite H1. cbn [bind run app].
  unfold engine_step. cbn [queue scenes variant publish scene_event]. rewrite H2. cbn [bind app].
  rewrite !app_nil_r. reflexivity.
Qed.

(** The state after the first frame of 3.4 in which the player releases a
    button on the title screen: a fresh game above the title. *)
Lemma game_started_reachable :
  engine_reachable V34 (mkEngine V34 [Scene_new V34 Game; Scene_new V34 TitleScreen] []).
Proof.
  assert (F : frame 10 (Engine_start V34) [ButtonReleased] 0 =
              Some (Ok (mkEngine V34 [Scene_new V34 Game; Scene_new V34 TitleScreen] [])))
    by (vm_compute; reflexivity).
  assert (Hin : Forall host_event [ButtonReleased]) by repeat constructor.
  assert (H0 : 0 <= 0) by discriminate.
  exact (frame_reachable V34 10 _ _ _ _ (reach_start V34) Hin H0 F).
Qed.

(** C24: in every reachable state of 3.4 whose running scene's [Update]
    has the ball touch the deadly wall (it raises
    [ReplaceScene(EndScreen)]), the frame ends with a fresh [EndScreen]
    in place of that scene, the scenes below unchanged and nothing left
    in the queue: play does not continue. *)
Theorem deadly_wall_ends_game (g g' : Scene) (below : list Scene) (dt : Q) (sent : list Signal) :
  engine_reachable V34 (mkEngine V34 (g :: below) []) -> 0 <= dt ->
  dispatch_objects V34 (Update dt) (map fst (objects g)) g = Ok (g', sent) ->
  In (ReplaceScene EndScreen) sent ->
  frame (length sent + 2) (mkEngine V34 (g :: below) []) [] dt =
    Some (Ok (mkEngine V34 (Scene_new V34 EndScreen :: below) [])).
Proof.
  intros Hr Hdt Hd Hin.
  destruct (reachable_wf _ _ Hr) as [[Hs _] _]. apply Forall_inv in Hs.
  destruct (dispatch_objects_wf V34 (Update dt) _ g g' sent Hs Hdt Hd) as [Hs' _].
  destruct (dispatch_pre_render V34 (map fst (objects g')) g' Hs') as [g'' Hp].
  replace (length sent + 2)%nat with (S (S (length sent))) by lia.
  rewrite (frame_no_input _ _ _ _ _ _ _ _ Hd Hp).
  exact (run_replace_end_screen below sent g'' (dispatch_update_signals _ _ _ _ _ Hd) Hin).
Qed.

Lemma deadly_wall_ends_game_witness :
  exists g' sent,
    engine_reachable V34 (mkEngine V34 [Scene_new V34 Game; Scene_new V34 TitleScreen] []) /\
    0 <= 1 # 2 /\
    dispatch_objects V34 (Update (1 # 2)) (map fst (objects (Scene_new V34 Game))) (Scene_new V34 Game) =
      Ok (g', sent) /\
    In (ReplaceScene EndScreen) sent /\
    frame (length sent + 2) (mkEngine V34 [Scene_new V34 Game; Scene_new V34 TitleScreen] []) [] (1 # 2) =
      Some (Ok (mkEngine V34 [Scene_new V34 EndScreen; Scene_new V34 TitleScreen] [])).
Proof.
  pose proof game_started_reachable as R.
  assert (Hdt : 0 <= 1 # 2) by discriminate.
  destruct (dispatch_objects V34 (Update (1 # 2)) (map fst (objects (Scene_new V34 Game))) (Scene_new V34 Game))
    as [[g' sent]|err] eqn:D; [|vm_compute in D; discriminate].
  assert (Hin : In (ReplaceScene EndScreen) sent)
    by (vm_compute in D; injection D as _ <-; left; reflexivity).
  exists g', sent. split; [exact R|]. split; [exact Hdt|]. split; [reflexivity|]. split; [exact Hin|].
  exact (deadly_wall_ends_game _ _ _ _ _ R Hdt D Hin).
Defined.
