(* ===== verification/Session.v ===== *)
(** * The host's main loop and the scene machine it implements

    [ppb.run] opens the window and then loops: while a scene is left on
    the stack it runs one frame (the frame's input events, [Update] and
    [PreRender], published until the queue is empty), and it stops when
    the stack is empty.  [session] models that loop over a finite script
    of frames, each its input events and its time step; the clock and the
    window are not modelled, so the time steps are the script's.

    [session_wf]: every state a script of host frames leads to from
    [ppb.run] is reachable, hence well formed. *)

From Stdlib Require Import QArith List.
From S2P Require Import Prelude Vector Geometry Events Brick Paddle Ball Scene Engine Invariants.
Import ListNotations.
Open Scope Q_scope.
Open Scope py_scope.

(** One frame of the script: the input events and the time step. *)
Definition HostFrame : Type := (list Event * Q)%type.

(** [GameEngine.run]: [while self.running: loop_once()]. *)
Fixpoint session (fuel : nat) (e : Engine) (frames : list HostFrame) : option (result Engine) :=
  match frames with
  | [] => Some (Ok e)
  | (inputs, dt) :: rest =>
      if running e then
        match frame fuel e inputs dt with
        | Some (Ok e') => session fuel e' rest
        | r => r
        end
      else Some (Ok e)
  end.

(** What the host delivers in a frame. *)
Definition host_frame (f : HostFrame) : Prop :=
  Forall host_event (fst f) /\ 0 <= snd f.

(** ** Sessions from [ppb.run] *)

Lemma session_reachable (v : Variant) (fuel : nat) (e e' : Engine) (frames : list HostFrame) :
  engine_reachable v e -> Forall host_frame frames ->
  session fuel e frames = Some (Ok e') -> engine_reachable v e'.
Proof.
  intros Hr Hf. revert e Hr. induction Hf as [|[inputs dt] rest [Hin Hdt] _ IH]; intros e Hr H;
    cbn [session] in H; [inversion H; subst; exact Hr|].
  destruct (running e); [|inversion H; subst; exact Hr].
  destruct (frame fuel e inputs dt) as [[e1|err]|] eqn:F; try discriminate.
  exact (IH e1 (frame_reachable v fuel e e1 inputs dt Hr Hin Hdt F) H).
Qed.

(** C25: every state that a script of host frames (input events, and a
    non-negative time step) leads to from [ppb.run] is well formed: its
    scenes keep distinct sprite identities, bricks with 1 to 3 hits,
    paddles on their row and, in 3.3 and 3.4, one paddle per [Game]; and
    it runs the same step of the tutorial. *)
Theorem session_wf (v : Variant) (fuel : nat) (frames : list HostFrame) (e : Engine) :
  Forall host_frame frames -> session fuel (Engine_start v) frames = Some (Ok e) ->
  engine_wf e /\ variant e = v.
Proof.
  intros Hf H. exact (reachable_wf v e (session_reachable v fuel _ _ _ (reach_start v) Hf H)).
Qed.

Lemma session_wf_witness :
  let frames := [([ButtonReleased], 0); ([MouseMotion (mkVector 5 3)], 1 # 10)] in
  exists e, Forall host_frame frames /\ session 10 (Engine_start V34) frames = Some (Ok e) /\
            engine_wf e /\ variant e = V34.
Proof.
  intros frames.
  destruct (session 10 (Engine_start V34) frames) as [[e|err]|] eqn:S; [|vm_compute in S; discriminate ..].
  assert (Hf : Forall host_frame frames) by (repeat (constructor || discriminate)).
  exists e. split; [exact Hf|]. split; [reflexivity|]. exact (session_wf V34 10 frames e Hf S).
Defined.
